(** * Descriptor table, file I/O gate and anonymous-page swap

    A shallow embedding of [userprog/syscall.c] (descriptor table, [dup2],
    [close], [read], [write]) and of [vm/anon.c] (swap slots of anonymous
    pages), with the properties of the design document stated over it.

    Conventions of the embedding.
    - A [struct file *] is its address, a [Z]: [0] is [NULL], [1] and [2]
      are the stream sentinels the source compares pointers with
      ([file_obj == 1], [file_obj == 2]), anything above is a real object.
    - [curr->fdTable] is the memory around the table base, addressed by slot
      index: cells [0 .. FDCOUNT_LIMIT-1] are the table, a cell never written
      reads [NULL] (the table is allocated zeroed).  A store at an index
      outside that range lands in a cell that is not part of the table, which
      is what the C store [fdt[newfd] = ...] does.
    - Calls into other kernel modules ([file_close], [putbuf], locks, the
      disk driver, the page table) append an event to a trace.
    - A store through a user address for which the page table has no mapping
      raises a page fault.  What the fault handler then does is not part of
      these sources: the embedding stops there, with the state reached. *)

From Stdlib Require Import ZArith Lia Bool List Strings.Byte.
From stdpp Require Import base option list gmap.

Local Open Scope Z_scope.

(** ** C integer conversions *)

(** Conversion of a value to [int] (32 bits, two's complement), as done when
    an [unsigned] is returned from a function of result type [int]. *)
Definition to_int (x : Z) : Z := (x + 2 ^ 31) mod 2 ^ 32 - 2 ^ 31.

(** Conversion of a value to [unsigned] / [uint32_t] / [disk_sector_t]. *)
Definition to_uint (x : Z) : Z := x mod 2 ^ 32.

Module Syscall.

(** [const int STDIN = 1; const int STDOUT = 2;] *)
Definition STDIN : Z := 1.
Definition STDOUT : Z := 2.

(** [struct file]: the member the descriptor table maintains. *)
Record file := mkFile { dupCount : Z }.

(** Calls that leave [syscall.c]. *)
Inductive event :=
| EvFileClose (f : Z)              (* file_close (f) *)
| EvLockAcquire                    (* lock_acquire (&filesys_lock) *)
| EvLockRelease                    (* lock_release (&filesys_lock) *)
| EvPutbuf (buffer size : Z)       (* putbuf (buffer, size) *)
| EvFileRead (f buffer size : Z)   (* file_read (f, buffer, size), size an off_t *)
| EvFileWrite (f buffer size : Z)  (* file_write (f, buffer, size), size an off_t *)
| EvExitMsg (status : Z).          (* printf ("%s: exit(%d)\n", ...) *)

(** The part of the machine the system calls act on: the current thread's
    descriptor fields, the heap of open [struct file] objects, user memory,
    the number of bytes already taken from the console, and the trace. *)
Record state := mkState {
  fdTable : gmap Z Z;
  fdIdx : Z;
  stdin_count : Z;
  stdout_count : Z;
  exit_status : Z;
  files : gmap Z file;
  umem : gmap Z byte;
  input_pos : nat;
  trace : list event
}.

Definition set_fdTable (t : gmap Z Z) (s : state) : state :=
  mkState t (fdIdx s) (stdin_count s) (stdout_count s) (exit_status s)
          (files s) (umem s) (input_pos s) (trace s).
Definition set_fdIdx (i : Z) (s : state) : state :=
  mkState (fdTable s) i (stdin_count s) (stdout_count s) (exit_status s)
          (files s) (umem s) (input_pos s) (trace s).
Definition set_stdin_count (n : Z) (s : state) : state :=
  mkState (fdTable s) (fdIdx s) n (stdout_count s) (exit_status s)
          (files s) (umem s) (input_pos s) (trace s).
Definition set_stdout_count (n : Z) (s : state) : state :=
  mkState (fdTable s) (fdIdx s) (stdin_count s) n (exit_status s)
          (files s) (umem s) (input_pos s) (trace s).
Definition set_exit_status (n : Z) (s : state) : state :=
  mkState (fdTable s) (fdIdx s) (stdin_count s) (stdout_count s) n
          (files s) (umem s) (input_pos s) (trace s).
Definition set_files (h : gmap Z file) (s : state) : state :=
  mkState (fdTable s) (fdIdx s) (stdin_count s) (stdout_count s) (exit_status s)
          h (umem s) (input_pos s) (trace s).
Definition set_umem (m : gmap Z byte) (s : state) : state :=
  mkState (fdTable s) (fdIdx s) (stdin_count s) (stdout_count s) (exit_status s)
          (files s) m (input_pos s) (trace s).
Definition set_input_pos (n : nat) (s : state) : state :=
  mkState (fdTable s) (fdIdx s) (stdin_count s) (stdout_count s) (exit_status s)
          (files s) (umem s) n (trace s).
Definition emit (e : event) (s : state) : state :=
  mkState (fdTable s) (fdIdx s) (stdin_count s) (stdout_count s) (exit_status s)
          (files s) (umem s) (input_pos s) (trace s ++ [e]).

(** How a call ends. *)
Inductive outcome (A : Type) :=
| Done (v : A) (s : state)   (* the function returns [v] *)
| Exit (s : state)           (* [exit ()]: the thread ends, nothing returns *)
| Panic                      (* [NOT_REACHED ()]: kernel panic *)
| Fault                      (* access through a pointer to a freed [struct file] *)
| PageFault (s : state).     (* page fault at an access to user memory, in this
                                file or in a callee that then does not return *)
Arguments Done {A} v s.
Arguments Exit {A} s.
Arguments Panic {A}.
Arguments Fault {A}.
Arguments PageFault {A} s.

Definition bind {A B} (m : outcome A) (k : A -> state -> outcome B) : outcome B :=
  match m with
  | Done v s => k v s
  | Exit s => Exit s
  | Panic => Panic
  | Fault => Fault
  | PageFault s => PageFault s
  end.

Notation "'do' x , s <- m ; k" := (bind m (fun x s => k))
  (at level 10, x name, s name, m at level 100, k at level 200).

(** [fdt[i]]: the cell at slot index [i]. *)
Definition cell (t : gmap Z Z) (i : Z) : Z := default 0 (t !! i).

Section Calls.

(** [FDCOUNT_LIMIT] is a macro of [threads/thread.h]. *)
Variable FDCOUNT_LIMIT : Z.

(** The address-space tests of [check_address], and the console and
    filesystem routines: other kernel modules.  [file_read] and [file_write]
    ([off_t file_read (struct file *, void *, off_t)], [off_t] being
    [int32_t]) are given the state and return their result and the state they
    leave, or [None] when they do not return: they access the user buffer, of
    which their caller has validated the first byte only. *)
Variable is_user_vaddr : Z -> bool.
Variable pml4_get_page : Z -> Z.
Variable input_getc : nat -> byte.
Variable file_read : Z -> Z -> Z -> state -> option (Z * state).
Variable file_write : Z -> Z -> Z -> state -> option (Z * state).

(** [exit (status)] *)
Definition exit {A} (status : Z) (s : state) : outcome A :=
  Exit (emit (EvExitMsg status) (set_exit_status status s)).

(** [check_address (uaddr)] *)
Definition check_address (uaddr : Z) (s : state) : outcome unit :=
  if (uaddr =? 0) || negb (is_user_vaddr uaddr) || (pml4_get_page uaddr =? 0)
  then exit (-1) s
  else Done tt s.

(** [process_get_file (fd)] *)
Definition process_get_file (fd : Z) (s : state) : Z :=
  if (fd <? 0) || (fd >=? FDCOUNT_LIMIT) then 0
  else cell (fdTable s) fd.

(** [process_close_file (fd)] *)
Definition process_close_file (fd : Z) (s : state) : state :=
  if (fd <? 0) || (fd >=? FDCOUNT_LIMIT) then s
  else set_fdTable (<[fd := 0]> (fdTable s)) s.

(** The [while] loop of [process_add_file]: advance the index while it is
    below the limit and the cell is occupied.  The loop runs at most
    [FDCOUNT_LIMIT - idx] times, which is the fuel [process_add_file] gives. *)
Fixpoint scan_fd (fuel : nat) (t : gmap Z Z) (idx : Z) : Z :=
  match fuel with
  | O => idx
  | S n =>
      if (idx <? FDCOUNT_LIMIT) && negb (cell t idx =? 0)
      then scan_fd n t (idx + 1)
      else idx
  end.

(** [process_add_file (f)] *)
Definition process_add_file (f : Z) (s : state) : Z * state :=
  let idx := scan_fd (Z.to_nat (FDCOUNT_LIMIT - fdIdx s)) (fdTable s) (fdIdx s) in
  let s1 := set_fdIdx idx s in
  if idx >=? FDCOUNT_LIMIT then (-1, s1)
  else (idx, set_fdTable (<[idx := f]> (fdTable s1)) s1).

(** [file_close (f)] of [filesys/file.c]: the object is freed. *)
Definition file_close (f : Z) (s : state) : state :=
  emit (EvFileClose f) (set_files (delete f (files s)) s).

(** [open (file)], where [file_obj] is what [filesys_open (file)] returned:
    [NULL], or a newly allocated object ([calloc], so [dupCount] is 0). *)
Definition open (file : Z) (file_obj : Z) (s : state) : outcome Z :=
  do _u, s <- check_address file s;
  if file_obj =? 0 then Done (-1) s
  else
    let s := set_files (<[file_obj := mkFile 0]> (files s)) s in
    let '(fd, s) := process_add_file file_obj s in
    if fd =? -1 then Done fd (file_close file_obj s)
    else Done fd s.

(** [close (fd)] *)
Definition close (fd : Z) (s : state) : outcome unit :=
  let file_obj := process_get_file fd s in
  if file_obj =? 0 then Done tt s
  else
    let s :=
      if (file_obj =? 1) || (fd =? 0)
      then set_stdin_count (stdin_count s - 1) s
      else if (file_obj =? 2) || (fd =? 1)
      then set_stdout_count (stdout_count s - 1) s
      else s in
    if (fd <=? 1) || (file_obj <=? 2) then Done tt s
    else
      let s := process_close_file fd s in
      match files s !! file_obj with
      | None => Fault
      | Some fo =>
          if dupCount fo =? 0 then Done tt (file_close file_obj s)
          else Done tt (set_files (<[file_obj := mkFile (dupCount fo - 1)]> (files s)) s)
      end.

(** [dup2 (oldfd, newfd)] *)
Definition dup2 (oldfd newfd : Z) (s : state) : outcome Z :=
  let old_file := process_get_file oldfd s in
  if old_file =? 0 then Done (-1) s
  else if oldfd =? newfd then Done newfd s
  else
    do _u, s1 <- (if old_file =? 1
           then Done tt (set_stdin_count (stdin_count s + 1) s)
           else if old_file =? 2
           then Done tt (set_stdout_count (stdout_count s + 1) s)
           else match files s !! old_file with
                | None => Fault
                | Some fo =>
                    Done tt (set_files (<[old_file := mkFile (dupCount fo + 1)]> (files s)) s)
                end);
    do _u, s2 <- close newfd s1;
    Done newfd (set_fdTable (<[newfd := old_file]> (fdTable s2)) s2).

(** The [for] loop of [read] on the input stream, entered with [n]
    iterations left before [i] reaches [size]: take one byte from the
    console, store it at [buf], leave the loop if it is the terminator.
    The store [*buf++ = c] goes through the user address as it is (only
    [buffer] itself went through [check_address]): it raises a page fault
    when the page table has no mapping for the address.
    [i] is an [int] compared with the [unsigned size]: the embedding counts
    in [Z] and converts to [int] where [read] returns [i], which is what the
    code does as long as the counter stays below [2^31]. *)
Fixpoint getc_loop (n : nat) (i : Z) (buf : Z) (s : state) : outcome Z :=
  match n with
  | O => Done i s
  | S n' =>
      let c := input_getc (input_pos s) in
      let s := set_input_pos (S (input_pos s)) s in
      if pml4_get_page buf =? 0 then PageFault s
      else
        let s := set_umem (<[buf := c]> (umem s)) s in
        if Byte.eqb c "000"%byte then Done i s
        else getc_loop n' (i + 1) (buf + 1) s
  end.

(** [read (fd, buffer, size)] *)
Definition read (fd buffer size : Z) (s : state) : outcome Z :=
  do _u, s <- check_address buffer s;
  let file_obj := process_get_file fd s in
  if file_obj =? 0 then Done (-1) s
  else if file_obj =? 1 then
    if stdin_count s =? 0 then Panic
    else
      do i, s <- getc_loop (Z.to_nat size) 0 buffer s;
      Done (to_int i) s
  else if file_obj =? 2 then Done (-1) s
  else
    let s := emit EvLockAcquire s in
    let s := emit (EvFileRead file_obj buffer (to_int size)) s in
    match file_read file_obj buffer (to_int size) s with
    | Some (ret, s) => Done ret (emit EvLockRelease s)
    | None => PageFault s
    end.

(** [write (fd, buffer, size)] *)
Definition write (fd buffer size : Z) (s : state) : outcome Z :=
  do _u, s <- check_address buffer s;
  let file_obj := process_get_file fd s in
  if file_obj =? 0 then Done (-1) s
  else if file_obj =? 2 then
    if stdout_count s =? 0 then Panic
    else Done (to_int size) (emit (EvPutbuf buffer size) s)
  else if file_obj =? 1 then Done (-1) s
  else
    let s := emit EvLockAcquire s in
    let s := emit (EvFileWrite file_obj buffer (to_int size)) s in
    match file_write file_obj buffer (to_int size) s with
    | Some (ret, s) => Done ret (emit EvLockRelease s)
    | None => PageFault s
    end.

End Calls.

End Syscall.

Module Anon.

(** Calls that leave [anon.c]. *)
Inductive event :=
| EvDiskRead (sec_no buffer : Z)               (* disk_read (swap_disk, sec_no, buffer) *)
| EvDiskWrite (sec_no buffer : Z)              (* disk_write (swap_disk, sec_no, buffer) *)
| EvClearPage (owner va : Z)                   (* pml4_clear_page (owner->pml4, va) *)
| EvSetDirty (owner va : Z) (dirty : bool)     (* pml4_set_dirty (owner->pml4, va, dirty) *)
| EvListRemove (frame : Z)                     (* list_remove (&frame->elem) *)
| EvFree (frame : Z).                          (* free (frame) *)

(** The two operation tables of [anon.c]. *)
Inductive page_operations := anon_ops | anon_stack_ops.

(** [struct frame], by the member [anon.c] reads. *)
Record frame := mkFrame { kva : Z }.

(** [struct page] with its [anon] member flattened: [frame] is a pointer
    into the heap of frames ([0] is [NULL]), [owner] the owning thread, and
    [swap_slot_idx] (declared in [vm/anon.h]) holds a slot index of the
    bitmap or [INVALID_SLOT_IDX] as it is. *)
Record page := mkPage {
  operations : option page_operations;
  va : Z;
  frame_ptr : Z;
  owner : Z;
  swap_slot_idx : Z
}.

Definition set_frame_ptr (f : Z) (p : page) : page :=
  mkPage (operations p) (va p) f (owner p) (swap_slot_idx p).
Definition set_swap_slot_idx (i : Z) (p : page) : page :=
  mkPage (operations p) (va p) (frame_ptr p) (owner p) i.

(** The globals of [anon.c] and what its callees act on: the swap bitmap,
    the swap disk and kernel memory (both byte addressed: sector [n] of the
    disk is the bytes from [n * DISK_SECTOR_SIZE] on), the heap of
    [struct frame] objects, the list their [elem] members are linked in,
    and the trace. *)
Record vm := mkVm {
  swap_table : list bool;
  swap_disk : gmap Z byte;
  kmem : gmap Z byte;
  frames : gmap Z frame;
  frame_list : list Z;
  trace : list event
}.

Definition set_swap_table (b : list bool) (s : vm) : vm :=
  mkVm b (swap_disk s) (kmem s) (frames s) (frame_list s) (trace s).
Definition set_swap_disk (d : gmap Z byte) (s : vm) : vm :=
  mkVm (swap_table s) d (kmem s) (frames s) (frame_list s) (trace s).
Definition set_kmem (m : gmap Z byte) (s : vm) : vm :=
  mkVm (swap_table s) (swap_disk s) m (frames s) (frame_list s) (trace s).
Definition set_frames (h : gmap Z frame) (s : vm) : vm :=
  mkVm (swap_table s) (swap_disk s) (kmem s) h (frame_list s) (trace s).
Definition set_frame_list (l : list Z) (s : vm) : vm :=
  mkVm (swap_table s) (swap_disk s) (kmem s) (frames s) l (trace s).
Definition emit (e : event) (s : vm) : vm :=
  mkVm (swap_table s) (swap_disk s) (kmem s) (frames s) (frame_list s) (trace s ++ [e]).

(** How a call ends. *)
Inductive outcome (A : Type) :=
| Done (v : A)     (* the function returns *)
| Panic            (* [PANIC] or a failed [ASSERT] *)
| Fault.           (* access through a pointer to a freed [struct frame] *)
Arguments Done {A} v.
Arguments Panic {A}.
Arguments Fault {A}.

(** The byte at an address; a byte never written reads as zero. *)
Definition byte_at (m : gmap Z byte) (a : Z) : byte := default "000"%byte (m !! a).

(** Copy [n] bytes from [src] at address [from] to [dst] at address [to]. *)
Fixpoint copy_bytes (n : nat) (src : gmap Z byte) (from to : Z) (dst : gmap Z byte)
  : gmap Z byte :=
  match n with
  | O => dst
  | S k => copy_bytes k src (from + 1) (to + 1) (<[to := byte_at src from]> dst)
  end.

(** [BITMAP_ERROR] is [SIZE_MAX]. *)
Definition BITMAP_ERROR : Z := 2 ^ 64 - 1.

(** Modelled from the spec: [bitmap_create] of [lib/kernel/bitmap.c] is not
    among the sources; the swap slot table is "a bitmap of fixed size, one bit
    per page-sized slot; false = free". *)
Definition bitmap_create (bit_cnt : Z) : list bool := replicate (Z.to_nat bit_cnt) false.

(** The index of the first clear bit of [b], counted from [i]. *)
Fixpoint first_clear (b : list bool) (i : Z) : option Z :=
  match b with
  | [] => None
  | x :: r => if x then first_clear r (i + 1) else Some i
  end.

(** Modelled from the spec: [bitmap_scan_and_flip (b, 0, 1, false)] of
    [lib/kernel/bitmap.c] is not among the sources; "first-fit scan of the
    bitmap for a clear bit, atomically sets it", and reports exhaustion
    ([BITMAP_ERROR]) if none is found. *)
Definition bitmap_scan_and_flip (b : list bool) : Z * list bool :=
  match first_clear b 0 with
  | Some i => (i, <[Z.to_nat i := true]> b)
  | None => (BITMAP_ERROR, b)
  end.

(** Modelled from the spec: [bitmap_set (b, idx, value)] of
    [lib/kernel/bitmap.c] is not among the sources; "clears the bit", the
    caller guaranteeing that the id was allocated.  An index outside the
    bitmap is a failed assertion. *)
Definition bitmap_set (b : list bool) (idx : Z) (value : bool) : outcome (list bool) :=
  if (0 <=? idx) && (idx <? Z.of_nat (length b))
  then Done (<[Z.to_nat idx := value]> b)
  else Panic.

Section Swap.

(** Macros of [threads/vaddr.h], [devices/disk.h] and [vm/vm.h]. *)
Variable PGSIZE : Z.
Variable DISK_SECTOR_SIZE : Z.
Variable INVALID_SLOT_IDX : Z.
Variable VM_MARKER_0 : Z.

(** [#define CEILING(x, y) (((x) + (y) - 1) / (y))] *)
Definition CEILING (x y : Z) : Z := Z.quot (x + y - 1) y.

(** [#define SECTORS_PER_PAGE CEILING(PGSIZE, DISK_SECTOR_SIZE)] *)
Definition SECTORS_PER_PAGE : Z := CEILING PGSIZE DISK_SECTOR_SIZE.

(** [disk_write (swap_disk, sec_no, buffer)]: one sector from memory to disk. *)
Definition disk_write (sec_no buffer : Z) (s : vm) : vm :=
  emit (EvDiskWrite sec_no buffer)
    (set_swap_disk
       (copy_bytes (Z.to_nat DISK_SECTOR_SIZE) (kmem s) buffer
                   (sec_no * DISK_SECTOR_SIZE) (swap_disk s)) s).

(** [disk_read (swap_disk, sec_no, buffer)]: one sector from disk to memory. *)
Definition disk_read (sec_no buffer : Z) (s : vm) : vm :=
  emit (EvDiskRead sec_no buffer)
    (set_kmem
       (copy_bytes (Z.to_nat DISK_SECTOR_SIZE) (swap_disk s)
                   (sec_no * DISK_SECTOR_SIZE) buffer (kmem s)) s).

(** [(disk_sector_t) (slot * SECTORS_PER_PAGE) + i] *)
Definition sector_of (slot i : Z) : Z :=
  to_uint (to_uint (slot * SECTORS_PER_PAGE) + i).

(** [vm_anon_init ()], given the size of the swap disk in sectors. *)
Definition vm_anon_init (num_sector : Z) (s : vm) : vm :=
  let max_slot := num_sector / SECTORS_PER_PAGE in
  set_swap_table (bitmap_create max_slot) s.

(** [anon_initializer (page, type, kva)], run by the thread [current]. *)
Definition anon_initializer (p : page) (type kva current : Z) : bool * page :=
  let ops := if Z.land type VM_MARKER_0 =? 0 then anon_ops else anon_stack_ops in
  (true, mkPage (Some ops) (va p) (frame_ptr p) current INVALID_SLOT_IDX).

(** The [for] loop of [anon_swap_in], with [n] iterations left. *)
Fixpoint read_sectors (n : nat) (i : Z) (slot kva : Z) (s : vm) : vm :=
  match n with
  | O => s
  | S k =>
      let sec_no := sector_of slot i in
      let ofs := i * DISK_SECTOR_SIZE in
      read_sectors k (i + 1) slot kva (disk_read sec_no (kva + ofs) s)
  end.

(** [anon_swap_in (page, kva)] *)
Definition anon_swap_in (p : page) (kva : Z) (s : vm) : outcome (bool * page * vm) :=
  if swap_slot_idx p =? INVALID_SLOT_IDX then Done (false, p, s)
  else
    let s := read_sectors (Z.to_nat SECTORS_PER_PAGE) 0 (swap_slot_idx p) kva s in
    match bitmap_set (swap_table s) (swap_slot_idx p) false with
    | Done b =>
        Done (true, set_swap_slot_idx INVALID_SLOT_IDX p, set_swap_table b s)
    | Panic => Panic
    | Fault => Fault
    end.

(** The [for] loop of [anon_swap_out], with [n] iterations left. *)
Fixpoint write_sectors (n : nat) (i : Z) (slot kva : Z) (s : vm) : vm :=
  match n with
  | O => s
  | S k =>
      let sec_no := sector_of slot i in
      let ofs := i * DISK_SECTOR_SIZE in
      write_sectors k (i + 1) slot kva (disk_write sec_no (kva + ofs) s)
  end.

(** [anon_swap_out (page)]; [None] is the [NULL] page. *)
Definition anon_swap_out (pg : option page) (s : vm) : outcome (bool * option page * vm) :=
  let '(slot, b) := bitmap_scan_and_flip (swap_table s) in
  if slot =? BITMAP_ERROR then Panic
  else
    let s := set_swap_table b s in
    match pg with
    | None => Done (false, None, s)
    | Some p =>
        if frame_ptr p =? 0 then Done (false, pg, s)
        else
          match frames s !! frame_ptr p with
          | None => Fault
          | Some fr =>
              if kva fr =? 0 then Done (false, pg, s)
              else
                let s := write_sectors (Z.to_nat SECTORS_PER_PAGE) 0 slot (kva fr) s in
                let p := set_swap_slot_idx slot p in
                let s := emit (EvClearPage (owner p) (va p)) s in
                let s := emit (EvSetDirty (owner p) (va p) false) s in
                Done (true, Some (set_frame_ptr 0 p), s)
          end
    end.

(** [anon_destroy (page)] *)
Definition anon_destroy (p : page) (s : vm) : outcome vm :=
  if negb (frame_ptr p =? 0) then
    match frames s !! frame_ptr p with
    | None => Fault
    | Some _ =>
        let s := emit (EvListRemove (frame_ptr p))
                   (set_frame_list (filter (fun f => f ≠ frame_ptr p) (frame_list s)) s) in
        Done (emit (EvFree (frame_ptr p)) (set_frames (delete (frame_ptr p) (frames s)) s))
    end
  else if swap_slot_idx p =? INVALID_SLOT_IDX then Panic
  else
    match bitmap_set (swap_table s) (swap_slot_idx p) false with
    | Done b => Done (set_swap_table b s)
    | Panic => Panic
    | Fault => Fault
    end.

End Swap.

End Anon.

(** * Properties of the descriptor table and of the file I/O gate *)

Module SyscallSpec.
Import Syscall.

(** Modelled from the spec: the table a new process starts with.  The
    thread set-up code is not among the sources; "indices 0 and 1 are
    conventionally reserved for the standard streams", the first [open]
    "yields fd 2", and each stream has an open count that must be non-zero
    for the stream to be usable. *)
Definition init_state : state :=
  mkState (<[1 := STDOUT]> (<[0 := STDIN]> ∅)) 2 1 1 0 ∅ ∅ 0%nat [].

(** A sample machine for closed examples: a table of eight slots, user
    addresses below the kernel base, every page but page zero mapped, a
    keyboard that delivers "ab" and a terminator again and again, and a
    filesystem that transfers nothing. *)
Definition sample_limit : Z := 8.
Definition sample_is_user_vaddr (a : Z) : bool := a <? 0x8004000000.
Definition sample_pml4_get_page (a : Z) : Z := if a <? 4096 then 0 else a.
Definition sample_input_getc (n : nat) : byte :=
  match (n mod 3)%nat with
  | 0%nat => "a"%byte
  | 1%nat => "b"%byte
  | _ => "000"%byte
  end.
Definition sample_file_io (f buffer size : Z) (s : state) : option (Z * state) :=
  Some (0, s).

(** The events a call added to the trace of [s] on its way to [s']. *)
Definition events_since (s s' : state) : list event :=
  drop (length (trace s)) (trace s').

Lemma to_int_small (x : Z) : 0 <= x < 2 ^ 31 -> to_int x = x.
Proof. intros H. unfold to_int. rewrite Z.mod_small; lia. Qed.



Section Properties.

Variable FDCOUNT_LIMIT : Z.
Variable is_user_vaddr : Z -> bool.
Variable pml4_get_page : Z -> Z.

Local Abbreviation get := (process_get_file FDCOUNT_LIMIT).
Local Abbreviation check := (check_address is_user_vaddr pml4_get_page).
Local Abbreviation sys_open := (open FDCOUNT_LIMIT is_user_vaddr pml4_get_page).
Local Abbreviation sys_close := (close FDCOUNT_LIMIT).
Local Abbreviation sys_dup2 := (dup2 FDCOUNT_LIMIT).

(** ** Definitions used by the statements *)

(** What [check_address] accepts. *)
Definition valid_uaddr (a : Z) : bool :=
  negb ((a =? 0) || negb (is_user_vaddr a) || (pml4_get_page a =? 0)).

(** One [open] after the other; an element is the address of the name and
    the object [filesys_open] returns for it. *)
Fixpoint open_all (l : list (Z * Z)) (s : state) : outcome (list Z) :=
  match l with
  | [] => Done [] s
  | (name, h) :: r =>
      do fd, s1 <- sys_open name h s;
      do fds, s2 <- open_all r s1;
      Done (fd :: fds) s2
  end.

(** The calls that act on the descriptor table. *)
Inductive call :=
| Open (name file_obj : Z)
| Close (fd : Z)
| Dup2 (oldfd newfd : Z).

Definition run (c : call) (s : state) : outcome Z :=
  match c with
  | Open name h => sys_open name h s
  | Close fd => do _u, s' <- sys_close fd s; Done 0 s'
  | Dup2 oldfd newfd => sys_dup2 oldfd newfd s
  end.

(** What a call needs from its surroundings: [filesys_open] returns [NULL]
    or an object that is not open yet, and the target of a [dup2] that gets
    as far as its store is a slot of the table. *)
Definition admissible (s : state) (c : call) : Prop :=
  match c with
  | Open _ h => h = 0 \/ (2 < h /\ files s !! h = None)
  | Close _ => True
  | Dup2 oldfd newfd => get oldfd s = 0 \/ 0 <= newfd < FDCOUNT_LIMIT
  end.

(** A call that overwrites no open file sitting on descriptor 0 or 1: a
    [dup2] that gets as far as its store and has descriptor 0 or 1 as its
    target finds a stream sentinel there, and no open file. *)
Definition spares_low_files (s : state) (c : call) : Prop :=
  match c with
  | Dup2 oldfd newfd =>
      get oldfd s = 0 \/ oldfd = newfd \/ 2 <= newfd \/ get newfd s <= 2
  | _ => True
  end.

(** The states a process gets to from [s0] by calls that satisfy [ok] and
    return. *)
Inductive reachable (ok : state -> call -> Prop) (s0 : state) : state -> Prop :=
| reach_start : reachable ok s0 s0
| reach_call s c v s' :
    reachable ok s0 s -> ok s c -> run c s = Done v s' -> reachable ok s0 s'.

(** The number of slots among the first [n] whose cell is [f]. *)
Fixpoint count_slots (n : nat) (t : gmap Z Z) (f : Z) : Z :=
  match n with
  | O => 0
  | S k => count_slots k t f + (if cell t (Z.of_nat k) =? f then 1 else 0)
  end.

(** The number of descriptor slots that point at [f]. *)
Definition aliases (s : state) (f : Z) : Z :=
  count_slots (Z.to_nat FDCOUNT_LIMIT) (fdTable s) f.

(** Every slot holds [NULL], a stream sentinel or an open file. *)
Definition cells_ok (s : state) : Prop :=
  forall i, 0 <= i < FDCOUNT_LIMIT ->
    0 <= cell (fdTable s) i /\
    (2 < cell (fdTable s) i -> is_Some (files s !! cell (fdTable s) i)).

(** Open files live above the sentinels. *)
Definition handles_ok (s : state) : Prop :=
  forall f fo, files s !! f = Some fo -> 2 < f.

(** The alias count of every open file is the number of slots that point at
    it, minus one. *)
Definition alias_count_exact (s : state) : Prop :=
  forall f fo, files s !! f = Some fo -> dupCount fo = aliases s f - 1.

(** The alias count of every open file is at least the number of slots that
    point at it, minus one. *)
Definition alias_count_bound (s : state) : Prop :=
  forall f fo, files s !! f = Some fo -> aliases s f - 1 <= dupCount fo.

(** The counting property with one increment pending for [p], as inside
    [dup2] between [old_file->dupCount ++] and the store. *)
Definition counted (exact : bool) (p : Z) (s : state) : Prop :=
  forall f fo, files s !! f = Some fo ->
    if exact
    then dupCount fo = aliases s f - 1 + (if f =? p then 1 else 0)
    else aliases s f - 1 + (if f =? p then 1 else 0) <= dupCount fo.

Definition table_inv (exact : bool) (p : Z) (s : state) : Prop :=
  0 <= fdIdx s /\ cells_ok s /\ handles_ok s /\ counted exact p s.

(** Between [s] and [s'] either [file_close] was not called and every open
    file stayed open, or it was called once, on a file that no slot points at
    any more, and every other open file stayed open. *)
Definition released_at_most_one (s s' : state) : Prop :=
  (trace s' = trace s /\
   forall g, is_Some (files s !! g) -> is_Some (files s' !! g))
  \/
  (exists f,
     trace s' = trace s ++ [EvFileClose f] /\ 2 < f /\
     files s' !! f = None /\ aliases s' f = 0 /\
     forall g, g <> f -> is_Some (files s !! g) -> is_Some (files s' !! g)).

(** The table is well formed: a non-negative mark, and slots and heap as
    described above. *)
Definition well_formed (s : state) : Prop :=
  0 <= fdIdx s /\ cells_ok s /\ handles_ok s.

(** ** Address validation *)

Lemma check_address_valid (a : Z) (s : state) :
  valid_uaddr a = true -> check a s = Done tt s.
Proof.
  unfold valid_uaddr, check_address.
  destruct ((a =? 0) || negb (is_user_vaddr a) || (pml4_get_page a =? 0));
    [discriminate | reflexivity].
Qed.

Lemma check_address_cases (a : Z) (s : state) :
  check a s = Done tt s \/ check a s = exit (-1) s.
Proof.
  unfold check_address.
  destruct ((a =? 0) || negb (is_user_vaddr a) || (pml4_get_page a =? 0)); auto.
Qed.

(** Whether an address passes does not depend on the state. *)
Lemma check_address_indep (a : Z) (s s' : state) :
  check a s = Done tt s -> check a s' = Done tt s'.
Proof.
  unfold check_address.
  destruct ((a =? 0) || negb (is_user_vaddr a) || (pml4_get_page a =? 0));
    [discriminate | reflexivity].
Qed.

(** ** The store of [dup2] *)

(** C2, the code at an out-of-range target.  When [oldfd] resolves to a
    stream or to an open file and [newfd] is below 0 or not below
    [FDCOUNT_LIMIT], [dup2] reports no error: it returns [newfd], and it has
    stored the resource in the cell at index [newfd], outside the table. *)
Theorem dup2_stores_outside_table (oldfd newfd : Z) (s : state) :
  get oldfd s <> 0 ->
  get oldfd s = STDIN \/ get oldfd s = STDOUT \/ is_Some (files s !! get oldfd s) ->
  newfd < 0 \/ FDCOUNT_LIMIT <= newfd ->
  exists s',
    sys_dup2 oldfd newfd s = Done newfd s' /\
    fdTable s' !! newfd = Some (get oldfd s) /\
    ~ (0 <= newfd < FDCOUNT_LIMIT).
Proof.
  intros Hnz Hres Hout.
  assert (Hnew : get newfd s = 0).
  { unfold process_get_file.
    destruct (Z.ltb_spec newfd 0), (Z.geb_spec newfd FDCOUNT_LIMIT); cbn; try reflexivity; lia. }
  assert (Hne : oldfd <> newfd).
  { intros ->. contradiction. }
  assert (Hclose : forall s1, fdTable s1 = fdTable s -> sys_close newfd s1 = Done tt s1).
  { intros s1 Ht. unfold close.
    assert (process_get_file FDCOUNT_LIMIT newfd s1 = 0) as ->; [|reflexivity].
    unfold process_get_file in *. rewrite Ht. exact Hnew. }
  unfold dup2.
  destruct (Z.eqb_spec (get oldfd s) 0); [contradiction|].
  destruct (Z.eqb_spec oldfd newfd); [contradiction|].
  destruct (Z.eqb_spec (get oldfd s) 1) as [E1|E1].
  { cbn [bind]. rewrite Hclose by reflexivity. cbn [bind].
    eexists; split; [reflexivity|]. cbn. split; [apply lookup_insert_eq | lia]. }
  destruct (Z.eqb_spec (get oldfd s) 2) as [E2|E2].
  { cbn [bind]. rewrite Hclose by reflexivity. cbn [bind].
    eexists; split; [reflexivity|]. cbn. split; [apply lookup_insert_eq | lia]. }
  destruct Hres as [H|[H|[fo Hfo]]]; [contradiction | contradiction |].
  rewrite Hfo. cbn [bind]. rewrite Hclose by reflexivity. cbn [bind].
  eexists; split; [reflexivity|]. cbn. split; [apply lookup_insert_eq | lia].
Qed.

(** ** Allocation of descriptors *)

(** The loop of [process_add_file] stops at the first empty cell at or above
    the index it starts from, or at the limit. *)
Lemma scan_fd_spec (fuel : nat) (t : gmap Z Z) (idx : Z) :
  FDCOUNT_LIMIT - idx <= Z.of_nat fuel ->
  idx <= scan_fd FDCOUNT_LIMIT fuel t idx /\
  (forall i, idx <= i < scan_fd FDCOUNT_LIMIT fuel t idx ->
             i < FDCOUNT_LIMIT /\ cell t i <> 0) /\
  (scan_fd FDCOUNT_LIMIT fuel t idx < FDCOUNT_LIMIT ->
   cell t (scan_fd FDCOUNT_LIMIT fuel t idx) = 0).
Proof.
  revert idx. induction fuel as [|fuel IH]; intros idx Hfuel; cbn [scan_fd].
  - repeat split; try lia.
  - destruct (Z.ltb_spec idx FDCOUNT_LIMIT) as [Hlt|Hge]; cbn [andb].
    + destruct (Z.eqb_spec (cell t idx) 0) as [Hz|Hnz]; cbn [negb].
      * repeat split; try lia.
      * destruct (IH (idx + 1)) as (H1 & H2 & H3); [lia|].
        split; [lia|]. split; [|exact H3].
        intros i Hi. destruct (Z.eq_dec i idx) as [->|Hne]; [auto|].
        apply H2. lia.
    + repeat split; try lia.
Qed.

(** [process_add_file] when [j] is the first empty cell from the mark on. *)
Lemma process_add_file_found (f j : Z) (s : state) :
  fdIdx s <= j < FDCOUNT_LIMIT ->
  (forall i, fdIdx s <= i < j -> cell (fdTable s) i <> 0) ->
  cell (fdTable s) j = 0 ->
  process_add_file FDCOUNT_LIMIT f s
    = (j, set_fdTable (<[j := f]> (fdTable s)) (set_fdIdx j s)).
Proof.
  intros Hj Hocc Hfree. unfold process_add_file.
  destruct (scan_fd_spec (Z.to_nat (FDCOUNT_LIMIT - fdIdx s)) (fdTable s) (fdIdx s))
    as (H1 & H2 & H3); [lia|].
  set (r := scan_fd _ _ _ _) in *.
  assert (r = j) as ->.
  { destruct (Z.lt_trichotomy r j) as [Hlt|[Heq|Hgt]]; [|exact Heq|].
    - specialize (Hocc r ltac:(lia)). rewrite H3 in Hocc by lia. contradiction.
    - destruct (H2 j ltac:(lia)) as [_ Hc]. contradiction. }
  destruct (Z.geb_spec j FDCOUNT_LIMIT); [lia | reflexivity].
Qed.

(** [process_add_file] when no cell from the mark on is empty. *)
Lemma process_add_file_full (f : Z) (s : state) :
  (forall i, fdIdx s <= i < FDCOUNT_LIMIT -> cell (fdTable s) i <> 0) ->
  process_add_file FDCOUNT_LIMIT f s
    = (-1, set_fdIdx (Z.max (fdIdx s) FDCOUNT_LIMIT) s).
Proof.
  intros Hocc. unfold process_add_file.
  destruct (scan_fd_spec (Z.to_nat (FDCOUNT_LIMIT - fdIdx s)) (fdTable s) (fdIdx s))
    as (H1 & H2 & H3); [lia|].
  set (r := scan_fd _ _ _ _) in *.
  assert (Hr : r = Z.max (fdIdx s) FDCOUNT_LIMIT).
  { destruct (Z_lt_ge_dec r FDCOUNT_LIMIT) as [Hlt|Hge].
    - specialize (Hocc r ltac:(lia)). rewrite H3 in Hocc by lia. contradiction.
    - destruct (Z_lt_ge_dec FDCOUNT_LIMIT r) as [Hlt2|Hge2]; [|lia].
      destruct (Z.eq_dec r (fdIdx s)) as [->|Hne]; [lia|].
      destruct (H2 (r - 1) ltac:(lia)). lia. }
  rewrite Hr. destruct (Z.geb_spec (Z.max (fdIdx s) FDCOUNT_LIMIT) FDCOUNT_LIMIT); [reflexivity | lia].
Qed.

(** [process_add_file] never moves the mark down. *)
Lemma process_add_file_mark (f : Z) (s : state) :
  fdIdx s <= fdIdx (process_add_file FDCOUNT_LIMIT f s).2.
Proof.
  unfold process_add_file.
  destruct (scan_fd_spec (Z.to_nat (FDCOUNT_LIMIT - fdIdx s)) (fdTable s) (fdIdx s))
    as (H1 & _); [lia|].
  destruct (_ >=? _); cbn; exact H1.
Qed.

(** ** Counting the slots that point at a file *)

Lemma count_slots_nonneg (n : nat) (t : gmap Z Z) (f : Z) : 0 <= count_slots n t f.
Proof. induction n as [|n IH]; cbn; [lia|]. destruct (_ =? _); lia. Qed.

Lemma count_slots_zero (n : nat) (t : gmap Z Z) (f : Z) :
  (forall i, 0 <= i < Z.of_nat n -> cell t i <> f) -> count_slots n t f = 0.
Proof.
  induction n as [|n IH]; intros H; cbn; [reflexivity|].
  rewrite IH by (intros i Hi; apply H; lia).
  destruct (Z.eqb_spec (cell t (Z.of_nat n)) f) as [E|E]; [|reflexivity].
  exfalso. apply (H (Z.of_nat n)); [lia | exact E].
Qed.

Lemma count_slots_pos (n : nat) (t : gmap Z Z) (f i : Z) :
  0 <= i < Z.of_nat n -> cell t i = f -> 1 <= count_slots n t f.
Proof.
  induction n as [|n IH]; intros Hi Hc; cbn; [lia|].
  pose proof (count_slots_nonneg n t f).
  destruct (Z.eq_dec i (Z.of_nat n)) as [->|Hne].
  - rewrite Hc, Z.eqb_refl. lia.
  - specialize (IH ltac:(lia) Hc). destruct (_ =? _); lia.
Qed.

Lemma cell_insert (t : gmap Z Z) (j v i : Z) :
  cell (<[j := v]> t) i = if decide (j = i) then v else cell t i.
Proof.
  unfold cell. rewrite lookup_insert. destruct (decide (j = i)); reflexivity.
Qed.

(** A store at slot [j] adds one for the value stored and takes one for the
    value overwritten. *)
Lemma count_slots_insert (n : nat) (t : gmap Z Z) (j v f : Z) :
  0 <= j ->
  count_slots n (<[j := v]> t) f
    = count_slots n t f
      + (if j <? Z.of_nat n
         then (if v =? f then 1 else 0) - (if cell t j =? f then 1 else 0)
         else 0).
Proof.
  intros Hj. induction n as [|n IH]; cbn [count_slots].
  - destruct (Z.ltb_spec j (Z.of_nat 0)); lia.
  - rewrite IH, cell_insert.
    destruct (decide (j = Z.of_nat n)) as [->|Hne].
    + destruct (Z.ltb_spec (Z.of_nat n) (Z.of_nat n)); [lia|].
      destruct (Z.ltb_spec (Z.of_nat n) (Z.of_nat (S n))); [|lia].
      destruct (v =? f), (cell t (Z.of_nat n) =? f); lia.
    + destruct (Z.ltb_spec j (Z.of_nat n)), (Z.ltb_spec j (Z.of_nat (S n))); try lia.
Qed.

Lemma aliases_insert (s : state) (j v f : Z) :
  0 <= j < FDCOUNT_LIMIT ->
  aliases (set_fdTable (<[j := v]> (fdTable s)) s) f
    = aliases s f + (if v =? f then 1 else 0)
      - (if cell (fdTable s) j =? f then 1 else 0).
Proof.
  intros Hj. unfold aliases. cbn [fdTable set_fdTable].
  rewrite count_slots_insert by lia.
  destruct (Z.ltb_spec j (Z.of_nat (Z.to_nat FDCOUNT_LIMIT))); lia.
Qed.

Lemma aliases_nonneg (s : state) (f : Z) : 0 <= aliases s f.
Proof. apply count_slots_nonneg. Qed.

Lemma aliases_pos (s : state) (f i : Z) :
  0 <= i < FDCOUNT_LIMIT -> cell (fdTable s) i = f -> 1 <= aliases s f.
Proof. intros Hi Hc. apply (count_slots_pos _ _ _ i); [lia | exact Hc]. Qed.

Lemma aliases_zero (s : state) (f : Z) :
  (forall i, 0 <= i < FDCOUNT_LIMIT -> cell (fdTable s) i <> f) -> aliases s f = 0.
Proof. intros H. apply count_slots_zero. intros i Hi. apply H. lia. Qed.

(** Two different slots that point at [f] make two aliases. *)
Lemma aliases_two (s : state) (f i j : Z) :
  0 <= i < FDCOUNT_LIMIT -> 0 <= j < FDCOUNT_LIMIT -> i <> j -> f <> 0 ->
  cell (fdTable s) i = f -> cell (fdTable s) j = f -> 2 <= aliases s f.
Proof.
  intros Hi Hj Hne Hf Hci Hcj.
  pose proof (aliases_insert s j 0 f Hj) as Hins.
  rewrite Hcj, Z.eqb_refl in Hins.
  destruct (Z.eqb_spec 0 f) as [E|_]; [congruence|].
  assert (1 <= aliases (set_fdTable (<[j := 0]> (fdTable s)) s) f).
  { apply (aliases_pos _ _ i Hi). cbn. rewrite cell_insert.
    destruct (decide (j = i)); [congruence | exact Hci]. }
  lia.
Qed.

Lemma get_in_range (fd : Z) (s : state) :
  get fd s <> 0 -> 0 <= fd < FDCOUNT_LIMIT /\ get fd s = cell (fdTable s) fd.
Proof.
  unfold process_get_file.
  destruct (Z.ltb_spec fd 0), (Z.geb_spec fd FDCOUNT_LIMIT); cbn; intros Hnz;
    try contradiction. split; [lia | reflexivity].
Qed.

Lemma get_cell (fd : Z) (s : state) :
  0 <= fd < FDCOUNT_LIMIT -> get fd s = cell (fdTable s) fd.
Proof.
  intros H. unfold process_get_file.
  destruct (Z.ltb_spec fd 0), (Z.geb_spec fd FDCOUNT_LIMIT); cbn; try lia; reflexivity.
Qed.

(** ** What [close] does *)

(** The invariants read the table, the heap and the mark only. *)
Lemma table_inv_ext (exact : bool) (p : Z) (s s' : state) :
  fdTable s' = fdTable s -> files s' = files s -> fdIdx s <= fdIdx s' ->
  table_inv exact p s -> table_inv exact p s'.
Proof.
  intros Ht Hf Hi (H0 & Hc & Hh & Hn).
  unfold table_inv, cells_ok, handles_ok, counted, aliases in *.
  rewrite Ht, Hf. split; [lia|]. split; [assumption|]. split; assumption.
Qed.

Lemma counted_le (exact : bool) (p : Z) (s : state) (f : Z) (fo : file) :
  counted exact p s -> files s !! f = Some fo ->
  aliases s f - 1 + (if f =? p then 1 else 0) <= dupCount fo.
Proof.
  intros Hn Hf. specialize (Hn f fo Hf). destruct exact; lia.
Qed.

(** [close] returns.  Either it leaves the table and the heap alone (empty
    slot, descriptor 0 or 1, or a stream sentinel: at most a stream counter
    moves), or it clears the slot of an open file and then releases the file
    if its alias count is 0 and decrements the count otherwise. *)
Lemma close_effect (fd : Z) (s : state) :
  cells_ok s ->
  exists s',
    sys_close fd s = Done tt s' /\ fdIdx s' = fdIdx s /\
    ((fdTable s' = fdTable s /\ files s' = files s /\ trace s' = trace s /\
      (get fd s = 0 \/ fd <= 1 \/ get fd s <= 2) /\
      (get fd s = 0 -> s' = s))
     \/
     (2 <= fd < FDCOUNT_LIMIT /\ 2 < get fd s /\
      fdTable s' = <[fd := 0]> (fdTable s) /\
      stdin_count s' = stdin_count s /\ stdout_count s' = stdout_count s /\
      exists fo, files s !! get fd s = Some fo /\
        ((dupCount fo = 0 /\ files s' = delete (get fd s) (files s) /\
          trace s' = trace s ++ [EvFileClose (get fd s)])
         \/
         (dupCount fo <> 0 /\
          files s' = <[get fd s := mkFile (dupCount fo - 1)]> (files s) /\
          trace s' = trace s)))).
Proof.
  intros Hc. unfold close.
  destruct (Z.eqb_spec (get fd s) 0) as [E0|E0].
  { exists s. split; [reflexivity|]. split; [reflexivity|]. left. auto 10. }
  destruct (get_in_range fd s E0) as [Hr Hg].
  destruct (Hc fd Hr) as [Hnn Hlive]. rewrite <- Hg in Hnn, Hlive.
  destruct ((fd <=? 1) || (get fd s <=? 2)) eqn:Elow.
  { eexists. split; [reflexivity|].
    assert (Hlow : fd <= 1 \/ get fd s <= 2).
    { apply orb_true_iff in Elow. destruct Elow as [H|H]; apply Z.leb_le in H; auto. }
    destruct ((get fd s =? 1) || (fd =? 0)); [|destruct ((get fd s =? 2) || (fd =? 1))];
      cbn; (split; [reflexivity|]); left; repeat split; auto; intros; contradiction. }
  apply orb_false_iff in Elow. destruct Elow as [H1 H2].
  apply Z.leb_gt in H1, H2.
  destruct (Z.eqb_spec (get fd s) 1); [lia|].
  destruct (Z.eqb_spec fd 0); [lia|].
  destruct (Z.eqb_spec (get fd s) 2); [lia|].
  destruct (Z.eqb_spec fd 1); [lia|]. cbn [orb].
  unfold process_close_file.
  destruct (Z.ltb_spec fd 0); [lia|].
  destruct (Z.geb_spec fd FDCOUNT_LIMIT); [lia|]. cbn [orb].
  cbn [files set_fdTable].
  destruct (Hlive ltac:(lia)) as [fo Hfo]. rewrite Hfo.
  destruct (Z.eqb_spec (dupCount fo) 0) as [Ed|Ed].
  - eexists. split; [reflexivity|]. split; [reflexivity|]. right.
    repeat split; try lia. exists fo. split; [reflexivity|]. left. auto.
  - eexists. split; [reflexivity|]. split; [reflexivity|]. right.
    repeat split; try lia. exists fo. split; [reflexivity|]. right. auto.
Qed.

(** [close] keeps the invariants, with or without an increment pending for
    [p]; it does not release [p], and it leaves no open file in the slot
    unless the slot is descriptor 0 or 1 and held one. *)
Lemma close_inv (exact : bool) (p fd : Z) (s : state) :
  table_inv exact p s ->
  exists s',
    sys_close fd s = Done tt s' /\ table_inv exact p s' /\
    fdIdx s' = fdIdx s /\
    (is_Some (files s !! p) -> is_Some (files s' !! p)) /\
    (fdTable s' = fdTable s \/
     (0 <= fd < FDCOUNT_LIMIT /\ fdTable s' = <[fd := 0]> (fdTable s))) /\
    (0 <= fd < FDCOUNT_LIMIT -> 2 <= fd \/ cell (fdTable s) fd <= 2 ->
     cell (fdTable s') fd <= 2) /\
    released_at_most_one s s'.
Proof.
  intros Hinv. pose proof Hinv as (H0 & Hc & Hh & Hn).
  destruct (close_effect fd s Hc) as (s' & Hrun & Hidx & Heff).
  exists s'. split; [exact Hrun|].
  destruct Heff as [(Ht & Hf & Htr & Hwhy & _) | (Hfd & Hreal & Ht & _ & _ & fo & Hfo & Hrel)].
  - split; [apply (table_inv_ext exact p s); auto; lia|]. split; [exact Hidx|].
    split; [now rewrite Hf|]. split; [now left|].
    split; [|left; split; [exact Htr | now rewrite Hf]].
    intros Hr Hlow. rewrite Ht.
    destruct Hlow as [Hlow|Hlow]; [|exact Hlow].
    rewrite <- (get_cell fd s Hr). destruct Hwhy as [E|[E|E]]; lia.
  - set (f := get fd s) in *.
    assert (Hcell : cell (fdTable s) fd = f) by (symmetry; apply get_cell; lia).
    pose proof (counted_le exact p s f fo Hn Hfo) as Hle.
    assert (Hal : forall g, 2 < g ->
              aliases s' g = aliases s g - (if f =? g then 1 else 0)).
    { intros g Hg. unfold aliases at 1. rewrite Ht.
      change (count_slots (Z.to_nat FDCOUNT_LIMIT) (<[fd:=0]> (fdTable s)) g)
        with (aliases (set_fdTable (<[fd := 0]> (fdTable s)) s) g).
      rewrite aliases_insert by lia. rewrite Hcell.
      destruct (Z.eqb_spec 0 g); lia. }
    assert (Hother : forall i, 0 <= i < FDCOUNT_LIMIT -> i <> fd ->
              dupCount fo = 0 -> cell (fdTable s) i <> f).
    { intros i Hi Hne Hz Hci.
      pose proof (aliases_two s f i fd Hi ltac:(lia) Hne ltac:(lia) Hci Hcell).
      destruct (f =? p); lia. }
    assert (Hcells : cells_ok s').
    { intros i Hi. rewrite Ht, cell_insert.
      destruct (decide (fd = i)) as [->|Hne].
      - split; [lia|]. intros; lia.
      - destruct (Hc i Hi) as [Hnn Hlive]. split; [exact Hnn|].
        intros Hgt. specialize (Hlive Hgt).
        destruct Hrel as [(Hz & Hf & _) | (Hnz & Hf & _)]; rewrite Hf.
        + rewrite lookup_delete_ne; [exact Hlive|].
          intros Heq. apply (Hother i Hi ltac:(congruence) Hz). now symmetry.
        + rewrite lookup_insert. destruct (decide (f = cell (fdTable s) i)); [eauto | exact Hlive]. }
    assert (Hhandles : handles_ok s').
    { intros g go Hg.
      destruct Hrel as [(Hz & Hf & _) | (Hnz & Hf & _)]; rewrite Hf in Hg.
      - apply lookup_delete_Some in Hg as [_ Hg]. eapply Hh; eauto.
      - rewrite lookup_insert in Hg. destruct (decide (f = g)) as [<-|_]; [lia|].
        eapply Hh; eauto. }
    assert (Hcounted : counted exact p s').
    { intros g go Hg. pose proof (Hhandles g go Hg) as Hg2.
      rewrite (Hal g Hg2).
      destruct Hrel as [(Hz & Hf & _) | (Hnz & Hf & _)]; rewrite Hf in Hg.
      - apply lookup_delete_Some in Hg as [Hne Hg].
        destruct (Z.eqb_spec f g); [contradiction|].
        specialize (Hn g go Hg). rewrite Z.sub_0_r. exact Hn.
      - rewrite lookup_insert in Hg. destruct (decide (f = g)) as [<-|Hne].
        + injection Hg as <-. cbn [dupCount]. rewrite Z.eqb_refl.
          specialize (Hn f fo Hfo). destruct exact; lia.
        + destruct (Z.eqb_spec f g); [contradiction|].
          specialize (Hn g go Hg). rewrite Z.sub_0_r. exact Hn. }
    split.
    { split; [lia|]. split; [exact Hcells|]. split; [exact Hhandles | exact Hcounted]. }
    split; [exact Hidx|]. split.
    { intros [po Hp].
      destruct Hrel as [(Hz & Hf & _) | (Hnz & Hf & _)]; rewrite Hf.
      - rewrite lookup_delete_ne; [eauto|]. intros ->.
        pose proof (aliases_pos s p fd ltac:(lia) Hcell).
        rewrite Z.eqb_refl in Hle. lia.
      - rewrite lookup_insert. destruct (decide (f = p)); eauto. }
    split; [right; split; [lia | exact Ht]|].
    split.
    { intros _ _. rewrite Ht, cell_insert. destruct (decide (fd = fd)); [lia | contradiction]. }
    destruct Hrel as [(Hz & Hf & Htr) | (Hnz & Hf & Htr)].
    + right. exists f. split; [exact Htr|]. split; [lia|].
      split; [rewrite Hf; apply lookup_delete_eq|]. split.
      * rewrite (Hal f ltac:(lia)), Z.eqb_refl.
        pose proof (aliases_pos s f fd ltac:(lia) Hcell).
        destruct (f =? p); lia.
      * intros g Hg Hlive. rewrite Hf, lookup_delete_ne; [exact Hlive | congruence].
    + left. split; [exact Htr|]. intros g Hlive. rewrite Hf, lookup_insert.
      destruct (decide (f = g)); eauto.
Qed.

(** ** What [dup2] does *)

(** A pending increment for something that is not an open file counts for
    nothing. *)
Lemma table_inv_pending (exact : bool) (p p' : Z) (s : state) :
  files s !! p = None -> files s !! p' = None ->
  table_inv exact p s -> table_inv exact p' s.
Proof.
  intros Hp Hp' (H0 & Hc & Hh & Hn).
  repeat (split; [assumption|]).
  intros g go Hg. specialize (Hn g go Hg).
  destruct (Z.eqb_spec g p) as [->|_]; [congruence|].
  destruct (Z.eqb_spec g p') as [->|_]; [congruence|]. exact Hn.
Qed.

Lemma sentinel_not_open (s : state) (p : Z) :
  handles_ok s -> p <= 2 -> files s !! p = None.
Proof.
  intros Hh Hp. destruct (files s !! p) as [fo|] eqn:E; [|reflexivity].
  specialize (Hh p fo E). lia.
Qed.

(** The first half of [dup2]: the counter of the resource [oldfd] refers to
    goes up by one. *)
Lemma dup2_increment (exact : bool) (f : Z) (s : state) :
  table_inv exact 0 s ->
  (exists i, 0 <= i < FDCOUNT_LIMIT /\ cell (fdTable s) i = f) -> f <> 0 ->
  exists s1,
    (if f =? 1
     then Done tt (set_stdin_count (stdin_count s + 1) s)
     else if f =? 2
     then Done tt (set_stdout_count (stdout_count s + 1) s)
     else match files s !! f with
          | None => Fault
          | Some fo => Done tt (set_files (<[f := mkFile (dupCount fo + 1)]> (files s)) s)
          end) = Done tt s1 /\
    table_inv exact f s1 /\ fdIdx s1 = fdIdx s /\ fdTable s1 = fdTable s /\
    trace s1 = trace s /\
    (2 < f -> is_Some (files s1 !! f)) /\
    (forall g, is_Some (files s !! g) -> is_Some (files s1 !! g)).
Proof.
  intros Hinv (i & Hi & Hci) Hf0. pose proof Hinv as (H0 & Hc & Hh & Hn).
  destruct (Hc i Hi) as [Hnn Hlive]. rewrite Hci in Hnn, Hlive.
  assert (Hz : files s !! 0 = None) by (apply sentinel_not_open; [assumption | lia]).
  destruct (Z.eqb_spec f 1) as [E1|E1].
  { eexists. split; [reflexivity|]. split.
    - apply (table_inv_ext exact f s); try reflexivity; try (cbn; lia).
      apply (table_inv_pending exact 0 f); auto.
      apply sentinel_not_open; [assumption | lia].
    - repeat split; intros; first [lia | assumption]. }
  destruct (Z.eqb_spec f 2) as [E2|E2].
  { eexists. split; [reflexivity|]. split.
    - apply (table_inv_ext exact f s); try reflexivity; try (cbn; lia).
      apply (table_inv_pending exact 0 f); auto.
      apply sentinel_not_open; [assumption | lia].
    - repeat split; intros; first [lia | assumption]. }
  destruct (Hlive ltac:(lia)) as [fo Hfo]. rewrite Hfo.
  eexists. split; [reflexivity|]. cbn [fdIdx fdTable files trace set_files].
  split; [|repeat split; try reflexivity; intros;
           rewrite lookup_insert; destruct (decide _); eauto].
  split; [exact H0|]. split.
  { intros j Hj. cbn. destruct (Hc j Hj) as [A B]. split; [exact A|].
    intros Hgt. rewrite lookup_insert. destruct (decide (f = cell (fdTable s) j)); eauto. }
  split.
  { intros g go Hg. cbn in Hg. rewrite lookup_insert in Hg.
    destruct (decide (f = g)) as [<-|_]; [lia | eapply Hh; eauto]. }
  intros g go Hg. cbn in Hg. rewrite lookup_insert in Hg.
  change (aliases (set_files (<[f:=mkFile (dupCount fo + 1)]> (files s)) s) g)
    with (aliases s g).
  destruct (decide (f = g)) as [<-|Hne].
  - injection Hg as <-. cbn [dupCount]. rewrite Z.eqb_refl.
    specialize (Hn f fo Hfo). destruct (Z.eqb_spec f 0); [lia|]. destruct exact; lia.
  - specialize (Hn g go Hg). pose proof (Hh g go Hg).
    destruct (Z.eqb_spec g 0); [lia|]. destruct (Z.eqb_spec g f); [congruence|]. exact Hn.
Qed.

(** [dup2] on a resolved [oldfd] and a different [newfd] inside the table
    returns [newfd], with slot [newfd] pointing where [oldfd] points and the
    invariants kept: the counting with [<=] in every case, and the counting
    with [=] when the target is not descriptor 0 or 1 holding an open file. *)
Lemma dup2_effect (exact : bool) (oldfd newfd : Z) (s : state) :
  table_inv exact 0 s ->
  get oldfd s <> 0 -> oldfd <> newfd -> 0 <= newfd < FDCOUNT_LIMIT ->
  (exact = true -> 2 <= newfd \/ cell (fdTable s) newfd <= 2) ->
  exists s',
    sys_dup2 oldfd newfd s = Done newfd s' /\ table_inv exact 0 s' /\
    fdIdx s' = fdIdx s /\
    fdTable s' = <[newfd := get oldfd s]> (fdTable s) /\
    (2 < get oldfd s -> is_Some (files s' !! get oldfd s)) /\
    released_at_most_one s s'.
Proof.
  intros Hinv Hold Hne Hnew Hstd.
  destruct (get_in_range oldfd s Hold) as [Hro Hgo].
  set (f := get oldfd s) in *.
  destruct (dup2_increment exact f s Hinv)
    as (s1 & Hinc & Hinv1 & Hidx1 & Ht1 & Htr1 & Hlive1 & Hkeep1);
    [exists oldfd; auto | exact Hold |].
  destruct (close_inv exact f newfd s1 Hinv1)
    as (s2 & Hclose & Hinv2 & Hidx2 & Hlive2 & Ht2 & Hlow2 & Hrel2).
  unfold dup2. fold f.
  destruct (Z.eqb_spec f 0); [contradiction|].
  destruct (Z.eqb_spec oldfd newfd); [contradiction|].
  rewrite Hinc. cbn [bind]. rewrite Hclose. cbn [bind].
  eexists. split; [reflexivity|].
  destruct Hinv2 as (I0 & Ic & Ih & In').
  pose proof Hinv as (_ & Hc & _).
  destruct (Hc oldfd Hro) as [Hfnn _]. rewrite <- Hgo in Hfnn.
  assert (Hal : forall g, aliases (set_fdTable (<[newfd:=f]> (fdTable s2)) s2) g
                = aliases s2 g + (if f =? g then 1 else 0)
                  - (if cell (fdTable s2) newfd =? g then 1 else 0)).
  { intros g. apply aliases_insert. exact Hnew. }
  split; [|split; [cbn; congruence|split; [|split]]].
  - split; [exact I0|]. split.
    { intros i Hi. cbn. rewrite cell_insert. destruct (decide (newfd = i)).
      - split; [exact Hfnn|]. intros Hgt. apply Hlive2, Hlive1, Hgt.
      - apply Ic, Hi. }
    split; [exact Ih|].
    intros g go Hg. cbn [files set_fdTable] in Hg. rewrite Hal.
    specialize (In' g go Hg). pose proof (Ih g go Hg) as Hg2.
    destruct (Z.eqb_spec g 0); [lia|].
    replace (g =? f) with (f =? g) in In' by apply Z.eqb_sym.
    destruct exact.
    + assert (Hlow : cell (fdTable s2) newfd <= 2).
      { apply (Hlow2 Hnew). rewrite Ht1. now apply Hstd. }
      destruct (Z.eqb_spec (cell (fdTable s2) newfd) g); lia.
    + destruct (cell (fdTable s2) newfd =? g); lia.
  - cbn. destruct Ht2 as [-> | [_ ->]]; rewrite Ht1; [reflexivity|].
    apply insert_insert_eq.
  - intros Hgt. cbn. apply Hlive2, Hlive1, Hgt.
  - destruct Hrel2 as [(Htr2 & Hkeep2) | (fr & Htr2 & Hfr & Hgone & Hnone & Hkeep2)].
    + left. cbn. split; [congruence|]. intros g Hg. apply Hkeep2, Hkeep1, Hg.
    + right. exists fr. cbn [trace files set_fdTable].
      split; [congruence|]. split; [exact Hfr|]. split; [exact Hgone|]. split.
      * rewrite Hal, Hnone.
        pose proof (aliases_nonneg (set_fdTable (<[newfd:=f]> (fdTable s2)) s2) fr) as Hnn.
        rewrite Hal, Hnone in Hnn.
        destruct (Z.eqb_spec f fr) as [E|_].
        -- exfalso. destruct (Hlive2 (Hlive1 ltac:(lia))) as [fo Hfo]. congruence.
        -- destruct (cell (fdTable s2) newfd =? fr); lia.
      * intros g Hg Hlive. apply Hkeep2; [exact Hg|]. apply Hkeep1, Hlive.
Qed.

(** ** What [open] does *)

Lemma process_add_file_cases (f : Z) (s : state) :
  (exists j,
     fdIdx s <= j < FDCOUNT_LIMIT /\
     (forall i, fdIdx s <= i < j -> cell (fdTable s) i <> 0) /\
     cell (fdTable s) j = 0 /\
     process_add_file FDCOUNT_LIMIT f s
       = (j, set_fdTable (<[j := f]> (fdTable s)) (set_fdIdx j s)))
  \/
  ((forall i, fdIdx s <= i < FDCOUNT_LIMIT -> cell (fdTable s) i <> 0) /\
   process_add_file FDCOUNT_LIMIT f s
     = (-1, set_fdIdx (Z.max (fdIdx s) FDCOUNT_LIMIT) s)).
Proof.
  destruct (scan_fd_spec (Z.to_nat (FDCOUNT_LIMIT - fdIdx s)) (fdTable s) (fdIdx s))
    as (H1 & H2 & H3); [lia|].
  set (r := scan_fd _ _ _ _) in *.
  destruct (Z_lt_ge_dec r FDCOUNT_LIMIT) as [Hlt|Hge].
  - left. exists r.
    assert (Hocc : forall i, fdIdx s <= i < r -> cell (fdTable s) i <> 0)
      by (intros i Hi; apply H2, Hi).
    repeat split; try lia; auto. apply process_add_file_found; auto; lia.
  - right.
    assert (Hocc : forall i, fdIdx s <= i < FDCOUNT_LIMIT -> cell (fdTable s) i <> 0)
      by (intros i Hi; apply H2; lia).
    split; [exact Hocc|]. now apply process_add_file_full.
Qed.

(** [open] with a name that passes [check_address]: it returns -1 and
    leaves table and heap as they were when [filesys_open] failed or no slot
    from the mark on is empty (the new object is closed again); otherwise it
    returns the first empty slot from the mark on, which now holds the new
    object with alias count 0. *)
Lemma open_effect (exact : bool) (name h : Z) (s : state) :
  table_inv exact 0 s ->
  h = 0 \/ (2 < h /\ files s !! h = None) ->
  valid_uaddr name = true ->
  exists fd s',
    sys_open name h s = Done fd s' /\ table_inv exact 0 s' /\
    fdIdx s <= fdIdx s' /\
    ((fd = -1 /\ fdTable s' = fdTable s /\ files s' = files s /\
      ((h = 0 /\ trace s' = trace s) \/
       (h <> 0 /\
        (forall i, fdIdx s <= i < FDCOUNT_LIMIT -> cell (fdTable s) i <> 0) /\
        trace s' = trace s ++ [EvFileClose h])))
     \/
     (fdIdx s <= fd < FDCOUNT_LIMIT /\ h <> 0 /\
      (forall i, fdIdx s <= i < fd -> cell (fdTable s) i <> 0) /\
      cell (fdTable s) fd = 0 /\
      fdTable s' = <[fd := h]> (fdTable s) /\
      files s' = <[h := mkFile 0]> (files s) /\
      fdIdx s' = fd /\ trace s' = trace s)).
Proof.
  intros Hinv Hh Hname. pose proof Hinv as (H0 & Hc & Hhd & Hn).
  unfold open. rewrite (check_address_valid name s Hname). cbn [bind].
  destruct (Z.eqb_spec h 0) as [E0|E0].
  { exists (-1), s. split; [reflexivity|]. split; [exact Hinv|]. split; [lia|].
    left. auto 10. }
  destruct Hh as [?|[Hh2 Hfresh]]; [contradiction|].
  set (s1 := set_files (<[h:=mkFile 0]> (files s)) s).
  destruct (process_add_file_cases h s1) as [(j & Hj & Hocc & Hfree & Hadd) | (Hfull & Hadd)];
    rewrite Hadd; cbn [fdIdx fdTable s1 set_files] in *.
  - destruct (Z.eqb_spec j (-1)); [lia|].
    eexists j, _. split; [reflexivity|].
    assert (Hnoalias : aliases s h = 0).
    { apply aliases_zero. intros i Hi Hci. destruct (Hc i Hi) as [_ Hlive].
      rewrite Hci in Hlive. destruct (Hlive Hh2) as [fo Hfo]. congruence. }
    assert (Hal : forall g, aliases (set_fdTable (<[j:=h]> (fdTable s)) (set_fdIdx j s1)) g
              = aliases s g + (if h =? g then 1 else 0) - (if 0 =? g then 1 else 0)).
    { intros g. pose proof (aliases_insert (set_fdIdx j s1) j h g ltac:(lia)) as Hins.
      cbn [fdTable set_fdIdx s1 set_files] in Hins. rewrite Hfree in Hins. exact Hins. }
    split; [|split; [cbn; lia|right; cbn; repeat split; auto; lia]].
    split; [cbn; lia|]. split.
    { intros i Hi. cbn. rewrite cell_insert. destruct (decide (j = i)).
      - split; [lia|]. intros _. rewrite lookup_insert_eq. eauto.
      - destruct (Hc i Hi) as [A B]. split; [exact A|]. intros Hgt.
        rewrite lookup_insert. destruct (decide (h = cell (fdTable s) i)); eauto. }
    split.
    { intros g go Hg. cbn in Hg. rewrite lookup_insert in Hg.
      destruct (decide (h = g)) as [<-|_]; [lia | eapply Hhd; eauto]. }
    intros g go Hg. rewrite Hal. cbn in Hg. rewrite lookup_insert in Hg.
    destruct (decide (h = g)) as [<-|Hne].
    + injection Hg as <-. cbn [dupCount]. rewrite Hnoalias, Z.eqb_refl.
      destruct (Z.eqb_spec 0 h); [lia|]. destruct (Z.eqb_spec h 0); [lia|].
      destruct exact; lia.
    + specialize (Hn g go Hg). pose proof (Hhd g go Hg).
      destruct (Z.eqb_spec h g); [contradiction|].
      destruct (Z.eqb_spec 0 g); [lia|]. rewrite Z.add_0_r, Z.sub_0_r. exact Hn.
  - change (-1 =? -1) with true. cbn iota.
    eexists (-1), _. split; [reflexivity|].
    assert (Hfiles : delete h (<[h:=mkFile 0]> (files s)) = files s).
    { rewrite delete_insert_eq. now apply delete_id. }
    split; [|split; [cbn; lia|left; cbn; rewrite Hfiles; auto 10]].
    apply (table_inv_ext exact 0 s); cbn; auto; lia.
Qed.

(** ** Stores inside the table *)

(** [process_close_file] and [process_add_file] check the index against
    [FDCOUNT_LIMIT] before they store: cells outside the table are left as
    they are. *)
Lemma process_close_file_in_range (fd i : Z) (s : state) :
  ~ (0 <= i < FDCOUNT_LIMIT) ->
  fdTable (process_close_file FDCOUNT_LIMIT fd s) !! i = fdTable s !! i.
Proof.
  intros Hi. unfold process_close_file.
  destruct (Z.ltb_spec fd 0), (Z.geb_spec fd FDCOUNT_LIMIT); cbn; try reflexivity.
  apply lookup_insert_ne. lia.
Qed.

Lemma process_add_file_in_range (f i : Z) (s : state) :
  0 <= fdIdx s -> ~ (0 <= i < FDCOUNT_LIMIT) ->
  fdTable (process_add_file FDCOUNT_LIMIT f s).2 !! i = fdTable s !! i.
Proof.
  intros Hidx Hi.
  destruct (process_add_file_cases f s) as [(j & Hj & _ & _ & ->) | (_ & ->)]; cbn.
  - apply lookup_insert_ne. lia.
  - reflexivity.
Qed.

(** ** The mark and a full table *)

Lemma close_mark (fd : Z) (s s' : state) :
  sys_close fd s = Done tt s' -> fdIdx s' = fdIdx s.
Proof.
  unfold close, process_close_file.
  repeat match goal with
         | |- context [if ?b then _ else _] => destruct b
         | |- context [match ?o with Some _ => _ | None => _ end] => destruct o
         end; cbn; intros Hrun; try discriminate Hrun; injection Hrun as <-; reflexivity.
Qed.

(** No call moves the mark down. *)
Lemma run_mark (c : call) (s : state) (v : Z) (s' : state) :
  run c s = Done v s' -> fdIdx s <= fdIdx s'.
Proof.
  destruct c as [name h | fd | oldfd newfd]; cbn [run].
  - unfold open, check_address, exit.
    destruct (_ || _); cbn [bind]; [discriminate|].
    destruct (h =? 0); [intros H; injection H as _ <-; lia|].
    pose proof (process_add_file_mark h (set_files (<[h:=mkFile 0]> (files s)) s)) as Hm.
    destruct (process_add_file _ _ _) as [fd s1]. cbn in Hm.
    destruct (fd =? -1); intros H; injection H as _ <-; cbn; lia.
  - destruct (sys_close fd s) as [[] s1| | | |] eqn:E; cbn [bind]; try discriminate.
    intros H; injection H as _ <-. rewrite (close_mark fd s s1 E). lia.
  - unfold dup2.
    destruct (_ =? 0); [intros H; injection H as _ <-; lia|].
    destruct (oldfd =? newfd); [intros H; injection H as _ <-; lia|].
    match goal with |- bind ?m _ = _ -> _ => destruct m as [[] s1| | | |] eqn:E1 end;
      cbn [bind]; try discriminate.
    assert (Hs1 : fdIdx s1 = fdIdx s).
    { revert E1. repeat match goal with
         | |- context [if ?b then _ else _] => destruct b
         | |- context [match ?o with Some _ => _ | None => _ end] => destruct o
         end; intros Hrun; try discriminate Hrun; injection Hrun as <-; reflexivity. }
    destruct (sys_close newfd s1) as [[] s2| | | |] eqn:E2; cbn [bind]; try discriminate.
    intros Hrun; injection Hrun as _ <-. cbn. rewrite (close_mark newfd s1 s2 E2). lia.
Qed.

(** Opening as many files as there are empty slots from [j] on, when the
    slots between the mark and [j] are taken: the descriptors come out in
    order and no slot from the mark on is left empty. *)
Lemma open_all_fills (l : list (Z * Z)) (s : state) (j : Z) :
  0 <= fdIdx s <= j -> j <= FDCOUNT_LIMIT ->
  (forall i, fdIdx s <= i < j -> cell (fdTable s) i <> 0) ->
  (forall i, j <= i < FDCOUNT_LIMIT -> cell (fdTable s) i = 0) ->
  Z.of_nat (length l) = FDCOUNT_LIMIT - j ->
  Forall (fun nh : Z * Z => valid_uaddr nh.1 = true /\ nh.2 <> 0) l ->
  exists s',
    open_all l s = Done (seqZ j (FDCOUNT_LIMIT - j)) s' /\
    0 <= fdIdx s' /\
    (forall i, fdIdx s' <= i < FDCOUNT_LIMIT -> cell (fdTable s') i <> 0).
Proof.
  revert s j. induction l as [|[name h] l IH]; intros s j Hj Hlim Hocc Hfree Hlen Hall.
  - cbn in Hlen. assert (j = FDCOUNT_LIMIT) as -> by lia.
    exists s. rewrite Z.sub_diag. cbn. split; [reflexivity|]. split; [lia|].
    exact Hocc.
  - cbn [length] in Hlen. apply Forall_cons in Hall as [[Hname Hh] Hall].
    cbn [fst snd] in Hname, Hh.
    set (s1 := set_files (<[h:=mkFile 0]> (files s)) s).
    assert (Hadd : process_add_file FDCOUNT_LIMIT h s1
                   = (j, set_fdTable (<[j := h]> (fdTable s1)) (set_fdIdx j s1))).
    { apply process_add_file_found; cbn; auto; [lia | apply Hfree; lia]. }
    set (s2 := set_fdTable (<[j := h]> (fdTable s1)) (set_fdIdx j s1)) in *.
    assert (Hopen : sys_open name h s = Done j s2).
    { unfold open. rewrite (check_address_valid name s Hname). cbn [bind].
      destruct (Z.eqb_spec h 0); [contradiction|]. fold s1. rewrite Hadd.
      destruct (Z.eqb_spec j (-1)); [lia | reflexivity]. }
    destruct (IH s2 (j + 1)) as (s' & Hrun & Hidx & Hfull'); cbn; try lia; auto.
    + intros i Hi. rewrite cell_insert. destruct (decide (j = i)); [exact Hh | lia].
    + intros i Hi. rewrite cell_insert. destruct (decide (j = i)); [lia | apply Hfree; lia].
    + exists s'. split; [|split; assumption].
      cbn [open_all]. rewrite Hopen. cbn [bind]. rewrite Hrun. cbn [bind].
      rewrite (seqZ_cons j) by lia. do 3 f_equal; lia.
Qed.

(** [open] on a table without an empty slot from the mark on. *)
Lemma open_full (name h : Z) (s : state) :
  valid_uaddr name = true -> h <> 0 ->
  (forall i, fdIdx s <= i < FDCOUNT_LIMIT -> cell (fdTable s) i <> 0) ->
  exists s',
    sys_open name h s = Done (-1) s' /\ fdTable s' = fdTable s /\
    trace s' = trace s ++ [EvFileClose h].
Proof.
  intros Hname Hh Hfull.
  unfold open. rewrite (check_address_valid name s Hname). cbn [bind].
  destruct (Z.eqb_spec h 0); [contradiction|].
  rewrite process_add_file_full by exact Hfull.
  change (-1 =? -1) with true. cbn iota.
  eexists. split; [reflexivity|]. split; reflexivity.
Qed.

(** C6.  From a state with a non-negative mark, [process_add_file]
    - stores the handle in the first empty slot [j] at or above the mark,
      returns [j], and leaves the mark at [j];
    - returns -1 and leaves the table alone when no slot from the mark up to
      [FDCOUNT_LIMIT] is empty;
    - never moves the mark down, and neither does any other call: [close]
      leaves it where it is, so that an [add] after a [close] returns -1 or a
      descriptor at or above the mark and not a slot that was closed below it.
    In a table whose slots from the mark 2 on are empty, opening
    [FDCOUNT_LIMIT - 2] files gives the descriptors 2, 3, ... in order, and
    one more [open] returns -1. *)
Theorem add_scans_upward_from_mark (f : Z) (s : state) :
  0 <= fdIdx s ->
  (forall j,
     fdIdx s <= j < FDCOUNT_LIMIT ->
     (forall i, fdIdx s <= i < j -> cell (fdTable s) i <> 0) ->
     cell (fdTable s) j = 0 ->
     process_add_file FDCOUNT_LIMIT f s
       = (j, set_fdTable (<[j := f]> (fdTable s)) (set_fdIdx j s)) /\
     get j (process_add_file FDCOUNT_LIMIT f s).2 = f) /\
  ((forall i, fdIdx s <= i < FDCOUNT_LIMIT -> cell (fdTable s) i <> 0) ->
     (process_add_file FDCOUNT_LIMIT f s).1 = -1 /\
     fdTable (process_add_file FDCOUNT_LIMIT f s).2 = fdTable s) /\
  fdIdx s <= fdIdx (process_add_file FDCOUNT_LIMIT f s).2 /\
  (forall c v s', run c s = Done v s' -> fdIdx s <= fdIdx s') /\
  (forall fd s' g,
     sys_close fd s = Done tt s' ->
     fdIdx s' = fdIdx s /\
     ((process_add_file FDCOUNT_LIMIT g s').1 = -1 \/
      fdIdx s <= (process_add_file FDCOUNT_LIMIT g s').1)) /\
  (forall l,
     fdIdx s = 2 ->
     (forall i, 2 <= i < FDCOUNT_LIMIT -> cell (fdTable s) i = 0) ->
     2 <= FDCOUNT_LIMIT ->
     Z.of_nat (length l) = FDCOUNT_LIMIT - 2 ->
     Forall (fun nh : Z * Z => valid_uaddr nh.1 = true /\ nh.2 <> 0) l ->
     exists s',
       open_all l s = Done (seqZ 2 (FDCOUNT_LIMIT - 2)) s' /\
       forall name h, valid_uaddr name = true -> h <> 0 ->
         exists s'', sys_open name h s' = Done (-1) s'' /\ fdTable s'' = fdTable s').
Proof.
  intros Hidx. split; [|split; [|split; [|split; [|split]]]].
  - intros j Hj Hocc Hfree.
    rewrite (process_add_file_found f j s Hj Hocc Hfree). split; [reflexivity|].
    cbn [snd]. rewrite get_cell by lia. cbn. rewrite cell_insert.
    destruct (decide (j = j)); [reflexivity | contradiction].
  - intros Hfull. rewrite (process_add_file_full f s Hfull). split; reflexivity.
  - apply process_add_file_mark.
  - intros c v s'. apply run_mark.
  - intros fd s' g Hclose. pose proof (close_mark fd s s' Hclose) as Hm.
    split; [exact Hm|].
    destruct (process_add_file_cases g s') as [(j & Hj & _ & _ & ->) | (_ & ->)]; cbn [fst].
    + right. lia.
    + left. reflexivity.
  - intros l Hmark Hfree Hlim Hlen Hall.
    destruct (open_all_fills l s 2) as (s' & Hrun & Hidx' & Hfull); auto; try lia.
    exists s'. split; [exact Hrun|]. intros name h Hname Hh.
    destruct (open_full name h s' Hname Hh Hfull) as (s'' & Ho & Ht & _). eauto.
Qed.

(** ** The invariants, call by call *)

Lemma table_inv_bound_iff (s : state) :
  table_inv false 0 s <-> well_formed s /\ alias_count_bound s.
Proof.
  unfold table_inv, well_formed, counted, alias_count_bound. split.
  - intros (H0 & Hc & Hh & Hn). split; [auto|].
    intros f fo Hf. specialize (Hn f fo Hf). pose proof (Hh f fo Hf).
    destruct (Z.eqb_spec f 0); lia.
  - intros ((H0 & Hc & Hh) & Hn).
    split; [exact H0|]. split; [exact Hc|]. split; [exact Hh|].
    intros f fo Hf. specialize (Hn f fo Hf). pose proof (Hh f fo Hf).
    destruct (Z.eqb_spec f 0); lia.
Qed.

Lemma table_inv_exact_iff (s : state) :
  table_inv true 0 s <-> well_formed s /\ alias_count_exact s.
Proof.
  unfold table_inv, well_formed, counted, alias_count_exact. split.
  - intros (H0 & Hc & Hh & Hn). split; [auto|].
    intros f fo Hf. specialize (Hn f fo Hf). pose proof (Hh f fo Hf).
    destruct (Z.eqb_spec f 0); lia.
  - intros ((H0 & Hc & Hh) & Hn).
    split; [exact H0|]. split; [exact Hc|]. split; [exact Hh|].
    intros f fo Hf. specialize (Hn f fo Hf). pose proof (Hh f fo Hf).
    destruct (Z.eqb_spec f 0); lia.
Qed.

Lemma table_inv_weaken (p : Z) (s : state) : table_inv true p s -> table_inv false p s.
Proof.
  intros (H0 & Hc & Hh & Hn).
  split; [exact H0|]. split; [exact Hc|]. split; [exact Hh|].
  intros f fo Hf. specialize (Hn f fo Hf). cbn in *. lia.
Qed.

Lemma released_refl (s : state) : released_at_most_one s s.
Proof. left. auto. Qed.

(** Every admissible call returns, or ends the process in [open] with a
    rejected name; it keeps the invariant and releases at most one file. *)
Lemma run_effect (exact : bool) (c : call) (s : state) :
  table_inv exact 0 s -> admissible s c ->
  (exact = true -> spares_low_files s c) ->
  (exists v s',
     run c s = Done v s' /\ table_inv exact 0 s' /\ released_at_most_one s s')
  \/ (exists s', run c s = Exit s' /\ table_inv exact 0 s').
Proof.
  intros Hinv Hadm Hstd. destruct c as [name h | fd | oldfd newfd]; cbn [run admissible spares_low_files] in *.
  - destruct (valid_uaddr name) eqn:Hname.
    + left. destruct (open_effect exact name h s Hinv Hadm Hname)
        as (fd & s' & Hrun & Hinv' & _ & Hcase).
      exists fd, s'. split; [exact Hrun|]. split; [exact Hinv'|].
      destruct Hcase as [(_ & Ht & Hf & [(_ & Htr) | (Hh & _ & Htr)])
                        | (_ & _ & _ & _ & _ & Hf & _ & Htr)].
      * left. split; [exact Htr | now rewrite Hf].
      * destruct Hadm as [?|[Hh2 Hfresh]]; [contradiction|].
        right. exists h. split; [exact Htr|]. split; [exact Hh2|].
        split; [now rewrite Hf|]. split; [|intros g _; now rewrite Hf].
        apply aliases_zero. rewrite Ht. intros i Hi Hci.
        destruct Hinv as (_ & Hc & _). destruct (Hc i Hi) as [_ Hlive].
        rewrite Hci in Hlive. destruct (Hlive Hh2) as [fo Hfo]. congruence.
      * left. split; [exact Htr|]. intros g Hg. rewrite Hf, lookup_insert.
        destruct (decide (h = g)); eauto.
    + right. unfold open, check_address. unfold valid_uaddr in Hname.
      apply negb_false_iff in Hname. rewrite Hname. cbn [bind exit].
      eexists. split; [reflexivity|].
      apply (table_inv_ext exact 0 s); cbn; auto; lia.
  - left. destruct (close_inv exact 0 fd s Hinv) as (s' & Hrun & Hinv' & _ & _ & _ & _ & Hrel).
    exists 0, s'. rewrite Hrun. cbn [bind]. auto.
  - left.
    destruct (Z.eq_dec (get oldfd s) 0) as [E0|E0].
    { exists (-1), s. split; [|split; [exact Hinv | apply released_refl]].
      unfold dup2. rewrite E0. reflexivity. }
    destruct (Z.eq_dec oldfd newfd) as [E|E].
    { exists newfd, s. split; [|split; [exact Hinv | apply released_refl]].
      unfold dup2. destruct (Z.eqb_spec (get oldfd s) 0); [contradiction|].
      destruct (Z.eqb_spec oldfd newfd); [reflexivity | contradiction]. }
    destruct Hadm as [?|Hnew]; [contradiction|].
    destruct (dup2_effect exact oldfd newfd s Hinv E0 E Hnew)
      as (s' & Hrun & Hinv' & _ & _ & _ & Hrel).
    { intros He. destruct (Hstd He) as [?|[?|[?|Hlow]]];
        [contradiction | contradiction | now left |].
      right. now rewrite <- (get_cell newfd s Hnew). }
    exists newfd, s'. auto.
Qed.

(** The invariant holds in every state reached by admissible calls. *)
Lemma reachable_inv (exact : bool) (ok : state -> call -> Prop) (s0 s : state) :
  (forall s c, ok s c -> admissible s c /\ (exact = true -> spares_low_files s c)) ->
  table_inv exact 0 s0 -> reachable ok s0 s -> table_inv exact 0 s.
Proof.
  intros Hok H0 Hreach. induction Hreach as [|s c v s' _ IH Hc Hrun]; [exact H0|].
  destruct (Hok s c Hc) as [Hadm Hstd].
  destruct (run_effect exact c s IH Hadm Hstd)
    as [(v' & s'' & Hrun' & Hinv' & _) | (s'' & Hrun' & _)]; rewrite Hrun in Hrun'.
  - injection Hrun' as _ <-. exact Hinv'.
  - discriminate Hrun'.
Qed.

(** Fewer conditions on the calls, more states reached. *)
Lemma reachable_weaken (ok ok' : state -> call -> Prop) (s0 s : state) :
  (forall s c, ok s c -> ok' s c) -> reachable ok s0 s -> reachable ok' s0 s.
Proof.
  intros Hok Hreach. induction Hreach as [|s c v s' _ IH Hc Hrun].
  - apply reach_start.
  - apply (reach_call ok' s0 s c v s' IH (Hok s c Hc) Hrun).
Qed.

(** After [dup2 (a, b)] both descriptors resolve to what [a] resolved to, and
    closing [b] leaves [a] as it is: the resource stays open and
    [file_close] is not called. *)
Lemma dup2_then_close (a b : Z) (s : state) :
  table_inv false 0 s ->
  a <> b -> get a s <> 0 -> 0 <= b < FDCOUNT_LIMIT ->
  exists s1,
    sys_dup2 a b s = Done b s1 /\
    get a s1 = get a s /\ get b s1 = get a s /\
    exists s2,
      sys_close b s1 = Done tt s2 /\
      get a s2 = get a s /\
      (2 < get a s -> is_Some (files s2 !! get a s)) /\
      trace s2 = trace s1.
Proof.
  intros Hinv Hne Ha Hb.
  destruct (get_in_range a s Ha) as [Hra Hga].
  destruct (dup2_effect false a b s Hinv Ha Hne Hb ltac:(discriminate))
    as (s1 & Hrun & Hinv1 & _ & Ht1 & Hlive1 & _).
  set (f := get a s) in *.
  assert (Hca : cell (fdTable s1) a = f).
  { rewrite Ht1, cell_insert. destruct (decide (b = a)); congruence. }
  assert (Hcb : cell (fdTable s1) b = f).
  { rewrite Ht1, cell_insert. destruct (decide (b = b)); congruence. }
  exists s1. split; [exact Hrun|].
  split; [rewrite get_cell by lia; exact Hca|].
  split; [rewrite get_cell by lia; exact Hcb|].
  pose proof Hinv1 as (_ & Hc1 & _ & Hn1).
  destruct (close_effect b s1 Hc1) as (s2 & Hclose & _ & Heff).
  exists s2. split; [exact Hclose|].
  destruct Heff as [(Ht & Hf & Htr & _) | (Hfd & Hreal & Ht & _ & _ & fo & Hfo & Hrel)].
  - split; [rewrite get_cell by lia; rewrite Ht; exact Hca|].
    split; [rewrite Hf; exact Hlive1 | exact Htr].
  - rewrite (get_cell b s1 Hb), Hcb in Hfo, Hrel, Hreal.
    pose proof (counted_le false 0 s1 f fo Hn1 Hfo) as Hle.
    pose proof (aliases_two s1 f a b Hra Hb Hne Ha Hca Hcb) as H2.
    destruct (Z.eqb_spec f 0); [contradiction|].
    destruct Hrel as [(Hz & _) | (Hnz & Hf & Htr)]; [lia|].
    split.
    { rewrite get_cell by lia. rewrite Ht, cell_insert.
      destruct (decide (b = a)); congruence. }
    split; [|exact Htr].
    intros _. rewrite Hf, lookup_insert_eq. eauto.
Qed.

(** Where the alias count is exact, closing a descriptor from 2 on that
    holds an open file releases the file if and only if it was the only slot
    pointing at it. *)
Lemma close_last_alias (fd : Z) (s : state) :
  table_inv true 0 s -> 2 <= fd -> 2 < get fd s ->
  exists s',
    sys_close fd s = Done tt s' /\
    ((aliases s (get fd s) = 1 /\
      trace s' = trace s ++ [EvFileClose (get fd s)] /\
      files s' !! get fd s = None)
     \/
     (1 < aliases s (get fd s) /\ trace s' = trace s /\
      is_Some (files s' !! get fd s))).
Proof.
  intros Hinv Hfd Hreal. pose proof Hinv as (_ & Hc & Hh & Hn).
  destruct (get_in_range fd s ltac:(lia)) as [Hr Hg].
  destruct (close_effect fd s Hc) as (s' & Hclose & _ & Heff).
  exists s'. split; [exact Hclose|].
  destruct Heff as [(_ & _ & _ & Hwhy & _) | (_ & _ & Ht & _ & _ & fo & Hfo & Hrel)].
  - exfalso. destruct Hwhy as [E|[E|E]]; lia.
  - specialize (Hn _ _ Hfo). cbn in Hn.
    destruct (Z.eqb_spec (get fd s) 0); [lia|].
    destruct Hrel as [(Hz & Hf & Htr) | (Hnz & Hf & Htr)].
    + left. split; [lia|]. split; [exact Htr|]. rewrite Hf. apply lookup_delete_eq.
    + right. pose proof (aliases_pos s (get fd s) fd Hr (eq_sym Hg)).
      split; [lia|]. split; [exact Htr|]. rewrite Hf, lookup_insert_eq. eauto.
Qed.

(** [close] on descriptor 0 or 1 stores nothing and releases nothing. *)
Lemma close_low (fd : Z) (s : state) :
  cells_ok s -> fd <= 1 ->
  exists s',
    sys_close fd s = Done tt s' /\
    fdTable s' = fdTable s /\ files s' = files s /\ trace s' = trace s.
Proof.
  intros Hc Hfd. destruct (close_effect fd s Hc) as (s' & Hclose & _ & Heff).
  exists s'. split; [exact Hclose|].
  destruct Heff as [(Ht & Hf & Htr & _) | (Hhigh & _)]; [auto | lia].
Qed.

(** A [dup2] onto descriptor 0 or 1 that holds an open file overwrites the
    slot without the decrement of [close]: the alias count of the file that
    was there is one too high afterwards. *)
Lemma dup2_low_overwrite (a b : Z) (s : state) :
  table_inv true 0 s ->
  get a s <> 0 -> a <> b -> b <= 1 -> 2 < get b s ->
  exists s',
    sys_dup2 a b s = Done b s' /\
    exists go, files s' !! get b s = Some go /\ dupCount go = aliases s' (get b s).
Proof.
  intros Hinv Ha Hne Hb Hg.
  destruct (get_in_range a s Ha) as [Hra Hga].
  destruct (get_in_range b s ltac:(lia)) as [Hrb Hgb].
  set (f := get a s) in *. set (g := get b s) in *.
  destruct (dup2_increment true f s Hinv)
    as (s1 & Hinc & Hinv1 & _ & Ht1 & _ & _ & Hkeep1); [exists a; auto | exact Ha |].
  pose proof Hinv1 as (_ & Hc1 & _ & Hn1).
  destruct (close_low b s1 Hc1 Hb) as (s2 & Hclose & Ht2 & Hf2 & _).
  pose proof Hinv as (_ & Hc & _).
  destruct (Hc b Hrb) as [_ Hlive]. rewrite <- Hgb in Hlive.
  destruct (Hkeep1 g (Hlive Hg)) as [go1 Hgo1].
  unfold dup2. fold f.
  destruct (Z.eqb_spec f 0); [contradiction|].
  destruct (Z.eqb_spec a b); [contradiction|].
  rewrite Hinc. cbn [bind]. rewrite Hclose. cbn [bind].
  eexists. split; [reflexivity|]. exists go1.
  cbn [files set_fdTable]. rewrite Hf2. split; [exact Hgo1|].
  rewrite (aliases_insert s2 b f g Hrb).
  assert (Hcell : cell (fdTable s2) b = g) by (rewrite Ht2, Ht1; symmetry; exact Hgb).
  assert (Hsame : aliases s2 g = aliases s1 g) by (unfold aliases; now rewrite Ht2).
  rewrite Hcell, Hsame, Z.eqb_refl.
  specialize (Hn1 g go1 Hgo1). cbn in Hn1.
  rewrite (Z.eqb_sym f g). lia.
Qed.

(** C1, as the code has it.  Let [s] be reached from a well-formed table
    [s0], in which every alias count is at least the number of slots pointing
    at the file minus one, by calls of [open], [close] and [dup2] whose [dup2]
    targets lie inside the table.  Then:
    - the table is well formed in [s] and every alias count is at least the
      number of slots pointing at the file, minus one;
    - every alias count is equal to that number in [s] if it was in [s0] and
      no call on the way was a [dup2] that overwrote an open file sitting on
      descriptor 0 or 1;
    - every further such call returns (or ends the process, in [open] with a
      rejected name), keeps the first property, and calls [file_close] at most
      once, on a file that is then open no more and that no slot points at;
      and when the counts are exact before the call, they are exact after it
      if and only if the call is not a [dup2] that overwrites an open file
      sitting on descriptor 0 or 1;
    - after [dup2 (a, b)] with [a <> b], [a] resolved and [b] inside the
      table, [a] and [b] resolve to what [a] resolved to, and a following
      [close (b)] leaves [a] resolved as before, its file open, and calls no
      [file_close];
    - where the counts are exact, [close] on a descriptor from 2 on that
      holds an open file calls [file_close] on it exactly when it was the last
      slot pointing at the file, and [close] on descriptor 0 or 1 that holds
      an open file leaves the slot, the file and its count as they are and
      calls no [file_close]. *)
Theorem alias_count_bounds_slots (s0 s : state) :
  well_formed s0 -> alias_count_bound s0 ->
  reachable admissible s0 s ->
  (well_formed s /\ alias_count_bound s) /\
  (alias_count_exact s0 ->
   reachable (fun s c => admissible s c /\ spares_low_files s c) s0 s ->
   alias_count_exact s) /\
  (forall c, admissible s c ->
     (exists v s',
        run c s = Done v s' /\
        well_formed s' /\ alias_count_bound s' /\
        released_at_most_one s s' /\
        (alias_count_exact s -> (spares_low_files s c <-> alias_count_exact s')))
     \/ (exists s', run c s = Exit s')) /\
  (forall a b,
     a <> b -> get a s <> 0 -> 0 <= b < FDCOUNT_LIMIT ->
     exists s1,
       sys_dup2 a b s = Done b s1 /\
       get a s1 = get a s /\ get b s1 = get a s /\
       exists s2,
         sys_close b s1 = Done tt s2 /\
         get a s2 = get a s /\
         (2 < get a s -> is_Some (files s2 !! get a s)) /\
         trace s2 = trace s1) /\
  (alias_count_exact s ->
   forall fd, 2 < get fd s ->
     exists s',
       sys_close fd s = Done tt s' /\
       ((fd <= 1 /\
         fdTable s' = fdTable s /\ files s' = files s /\ trace s' = trace s)
        \/
        (2 <= fd /\ aliases s (get fd s) = 1 /\
         trace s' = trace s ++ [EvFileClose (get fd s)] /\
         files s' !! get fd s = None)
        \/
        (2 <= fd /\ 1 < aliases s (get fd s) /\ trace s' = trace s /\
         is_Some (files s' !! get fd s)))).
Proof.
  intros Hwf0 Hb0 Hreach.
  assert (Hinv0 : table_inv false 0 s0) by (apply table_inv_bound_iff; auto).
  assert (Hinv : table_inv false 0 s).
  { apply (reachable_inv false admissible s0 s); auto.
    intros s1 c Hc. split; [exact Hc | discriminate]. }
  pose proof (proj1 (table_inv_bound_iff s) Hinv) as [Hwf Hb].
  split; [auto|]. split; [|split; [|split]].
  - intros He0 Hreach'.
    apply table_inv_exact_iff.
    apply (reachable_inv true (fun s c => admissible s c /\ spares_low_files s c) s0 s); auto.
    + intros s1 c [Ha Hk]. auto.
    + apply table_inv_exact_iff. auto.
  - intros c Hadm.
    destruct (run_effect false c s Hinv Hadm ltac:(discriminate))
      as [(v & s' & Hrun & Hinv' & Hrel) | (s' & Hrun & _)]; [left | right; eauto].
    exists v, s'. apply table_inv_bound_iff in Hinv' as [Hwf' Hb'].
    repeat (split; [assumption|]).
    intros He.
    assert (Hx : table_inv true 0 s) by (apply table_inv_exact_iff; auto).
    split.
    + intros Hk.
      destruct (run_effect true c s Hx Hadm (fun _ => Hk))
        as [(v' & s'' & Hrun' & Hinv'' & _) | (s'' & Hrun' & _)]; rewrite Hrun in Hrun'.
      * injection Hrun' as _ <-. now apply table_inv_exact_iff in Hinv'' as [_ He'].
      * discriminate Hrun'.
    + intros He'. destruct c as [name h | fd | a b]; cbn [spares_low_files]; [exact I | exact I |].
      destruct (Z.eq_dec (get a s) 0) as [|Ha]; [now left|].
      destruct (Z.eq_dec a b) as [|Hne]; [now right; left|].
      destruct (Z_le_gt_dec 2 b) as [|Hlow]; [now right; right; left|].
      destruct (Z_le_gt_dec (get b s) 2) as [|Hopen]; [now right; right; right|].
      exfalso.
      destruct (dup2_low_overwrite a b s Hx Ha Hne ltac:(lia) ltac:(lia))
        as (s'' & Hrun' & go & Hgo & Hcount).
      cbn [run] in Hrun. rewrite Hrun in Hrun'. injection Hrun' as _ <-.
      specialize (He' _ _ Hgo). lia.
  - intros a b Hne Ha Hb'. apply dup2_then_close; auto.
  - intros He fd Hfd.
    assert (Hx : table_inv true 0 s) by (apply table_inv_exact_iff; auto).
    destruct (Z_le_gt_dec fd 1) as [Hlow|Hhigh].
    + destruct Hwf as (_ & Hc & _).
      destruct (close_low fd s Hc Hlow) as (s' & Hclose & Hrest).
      exists s'. split; [exact Hclose|]. left. split; [exact Hlow | exact Hrest].
    + destruct (close_last_alias fd s Hx ltac:(lia) Hfd) as (s' & Hclose & Hcase).
      exists s'. split; [exact Hclose|]. right.
      destruct Hcase as [(H1 & H2 & H3) | (H1 & H2 & H3)]; [left | right];
        (split; [lia|]); auto.
Qed.

(** ** The table of a new process *)

Lemma init_state_cell (i : Z) :
  cell (fdTable init_state) i = if decide (i = 1) then STDOUT else if decide (i = 0) then STDIN else 0.
Proof.
  unfold init_state; cbn [fdTable]. rewrite !cell_insert.
  destruct (decide (1 = i)), (decide (i = 1)); try congruence.
  destruct (decide (0 = i)), (decide (i = 0)); try congruence. reflexivity.
Qed.

Lemma init_state_inv : table_inv true 0 init_state.
Proof.
  split; [cbn; lia|]. split; [|split].
  - intros i Hi. rewrite init_state_cell. unfold STDIN, STDOUT.
    destruct (decide (i = 1)), (decide (i = 0)); split; intros; lia.
  - intros f fo Hf. cbn in Hf. rewrite lookup_empty in Hf. discriminate Hf.
  - intros f fo Hf. cbn in Hf. rewrite lookup_empty in Hf. discriminate Hf.
Qed.

Lemma init_state_well_formed : well_formed init_state /\ alias_count_bound init_state.
Proof. apply table_inv_bound_iff, table_inv_weaken, init_state_inv. Qed.

End Properties.

(** * The file I/O gate on the standard streams *)

Section Gate.

Variable FDCOUNT_LIMIT : Z.
Variable is_user_vaddr : Z -> bool.
Variable pml4_get_page : Z -> Z.
Variable input_getc : nat -> byte.
Variable file_read : Z -> Z -> Z -> state -> option (Z * state).
Variable file_write : Z -> Z -> Z -> state -> option (Z * state).

Local Abbreviation get := (process_get_file FDCOUNT_LIMIT).
Local Abbreviation check := (check_address is_user_vaddr pml4_get_page).
Local Abbreviation sys_read :=
  (read FDCOUNT_LIMIT is_user_vaddr pml4_get_page input_getc file_read).
Local Abbreviation sys_write :=
  (write FDCOUNT_LIMIT is_user_vaddr pml4_get_page file_write).

(** ** Definitions used by the statements *)

(** The number of bytes in front of the first terminator among the [n] bytes
    the console delivers from position [pos] on; [n] if there is none. *)
Fixpoint bytes_before_nul (n pos : nat) : nat :=
  match n with
  | O => O
  | S k =>
      if Byte.eqb (input_getc pos) "000"%byte then O
      else S (bytes_before_nul k (S pos))
  end.

(** The number of bytes [read] takes from the console and stores: the bytes
    in front of the terminator and the terminator, or all [n]. *)
Definition bytes_taken (n pos : nat) : nat :=
  let k := bytes_before_nul n pos in
  if (k <? n)%nat then S k else n.

(** ** Wrong-direction stream access *)

(** C8. With a buffer that passes [check_address]: [write] on a descriptor
    that resolves to the input stream returns -1, [read] on a descriptor that
    resolves to the output stream returns -1, and in both cases the state the
    call returns in is the state it was entered in, so the descriptor table
    and the two stream counters are unchanged. *)
Theorem wrong_direction_returns_minus_one (fd buffer size : Z) (s : state) :
  check buffer s = Done tt s ->
  (get fd s = STDIN ->
     sys_write fd buffer size s = Done (-1) s) /\
  (get fd s = STDOUT ->
     sys_read fd buffer size s = Done (-1) s).
Proof.
  intros Hok. split; intros Hfd.
  - unfold write. rewrite Hok. cbn [bind]. rewrite Hfd. reflexivity.
  - unfold read. rewrite Hok. cbn [bind]. rewrite Hfd. reflexivity.
Qed.

(** ** Writing to the output stream *)


(** ** Reading from the input stream *)

Lemma bytes_before_nul_le (n pos : nat) : (bytes_before_nul n pos <= n)%nat.
Proof.
  revert pos. induction n as [|n IH]; intros pos; cbn; [lia|].
  destruct (Byte.eqb _ _); [lia | specialize (IH (S pos)); lia].
Qed.

(** The bytes counted are no terminators, and the one after them is, when
    there is one within the [n]. *)
Lemma bytes_before_nul_spec (n pos : nat) :
  (forall j, (j < bytes_before_nul n pos)%nat ->
             input_getc (pos + j) <> "000"%byte) /\
  ((bytes_before_nul n pos < n)%nat ->
     input_getc (pos + bytes_before_nul n pos) = "000"%byte).
Proof.
  revert pos. induction n as [|n IH]; intros pos; cbn.
  - split; intros; lia.
  - destruct (Byte.eqb (input_getc pos) "000") eqn:E.
    + split; [intros; lia|]. intros _. rewrite Nat.add_0_r.
      now apply Byte.byte_dec_bl.
    + destruct (IH (S pos)) as [IH1 IH2]. split.
      * intros [|j] Hj.
        -- rewrite Nat.add_0_r. intros Heq. rewrite Heq in E. discriminate E.
        -- replace (pos + S j)%nat with (S pos + j)%nat by lia. apply IH1. lia.
      * intros Hlt.
        replace (pos + S (bytes_before_nul n (S pos)))%nat
          with (S pos + bytes_before_nul n (S pos))%nat by lia.
        apply IH2. lia.
Qed.

(** What the loop of [read] does when every address it stores to is
    mapped: it returns [i] advanced by the number of bytes in front of the
    terminator, having taken and stored [bytes_taken] bytes. *)
Lemma getc_loop_spec (n : nat) (i buf : Z) (s : state) :
  (forall j, (j < bytes_taken n (input_pos s))%nat ->
     pml4_get_page (buf + Z.of_nat j) <> 0) ->
  exists m : gmap Z byte,
    getc_loop pml4_get_page input_getc n i buf s
      = Done (i + Z.of_nat (bytes_before_nul n (input_pos s)))
          (set_umem m (set_input_pos (input_pos s + bytes_taken n (input_pos s)) s)) /\
    (forall j, (j < bytes_taken n (input_pos s))%nat ->
       m !! (buf + Z.of_nat j) = Some (input_getc (input_pos s + j))) /\
    (forall a, a < buf \/ buf + Z.of_nat (bytes_taken n (input_pos s)) <= a ->
       m !! a = umem s !! a).
Proof.
  revert i buf s. induction n as [|n IH]; intros i buf s Hmap.
  - exists (umem s). cbn. unfold bytes_taken; cbn. split; [|split].
    + f_equal; [lia|]. destruct s; cbn. unfold set_umem, set_input_pos; cbn.
      now rewrite Nat.add_0_r.
    + intros; lia.
    + reflexivity.
  - assert (Hbuf : pml4_get_page buf <> 0).
    { specialize (Hmap 0%nat). rewrite Z.add_0_r in Hmap. apply Hmap.
      unfold bytes_taken. destruct (_ <? _)%nat; lia. }
    revert Hmap.
    cbn [getc_loop bytes_before_nul]. unfold bytes_taken. cbn [bytes_before_nul].
    destruct (Z.eqb_spec (pml4_get_page buf) 0) as [|_]; [contradiction|].
    destruct (Byte.eqb (input_getc (input_pos s)) "000") eqn:E; intros Hmap.
    + exists (<[buf := input_getc (input_pos s)]> (umem s)). cbn. split; [|split].
      * f_equal; [lia|]. unfold set_umem, set_input_pos; cbn. f_equal. lia.
      * intros [|j] Hj; [|lia]. cbn. rewrite Z.add_0_r, Nat.add_0_r.
        apply lookup_insert_eq.
      * intros a Ha. apply lookup_insert_ne. lia.
    + set (s1 := set_umem _ _).
      assert (Hpos : input_pos s1 = S (input_pos s)) by reflexivity.
      set (k := bytes_before_nul n (S (input_pos s))) in *.
      assert (Htk : (if (S k <? S n)%nat then S (S k) else S n)
                    = S (if (k <? n)%nat then S k else n)).
      { destruct (Nat.ltb_spec k n), (Nat.ltb_spec (S k) (S n)); lia. }
      rewrite Htk in *.
      destruct (IH (i + 1) (buf + 1) s1) as (m & Hrun & Hin & Hout).
      { rewrite Hpos. unfold bytes_taken. fold k. intros j Hj.
        replace (buf + 1 + Z.of_nat j) with (buf + Z.of_nat (S j)) by lia.
        apply Hmap. lia. }
      rewrite Hpos in *. unfold bytes_taken in *. fold k in Hrun, Hin, Hout.
      exists m. split; [|split].
      * rewrite Hrun. f_equal; [lia|].
        unfold s1, set_umem, set_input_pos; cbn. f_equal. lia.
      * intros [|j] Hj.
        -- cbn. rewrite Z.add_0_r, Nat.add_0_r.
           rewrite Hout by lia. unfold s1; cbn. apply lookup_insert_eq.
        -- replace (buf + Z.of_nat (S j)) with (buf + 1 + Z.of_nat j) by lia.
           replace (input_pos s + S j)%nat with (S (input_pos s) + j)%nat by lia.
           apply Hin. lia.
      * intros a Ha. rewrite Hout by lia. unfold s1; cbn.
        apply lookup_insert_ne. lia.
Qed.

(** C5, as the code has it.  With a buffer that passes [check_address], a
    descriptor that resolves to the input stream, a non-zero [stdin_count],
    and a mapping for every address a byte is stored at (the call itself
    validates the first one only, and a store to an unmapped address raises a
    page fault), [read] takes bytes from the console one at a time and stores
    them at consecutive addresses from [buffer] on, up to and including the
    first terminator or up to [size] bytes.  It returns the number [k] of
    bytes in front of the terminator, for [k] below [2^31] (what the [int]
    counter of the loop holds without overflow; so whenever [size] is below
    [2^31]): where a terminator stopped the loop, the terminator was taken and
    stored as well and is not counted, so the result is one less than the
    number of bytes stored; without a terminator the result is [size].
    Nothing but user memory and the console position changes. *)
Theorem read_stdin_counts_bytes_before_terminator (fd buffer size : Z) (s : state) :
  check buffer s = Done tt s ->
  get fd s = STDIN ->
  stdin_count s <> 0 ->
  0 <= size < 2 ^ 32 ->
  Z.of_nat (bytes_before_nul (Z.to_nat size) (input_pos s)) < 2 ^ 31 ->
  (forall j, (j < bytes_taken (Z.to_nat size) (input_pos s))%nat ->
     pml4_get_page (buffer + Z.of_nat j) <> 0) ->
  let n := Z.to_nat size in
  let k := bytes_before_nul n (input_pos s) in
  let stored := bytes_taken n (input_pos s) in
  exists m : gmap Z byte,
    sys_read fd buffer size s
      = Done (Z.of_nat k) (set_umem m (set_input_pos (input_pos s + stored) s)) /\
    (forall j, (j < stored)%nat ->
       m !! (buffer + Z.of_nat j) = Some (input_getc (input_pos s + j))) /\
    (forall a, a < buffer \/ buffer + Z.of_nat stored <= a ->
       m !! a = umem s !! a) /\
    (forall j, (j < k)%nat -> input_getc (input_pos s + j) <> "000"%byte) /\
    ((k < n)%nat ->
       input_getc (input_pos s + k) = "000"%byte /\ stored = S k) /\
    ((k = n)%nat -> stored = n) /\
    (k <= n)%nat.
Proof.
  intros Hok Hfd Hcnt Hsz Hint Hmap n k stored.
  destruct (getc_loop_spec n 0 buffer s Hmap) as (m & Hrun & Hin & Hout).
  pose proof (bytes_before_nul_le n (input_pos s)) as Hle.
  destruct (bytes_before_nul_spec n (input_pos s)) as [Hnz Hz].
  exists m. repeat split; try assumption.
  - unfold read. rewrite Hok. cbn [bind]. rewrite Hfd. cbn.
    destruct (Z.eqb_spec (stdin_count s) 0); [contradiction|].
    fold n. rewrite Hrun. cbn [bind]. fold k. rewrite Z.add_0_l.
    rewrite to_int_small by (fold n k in Hint; lia). reflexivity.
  - apply Hz; assumption.
  - unfold stored, bytes_taken. fold k.
    destruct (Nat.ltb_spec k n); [reflexivity | lia].
  - intros Hk. unfold stored, bytes_taken. fold k. rewrite Hk.
    now rewrite Nat.ltb_irrefl.
Qed.

End Gate.

(** ** Closed instances on the sample machine *)

Abbreviation sample_open := (open sample_limit sample_is_user_vaddr sample_pml4_get_page).
Abbreviation sample_close := (close sample_limit).
Abbreviation sample_dup2 := (dup2 sample_limit).
Abbreviation sample_read :=
  (read sample_limit sample_is_user_vaddr sample_pml4_get_page sample_input_getc sample_file_io).
Abbreviation sample_write :=
  (write sample_limit sample_is_user_vaddr sample_pml4_get_page sample_file_io).
Abbreviation sample_run := (run sample_limit sample_is_user_vaddr sample_pml4_get_page).
Abbreviation sample_reachable :=
  (reachable sample_limit sample_is_user_vaddr sample_pml4_get_page).

(** The state a sequence of calls ends in; a call that does not return
    leaves the state where it was. *)
Fixpoint after (cs : list call) (s : state) : state :=
  match cs with
  | [] => s
  | c :: r =>
      match sample_run c s with
      | Done _ s' => after r s'
      | _ => s
      end
  end.

(** Two files opened as descriptors 2 and 3. *)
Definition two_files : state := after [Open 4096 100; Open 4096 200] init_state.

(** Then descriptor 2 duplicated onto descriptor 0. *)
Definition file_at_zero : state := after [Dup2 2 0] two_files.

(** Then descriptor 3 duplicated onto descriptor 0 as well. *)
Definition zero_overwritten : state := after [Dup2 3 0] file_at_zero.

(** The example of the design document: [open] yields descriptor 2,
    [dup2 (2, 5)] makes 5 an alias, [close (2)] leaves 5 valid and the file
    open, and [close (5)] releases it. *)
Example open_dup2_close_close :
  let s1 := after [Open 4096 100] init_state in
  let s2 := after [Dup2 2 5] s1 in
  let s3 := after [Close 2] s2 in
  let s4 := after [Close 5] s3 in
  sample_open 4096 100 init_state = Done 2 s1 /\
  sample_dup2 2 5 s1 = Done 5 s2 /\
  process_get_file sample_limit 5 s3 = 100 /\
  files s3 !! 100 = Some (mkFile 0) /\ trace s3 = [] /\
  files s4 !! 100 = None /\ trace s4 = [EvFileClose 100].
Proof. vm_compute. repeat split; reflexivity. Qed.

Abbreviation sparing :=
  (fun s c => admissible sample_limit s c /\ spares_low_files sample_limit s c).

Lemma file_at_zero_sparing : sample_reachable sparing init_state file_at_zero.
Proof.
  eapply (reach_call _ _ _ _ _ two_files (Dup2 2 0) 0).
  - eapply (reach_call _ _ _ _ _ (after [Open 4096 100] init_state) (Open 4096 200) 3).
    + eapply (reach_call _ _ _ _ _ init_state (Open 4096 100) 2).
      * apply reach_start.
      * split; [right; split; [lia | reflexivity] | exact I].
      * vm_compute. reflexivity.
    + split; [right; split; [lia | vm_compute; reflexivity] | exact I].
    + vm_compute. reflexivity.
  - split; [right; unfold sample_limit; lia|].
    right. right. right. vm_compute. discriminate.
  - vm_compute. reflexivity.
Qed.

Lemma file_at_zero_reachable :
  sample_reachable (admissible sample_limit) init_state file_at_zero.
Proof.
  apply (reachable_weaken _ _ _ sparing); [|apply file_at_zero_sparing].
  intros s c [H _]. exact H.
Qed.

Lemma zero_overwritten_reachable :
  sample_reachable (admissible sample_limit) init_state zero_overwritten.
Proof.
  eapply (reach_call _ _ _ _ _ file_at_zero (Dup2 3 0) 0).
  - apply file_at_zero_reachable.
  - right. unfold sample_limit. lia.
  - vm_compute. reflexivity.
Qed.

(** C1 fails as stated.  Open two files (descriptors 2 and 3), then
    [dup2 (2, 0)] and [dup2 (3, 0)]: every target is inside the table, and in
    the state reached one slot points at the first file while its alias count
    is 1, not 0.  A [close (2)] then leaves the file open with no slot pointing
    at it and without a call of [file_close].  A target outside the table
    breaks the count as well: after one [open] and [dup2 (2, 8)] on a table of
    eight slots, one slot of the table points at the file and its alias count
    is 1. *)
Lemma alias_count_exact_broken :
  sample_reachable (admissible sample_limit) init_state zero_overwritten /\
  files zero_overwritten !! 100 = Some (mkFile 1) /\
  aliases sample_limit zero_overwritten 100 = 1 /\
  ~ alias_count_exact sample_limit zero_overwritten /\
  (let s := after [Close 2] zero_overwritten in
   aliases sample_limit s 100 = 0 /\ files s !! 100 = Some (mkFile 0) /\ trace s = []) /\
  (let s := after [Open 4096 100; Dup2 2 8] init_state in
   sample_dup2 2 8 (after [Open 4096 100] init_state) = Done 8 s /\
   files s !! 100 = Some (mkFile 1) /\ aliases sample_limit s 100 = 1).
Proof.
  split; [apply zero_overwritten_reachable|].
  split; [vm_compute; reflexivity|]. split; [vm_compute; reflexivity|].
  split; [|split; vm_compute; auto].
  intros H. specialize (H 100 (mkFile 1) ltac:(vm_compute; reflexivity)).
  vm_compute in H. discriminate H.
Qed.

(** The amended C1 on the sample machine: the table is well formed and the
    counts are bounded at the state of the counterexample, and the counts are
    still exact one call earlier, after [dup2 (2, 0)] has put an open file on
    descriptor 0 that held the input stream. *)
Lemma alias_count_bounds_slots_witness :
  (well_formed sample_limit zero_overwritten /\
   alias_count_bound sample_limit zero_overwritten) /\
  alias_count_exact sample_limit file_at_zero.
Proof.
  split.
  - apply (alias_count_bounds_slots sample_limit sample_is_user_vaddr sample_pml4_get_page
             init_state zero_overwritten).
    + apply init_state_well_formed.
    + apply init_state_well_formed.
    + apply zero_overwritten_reachable.
  - destruct (alias_count_bounds_slots sample_limit sample_is_user_vaddr
                sample_pml4_get_page init_state file_at_zero) as (_ & Hexact & _).
    + apply init_state_well_formed.
    + apply init_state_well_formed.
    + apply file_at_zero_reachable.
    + apply Hexact; [|apply file_at_zero_sparing].
      intros f fo Hf. cbn in Hf. rewrite lookup_empty in Hf. discriminate Hf.
Defined.

(** C2 on the sample machine: [dup2 (0, 8)] on the table of a new process,
    whose slots are 0 to 7, returns 8 and has stored the input-stream
    sentinel in cell 8. *)
Lemma dup2_stores_outside_table_witness :
  exists s',
    sample_dup2 0 8 init_state = Done 8 s' /\
    fdTable s' !! 8 = Some (process_get_file sample_limit 0 init_state) /\
    ~ (0 <= 8 < sample_limit).
Proof.
  apply (dup2_stores_outside_table sample_limit 0 8 init_state).
  - vm_compute. discriminate.
  - left. reflexivity.
  - right. unfold sample_limit. lia.
Defined.

(** C5 fails as stated.  With "ab" and a terminator on the console,
    [read (0, buffer, 5)] returns 2, while it has taken three bytes from the
    console and stored three bytes in the buffer. *)
Lemma read_stdin_result_is_not_bytes_stored :
  exists s',
    sample_read 0 4096 5 init_state = Done 2 s' /\
    input_pos s' = 3%nat /\
    umem s' !! 4096 = Some "a"%byte /\
    umem s' !! 4097 = Some "b"%byte /\
    umem s' !! 4098 = Some "000"%byte /\
    2 <> Z.of_nat (input_pos s' - input_pos init_state).
Proof.
  eexists. split; [vm_compute; reflexivity|].
  repeat split; try (vm_compute; reflexivity). vm_compute. discriminate.
Qed.

(** The amended C5 at the same call. *)
Lemma read_stdin_counts_bytes_before_terminator_witness :
  exists m : gmap Z byte,
    sample_read 0 4096 5 init_state
      = Done 2 (set_umem m (set_input_pos 3 init_state)).
Proof.
  destruct (read_stdin_counts_bytes_before_terminator
              sample_limit sample_is_user_vaddr sample_pml4_get_page
              sample_input_getc sample_file_io 0 4096 5 init_state)
    as (m & Hrun & _).
  - reflexivity.
  - reflexivity.
  - cbn. lia.
  - lia.
  - vm_compute. reflexivity.
  - intros j _. unfold sample_pml4_get_page.
    destruct (Z.ltb_spec (4096 + Z.of_nat j) 4096); lia.
  - exists m. exact Hrun.
Defined.

(** C6 on the sample machine: six files fill the slots 2 to 7 of a new
    process, and a seventh [open] returns -1. *)
Lemma add_scans_upward_from_mark_witness :
  exists s',
    open_all sample_limit sample_is_user_vaddr sample_pml4_get_page
      [(4096, 100); (4096, 200); (4096, 300); (4096, 400); (4096, 500); (4096, 600)]
      init_state
    = Done (seqZ 2 (sample_limit - 2)) s' /\
    forall name h, valid_uaddr sample_is_user_vaddr sample_pml4_get_page name = true ->
      h <> 0 ->
      exists s'', sample_open name h s' = Done (-1) s'' /\ fdTable s'' = fdTable s'.
Proof.
  destruct (add_scans_upward_from_mark sample_limit sample_is_user_vaddr
              sample_pml4_get_page 100 init_state)
    as (_ & _ & _ & _ & _ & Hfill).
  - cbn. lia.
  - apply Hfill.
    + reflexivity.
    + intros i Hi. rewrite init_state_cell. repeat case_decide; lia.
    + unfold sample_limit. lia.
    + reflexivity.
    + repeat constructor; cbn; lia.
Defined.



(** C8 on the sample machine: writing to descriptor 0 and reading from
    descriptor 1 of a new process. *)
Lemma wrong_direction_returns_minus_one_witness :
  sample_write 0 4096 5 init_state = Done (-1) init_state /\
  sample_read 1 4096 5 init_state = Done (-1) init_state.
Proof.
  destruct (wrong_direction_returns_minus_one sample_limit sample_is_user_vaddr
              sample_pml4_get_page sample_input_getc sample_file_io sample_file_io
              0 4096 5 init_state eq_refl) as [Hw _].
  destruct (wrong_direction_returns_minus_one sample_limit sample_is_user_vaddr
              sample_pml4_get_page sample_input_getc sample_file_io sample_file_io
              1 4096 5 init_state eq_refl) as [_ Hr].
  split; [apply Hw | apply Hr]; reflexivity.
Defined.

End SyscallSpec.

(** * Properties of the swap slots of anonymous pages *)

Module AnonSpec.
Import Anon.

(** The number of set bits of a bitmap. *)
Definition bits_set (b : list bool) : nat := length (filter (fun x => x = true) b).

(** A page is resident when a frame is attached to it. *)
Definition resident (p : page) : Prop := frame_ptr p <> 0.

(** A sample machine for closed examples: pages of 4096 bytes, sectors of 512
    bytes, the all-ones slot id as the invalid one, a swap disk of 32 sectors
    (four slots), and one frame at address 64 whose page-sized buffer at
    8192 starts with "hi". *)
Definition sample_PGSIZE : Z := 4096.
Definition sample_DISK_SECTOR_SIZE : Z := 512.
Definition sample_INVALID_SLOT_IDX : Z := 2 ^ 64 - 1.
Definition sample_vm : vm :=
  mkVm (bitmap_create 4) ∅
       (<[8193 := "i"%byte]> (<[8192 := "h"%byte]> ∅))
       (<[64 := mkFrame 8192]> ∅) [64] [].
Definition sample_page : page := mkPage (Some anon_ops) 4096 64 1 sample_INVALID_SLOT_IDX.

Section Properties.

Variable PGSIZE : Z.
Variable DISK_SECTOR_SIZE : Z.
Variable INVALID_SLOT_IDX : Z.

Local Abbreviation SPP := (SECTORS_PER_PAGE PGSIZE DISK_SECTOR_SIZE).
Local Abbreviation swap_in := (anon_swap_in PGSIZE DISK_SECTOR_SIZE INVALID_SLOT_IDX).
Local Abbreviation swap_out := (anon_swap_out PGSIZE DISK_SECTOR_SIZE).
Local Abbreviation destroy := (anon_destroy INVALID_SLOT_IDX).

(** The disk events of one slot transfer. *)
Definition slot_writes (slot kva : Z) : list event :=
  (fun i => EvDiskWrite (slot * SPP + i) (kva + i * DISK_SECTOR_SIZE)) <$> seqZ 0 SPP.
Definition slot_reads (slot kva : Z) : list event :=
  (fun i => EvDiskRead (slot * SPP + i) (kva + i * DISK_SECTOR_SIZE)) <$> seqZ 0 SPP.

(** ** Copying bytes *)

Lemma byte_at_insert (m : gmap Z byte) (a x : Z) (v : byte) :
  byte_at (<[a := v]> m) x = if decide (a = x) then v else byte_at m x.
Proof.
  unfold byte_at. rewrite lookup_insert. destruct (decide (a = x)); reflexivity.
Qed.

Lemma copy_bytes_spec (n : nat) (src : gmap Z byte) (from to : Z) (dst : gmap Z byte) (x : Z) :
  byte_at (copy_bytes n src from to dst) x
  = if decide (to <= x < to + Z.of_nat n)
    then byte_at src (from + (x - to))
    else byte_at dst x.
Proof.
  revert from to dst. induction n as [|n IH]; intros from to dst; cbn [copy_bytes].
  - destruct (decide _); [lia | reflexivity].
  - rewrite IH, byte_at_insert.
    destruct (decide (to + 1 <= x < to + 1 + Z.of_nat n)),
             (decide (to <= x < to + Z.of_nat (S n))); try lia.
    + f_equal. lia.
    + destruct (decide (to = x)) as [->|]; [|lia].
      f_equal. lia.
    + destruct (decide (to = x)); [lia | reflexivity].
Qed.

(** ** The bitmap *)

Lemma first_clear_spec (b : list bool) (i k : Z) :
  first_clear b i = Some k ->
  i <= k < i + Z.of_nat (length b) /\
  b !! Z.to_nat (k - i) = Some false /\
  (forall j, (j < Z.to_nat (k - i))%nat -> b !! j = Some true).
Proof.
  revert i. induction b as [|x b IH]; intros i H; cbn in H; [discriminate|].
  destruct x.
  - destruct (IH (i + 1) H) as (Hk & Hbit & Hbefore). split; [cbn [length]; lia|].
    replace (Z.to_nat (k - i)) with (S (Z.to_nat (k - (i + 1)))) by lia.
    split; [exact Hbit|]. intros [|j] Hj; [reflexivity|]. apply Hbefore. lia.
  - injection H as <-. rewrite Z.sub_diag. cbn. split; [lia|].
    split; [reflexivity|]. intros j Hj. lia.
Qed.

Lemma first_clear_none (b : list bool) (i : Z) :
  first_clear b i = None -> forall j, (j < length b)%nat -> b !! j = Some true.
Proof.
  revert i. induction b as [|x b IH]; intros i H j Hj; cbn in *; [lia|].
  destruct x; [|discriminate]. destruct j; [reflexivity|]. apply (IH _ H). lia.
Qed.

Lemma bits_set_insert (b : list bool) (k : nat) (old new : bool) :
  b !! k = Some old ->
  (bits_set (<[k := new]> b) + (if old then 1 else 0)
   = bits_set b + (if new then 1 else 0))%nat.
Proof.
  unfold bits_set. revert k. induction b as [|x b IH]; intros k H; [discriminate|].
  destruct k as [|k]; cbn in H.
  - injection H as ->. cbn [insert list_insert]. rewrite !filter_cons.
    destruct old, new; repeat case_decide; cbn; try congruence; lia.
  - specialize (IH k H). cbn [insert list_insert]. rewrite !filter_cons.
    case_decide; cbn; [f_equal|]; exact IH.
Qed.

(** ** Sectors of a slot *)

Section Sizes.

Hypothesis sector_size_pos : 0 < DISK_SECTOR_SIZE.
Hypothesis page_size_pos : 0 < PGSIZE.

Lemma SPP_div : SPP = (PGSIZE + DISK_SECTOR_SIZE - 1) / DISK_SECTOR_SIZE.
Proof. unfold SECTORS_PER_PAGE, CEILING. apply Z.quot_div_nonneg; lia. Qed.

Lemma SPP_pos : 1 <= SPP.
Proof.
  rewrite SPP_div. apply Z.div_le_lower_bound; lia.
Qed.

(** The sectors of a slot hold at least a page. *)
Lemma SPP_covers_page : PGSIZE <= SPP * DISK_SECTOR_SIZE.
Proof.
  rewrite SPP_div.
  pose proof (Z.mod_pos_bound (PGSIZE + DISK_SECTOR_SIZE - 1) DISK_SECTOR_SIZE sector_size_pos).
  pose proof (Z.div_mod (PGSIZE + DISK_SECTOR_SIZE - 1) DISK_SECTOR_SIZE ltac:(lia)).
  lia.
Qed.

(** Sector numbers of a slot inside a 32-bit disk do not wrap. *)
Lemma sector_of_small (slot i : Z) :
  0 <= slot -> (slot + 1) * SPP <= 2 ^ 32 -> 0 <= i < SPP ->
  sector_of PGSIZE DISK_SECTOR_SIZE slot i = slot * SPP + i.
Proof.
  intros Hs Hfit Hi. pose proof SPP_pos as Hp. unfold sector_of, to_uint.
  assert (0 <= slot * SPP) by nia.
  rewrite (Z.mod_small (slot * SPP)) by lia. apply Z.mod_small. lia.
Qed.

(** The loop of [anon_swap_out] from iteration [i] on: sector by sector it
    copies the frame to the sectors of the slot; nothing but the disk and the
    trace changes. *)
Lemma write_sectors_spec (n : nat) (i slot kva : Z) (s : vm) :
  0 <= slot -> (slot + 1) * SPP <= 2 ^ 32 ->
  0 <= i -> i + Z.of_nat n <= SPP ->
  let s' := write_sectors PGSIZE DISK_SECTOR_SIZE n i slot kva s in
  swap_table s' = swap_table s /\ kmem s' = kmem s /\
  frames s' = frames s /\ frame_list s' = frame_list s /\
  trace s' = trace s
             ++ ((fun j => EvDiskWrite (slot * SPP + j) (kva + j * DISK_SECTOR_SIZE))
                   <$> seqZ i (Z.of_nat n)) /\
  forall x,
    byte_at (swap_disk s') x
    = if decide (slot * SPP * DISK_SECTOR_SIZE + i * DISK_SECTOR_SIZE <= x
                 < slot * SPP * DISK_SECTOR_SIZE + (i + Z.of_nat n) * DISK_SECTOR_SIZE)
      then byte_at (kmem s) (kva + (x - slot * SPP * DISK_SECTOR_SIZE))
      else byte_at (swap_disk s) x.
Proof.
  intros Hs Hfit. revert i s. induction n as [|n IH]; intros i s Hi Hn; cbn [write_sectors].
  - cbn. rewrite app_nil_r. repeat split; try reflexivity.
    intros x. destruct (decide _); [lia | reflexivity].
  - rewrite sector_of_small by lia.
    set (s1 := disk_write _ _ _ s).
    destruct (IH (i + 1) s1 ltac:(lia) ltac:(lia)) as (Ht & Hm & Hf & Hl & Htr & Hd).
    cbn zeta. rewrite Ht, Hm, Hf, Hl, Htr.
    repeat split; try reflexivity.
    + unfold s1, disk_write; cbn [trace emit set_swap_disk].
      rewrite (seqZ_cons i) by lia. cbn [fmap list_fmap].
      rewrite <- app_assoc. cbn. repeat f_equal; lia.
    + intros x. rewrite Hd. unfold s1, disk_write at 2; cbn [swap_disk emit set_swap_disk kmem].
      rewrite copy_bytes_spec.
      rewrite Z2Nat.id by lia.
      repeat case_decide; try lia; try reflexivity.
      f_equal. lia.
Qed.

(** The loop of [anon_swap_in] from iteration [i] on: sector by sector it
    copies the sectors of the slot to the target; nothing but memory and the
    trace changes. *)
Lemma read_sectors_spec (n : nat) (i slot kva : Z) (s : vm) :
  0 <= slot -> (slot + 1) * SPP <= 2 ^ 32 ->
  0 <= i -> i + Z.of_nat n <= SPP ->
  let s' := read_sectors PGSIZE DISK_SECTOR_SIZE n i slot kva s in
  swap_table s' = swap_table s /\ swap_disk s' = swap_disk s /\
  frames s' = frames s /\ frame_list s' = frame_list s /\
  trace s' = trace s
             ++ ((fun j => EvDiskRead (slot * SPP + j) (kva + j * DISK_SECTOR_SIZE))
                   <$> seqZ i (Z.of_nat n)) /\
  forall x,
    byte_at (kmem s') x
    = if decide (kva + i * DISK_SECTOR_SIZE <= x
                 < kva + (i + Z.of_nat n) * DISK_SECTOR_SIZE)
      then byte_at (swap_disk s) (slot * SPP * DISK_SECTOR_SIZE + (x - kva))
      else byte_at (kmem s) x.
Proof.
  intros Hs Hfit. revert i s. induction n as [|n IH]; intros i s Hi Hn; cbn [read_sectors].
  - cbn. rewrite app_nil_r. repeat split; try reflexivity.
    intros x. destruct (decide _); [lia | reflexivity].
  - rewrite sector_of_small by lia.
    set (s1 := disk_read _ _ _ s).
    destruct (IH (i + 1) s1 ltac:(lia) ltac:(lia)) as (Ht & Hm & Hf & Hl & Htr & Hd).
    cbn zeta. rewrite Ht, Hm, Hf, Hl, Htr.
    repeat split; try reflexivity.
    + unfold s1, disk_read; cbn [trace emit set_kmem].
      rewrite (seqZ_cons i) by lia. cbn [fmap list_fmap].
      rewrite <- app_assoc. cbn. repeat f_equal; lia.
    + intros x. rewrite Hd. unfold s1, disk_read at 2; cbn [swap_disk emit set_kmem kmem].
      rewrite copy_bytes_spec.
      rewrite Z2Nat.id by lia.
      repeat case_decide; try lia; try reflexivity.
      f_equal. lia.
Qed.

(** The bitmap [vm_anon_init] creates for a disk with a 32-bit sector count
    has all bits clear, and its slots fit the disk. *)
Lemma vm_anon_init_fits (num_sector : Z) (s : vm) :
  0 <= num_sector < 2 ^ 32 ->
  let b := swap_table (vm_anon_init PGSIZE DISK_SECTOR_SIZE num_sector s) in
  Z.of_nat (length b) * SPP <= 2 ^ 32 /\
  forall j, (j < length b)%nat -> b !! j = Some false.
Proof.
  intros Hn. pose proof SPP_pos as Hp. cbn zeta.
  unfold vm_anon_init, bitmap_create. cbn [swap_table set_swap_table].
  rewrite length_replicate.
  assert (0 <= num_sector / SPP) by (apply Z.div_pos; lia).
  pose proof (Z.mul_div_le num_sector SPP ltac:(lia)).
  split; [lia|]. intros j Hj. now apply lookup_replicate_2.
Qed.

(** ** Swapping out and in again *)

(** C3.  Let the page be resident: a frame with a buffer is attached and the
    slot id is the invalid one.  Let the bitmap have a clear bit, the first
    one being [k], let the invalid id be no index of the bitmap and the slots
    of the bitmap fit a disk with 32-bit sector numbers (as [vm_anon_init]
    makes it).  Then [anon_swap_out] succeeds, and [anon_swap_in] into any
    target buffer succeeds on the page once the fault handler has attached the
    target frame to it, and:
    - every byte of the page is in the target buffer as it was in the frame;
    - [anon_swap_out] wrote the [SECTORS_PER_PAGE] sectors from
      [k * SECTORS_PER_PAGE] on, in order, and [anon_swap_in] read the same
      sectors;
    - bit [k] is clear before, set while the page is swapped out, and clear
      again afterwards, the bitmap being then what it was;
    - before, in between and afterwards the slot id of the page is the invalid
      one if and only if the page is resident. *)
Theorem swap_out_swap_in_round_trip
    (pg : page) (fr : frame) (s : vm) (k target_frame target_kva : Z) :
  ~ (0 <= INVALID_SLOT_IDX < Z.of_nat (length (swap_table s))) ->
  Z.of_nat (length (swap_table s)) * SPP <= 2 ^ 32 ->
  resident pg ->
  frames s !! frame_ptr pg = Some fr ->
  kva fr <> 0 ->
  swap_slot_idx pg = INVALID_SLOT_IDX ->
  first_clear (swap_table s) 0 = Some k ->
  target_frame <> 0 ->
  exists pg1 s1 pg2 s2,
    swap_out (Some pg) s = Done (true, Some pg1, s1) /\
    swap_in (set_frame_ptr target_frame pg1) target_kva s1 = Done (true, pg2, s2) /\
    (forall o, 0 <= o < PGSIZE ->
       byte_at (kmem s2) (target_kva + o) = byte_at (kmem s) (kva fr + o)) /\
    trace s1 = trace s ++ slot_writes k (kva fr)
               ++ [EvClearPage (owner pg) (va pg); EvSetDirty (owner pg) (va pg) false] /\
    trace s2 = trace s1 ++ slot_reads k target_kva /\
    swap_table s !! Z.to_nat k = Some false /\
    swap_table s1 = <[Z.to_nat k := true]> (swap_table s) /\
    swap_table s1 !! Z.to_nat k = Some true /\
    swap_table s2 = swap_table s /\
    (swap_slot_idx pg = INVALID_SLOT_IDX <-> resident pg) /\
    swap_slot_idx pg1 = k /\ ~ resident pg1 /\
    (swap_slot_idx pg1 = INVALID_SLOT_IDX <-> resident pg1) /\
    swap_slot_idx pg2 = INVALID_SLOT_IDX /\ frame_ptr pg2 = target_frame /\
    (swap_slot_idx pg2 = INVALID_SLOT_IDX <-> resident pg2).
Proof.
  intros Hinvalid Hfit Hres Hfr Hkva Hslot Hfc Htarget.
  pose proof SPP_pos as Hspp. pose proof SPP_covers_page as Hcover.
  destruct (first_clear_spec _ _ _ Hfc) as (Hk & Hbit & _).
  rewrite Z.sub_0_r in Hbit.
  assert (Hkfit : (k + 1) * SPP <= 2 ^ 32) by nia.
  assert (Hklt : k < 2 ^ 32) by nia.
  set (b' := <[Z.to_nat k := true]> (swap_table s)).
  set (s0 := set_swap_table b' s).
  destruct (write_sectors_spec (Z.to_nat SPP) 0 k (kva fr) s0)
    as (Wt & Wm & Wf & Wl & Wtr & Wd); try lia.
  set (sw := write_sectors PGSIZE DISK_SECTOR_SIZE (Z.to_nat SPP) 0 k (kva fr) s0) in *.
  set (pg1 := set_frame_ptr 0 (set_swap_slot_idx k pg)).
  set (s1 := emit (EvSetDirty (owner pg) (va pg) false)
               (emit (EvClearPage (owner pg) (va pg)) sw)).
  assert (Hout : swap_out (Some pg) s = Done (true, Some pg1, s1)).
  { unfold anon_swap_out, bitmap_scan_and_flip. rewrite Hfc.
    destruct (Z.eqb_spec k BITMAP_ERROR) as [E|_]; [unfold BITMAP_ERROR in E; lia|].
    destruct (Z.eqb_spec (frame_ptr pg) 0) as [E|_]; [contradiction|].
    cbn [frames set_swap_table]. rewrite Hfr.
    destruct (Z.eqb_spec (kva fr) 0) as [E|_]; [contradiction|]. reflexivity. }
  destruct (read_sectors_spec (Z.to_nat SPP) 0 k target_kva s1)
    as (Rt & Rd & Rf & Rl & Rtr & Rm); try lia.
  set (sr := read_sectors PGSIZE DISK_SECTOR_SIZE (Z.to_nat SPP) 0 k target_kva s1) in *.
  set (pg2 := set_swap_slot_idx INVALID_SLOT_IDX (set_frame_ptr target_frame pg1)).
  assert (Ht1 : swap_table s1 = b') by (cbn; rewrite Wt; reflexivity).
  assert (Hlen : length b' = length (swap_table s)) by apply length_insert.
  assert (Hback : <[Z.to_nat k := false]> b' = swap_table s).
  { unfold b'. rewrite list_insert_insert_eq. now apply list_insert_id. }
  set (s2 := set_swap_table (swap_table s) sr).
  assert (Hin : swap_in (set_frame_ptr target_frame pg1) target_kva s1 = Done (true, pg2, s2)).
  { unfold anon_swap_in. cbn [swap_slot_idx set_frame_ptr set_swap_slot_idx pg1].
    destruct (Z.eqb_spec k INVALID_SLOT_IDX) as [E|_]; [subst k; lia|].
    fold sr. unfold bitmap_set. rewrite Rt, Ht1, Hlen.
    destruct (Z.leb_spec 0 k); [|lia].
    destruct (Z.ltb_spec k (Z.of_nat (length (swap_table s)))); [|lia].
    cbn [andb]. rewrite Hback. reflexivity. }
  exists pg1, s1, pg2, s2.
  split; [exact Hout|]. split; [exact Hin|]. split.
  { intros o Ho. cbn [kmem s2 set_swap_table]. rewrite Rm.
    rewrite Z2Nat.id by lia.
    destruct (decide _) as [_|Hn]; [|lia].
    cbn [swap_disk s1 emit]. rewrite Wd. rewrite Z2Nat.id by lia.
    destruct (decide _) as [_|Hn]; [|lia].
    cbn [kmem s0 set_swap_table]. f_equal. lia. }
  split.
  { cbn [trace s1 emit]. rewrite Wtr, Z2Nat.id by lia. cbn [trace s0 set_swap_table].
    unfold slot_writes. rewrite <- !app_assoc. reflexivity. }
  split.
  { cbn [trace s2 set_swap_table]. rewrite Rtr, Z2Nat.id by lia. reflexivity. }
  split; [exact Hbit|]. split; [exact Ht1|].
  split.
  { rewrite Ht1. apply list_lookup_insert_eq. apply lookup_lt_Some in Hbit. exact Hbit. }
  split; [reflexivity|].
  split; [split; auto|].
  split; [reflexivity|].
  assert (Hnr : ~ resident pg1) by (unfold resident; cbn; lia).
  split; [exact Hnr|].
  split.
  { split; [|contradiction]. cbn. intros E. subst k. lia. }
  split; [reflexivity|]. split; [reflexivity|].
  split; [intros _; exact Htarget | reflexivity].
Qed.

End Sizes.

(** A page just initialised has the invalid slot id: with a frame attached
    it is resident in the sense of the state machine. *)
Lemma anon_initializer_invalid_slot (VM_MARKER_0 : Z) (p : page) (type kva current : Z) :
  let '(ok, p') := anon_initializer INVALID_SLOT_IDX VM_MARKER_0 p type kva current in
  ok = true /\ swap_slot_idx p' = INVALID_SLOT_IDX /\
  frame_ptr p' = frame_ptr p /\ owner p' = current.
Proof. cbn. auto. Qed.

(** ** Swapping in a resident page *)

(** C9.  [anon_swap_in] on a page whose slot id is the invalid one returns
    [false], with the page and the whole state (bitmap, disk, memory, trace:
    no sector was read) as they were. *)
Theorem swap_in_resident_is_noop (pg : page) (target_kva : Z) (s : vm) :
  swap_slot_idx pg = INVALID_SLOT_IDX ->
  swap_in pg target_kva s = Done (false, pg, s).
Proof.
  intros H. unfold anon_swap_in. rewrite H, Z.eqb_refl. reflexivity.
Qed.

(** ** Swapping out a page without a frame *)

(** C10.  When the bitmap has a clear bit, the first being [k], and the page
    is [NULL], or has no frame, or a frame without a buffer, [anon_swap_out]
    returns [false] and hands the page back as it was, but bit [k] is now set:
    one more bit is set than before, nothing else in the state has changed,
    so that no page holds [k] as its slot id, and the next scan of the bitmap
    does not find [k]. *)
Theorem swap_out_without_frame_leaks_slot (pg : option page) (s : vm) (k : Z) :
  first_clear (swap_table s) 0 = Some k ->
  Z.of_nat (length (swap_table s)) <= BITMAP_ERROR ->
  (pg = None \/
   exists p, pg = Some p /\
     (frame_ptr p = 0 \/
      exists fr, frames s !! frame_ptr p = Some fr /\ kva fr = 0)) ->
  let s' := set_swap_table (<[Z.to_nat k := true]> (swap_table s)) s in
  swap_out pg s = Done (false, pg, s') /\
  swap_table s !! Z.to_nat k = Some false /\
  swap_table s' !! Z.to_nat k = Some true /\
  (forall j, j <> Z.to_nat k -> swap_table s' !! j = swap_table s !! j) /\
  bits_set (swap_table s') = S (bits_set (swap_table s)) /\
  first_clear (swap_table s') 0 <> Some k.
Proof.
  intros Hfc Hmax Hpg. cbn zeta.
  destruct (first_clear_spec _ _ _ Hfc) as (Hk & Hbit & _).
  rewrite Z.sub_0_r in Hbit.
  pose proof (lookup_lt_Some _ _ _ Hbit) as Hlt.
  split; [|split; [exact Hbit|split; [|split; [|split]]]].
  - unfold anon_swap_out, bitmap_scan_and_flip. rewrite Hfc.
    destruct (Z.eqb_spec k BITMAP_ERROR) as [E|_]; [lia|].
    destruct Hpg as [->|(p & -> & [Hnull|(fr & Hfr & Hkva)])].
    + reflexivity.
    + rewrite Hnull. reflexivity.
    + destruct (frame_ptr p =? 0); [reflexivity|].
      cbn [frames set_swap_table]. rewrite Hfr, Hkva. reflexivity.
  - cbn. now apply list_lookup_insert_eq.
  - intros j Hj. cbn. apply list_lookup_insert_ne. congruence.
  - cbn [swap_table set_swap_table].
    pose proof (bits_set_insert (swap_table s) (Z.to_nat k) false true Hbit) as Hc.
    cbn iota in Hc. lia.
  - cbn. intros Hfc'. destruct (first_clear_spec _ _ _ Hfc') as (_ & Hbit' & _).
    rewrite Z.sub_0_r, list_lookup_insert_eq in Hbit' by exact Hlt. discriminate Hbit'.
Qed.

(** ** Destroying a page *)

(** C4, as the code has it.  [anon_destroy] takes one of two paths.  With
    a frame attached it unlinks the frame from the frame list and frees it,
    and the bitmap and the disk are as before; the page is not detached: the
    function has no store to it (the page is an argument of the embedding and
    no result), so [page->frame] is as it was and now designates a frame that
    is no more.  Without a frame, and with the slot id of a slot of the
    bitmap, it clears the bit of that slot, every other bit is as before, and
    frames, frame list and trace (no [list_remove], no [free]) are as
    before. *)
Theorem destroy_releases_frame_or_slot (pg : page) (s : vm) :
  (resident pg -> is_Some (frames s !! frame_ptr pg) ->
   exists s',
     destroy pg s = Done s' /\
     swap_table s' = swap_table s /\ swap_disk s' = swap_disk s /\
     kmem s' = kmem s /\
     frames s' = delete (frame_ptr pg) (frames s) /\
     (frame_ptr pg <> 0 /\ frames s' !! frame_ptr pg = None) /\
     frame_list s' = filter (fun f => f <> frame_ptr pg) (frame_list s) /\
     (frame_ptr pg ∉ frame_list s') /\
     trace s' = trace s ++ [EvListRemove (frame_ptr pg); EvFree (frame_ptr pg)]) /\
  (~ resident pg ->
   swap_slot_idx pg <> INVALID_SLOT_IDX ->
   0 <= swap_slot_idx pg < Z.of_nat (length (swap_table s)) ->
   exists s',
     destroy pg s = Done s' /\
     swap_table s' = <[Z.to_nat (swap_slot_idx pg) := false]> (swap_table s) /\
     swap_table s' !! Z.to_nat (swap_slot_idx pg) = Some false /\
     (forall j, j <> Z.to_nat (swap_slot_idx pg) ->
        swap_table s' !! j = swap_table s !! j) /\
     (swap_table s !! Z.to_nat (swap_slot_idx pg) = Some true ->
        S (bits_set (swap_table s')) = bits_set (swap_table s)) /\
     frames s' = frames s /\ frame_list s' = frame_list s /\
     swap_disk s' = swap_disk s /\ kmem s' = kmem s /\
     trace s' = trace s).
Proof.
  split.
  - intros Hres [fr Hfr]. unfold anon_destroy.
    destruct (Z.eqb_spec (frame_ptr pg) 0) as [E|_]; [contradiction|].
    cbn [negb]. rewrite Hfr. eexists. split; [reflexivity|].
    cbn. repeat split; try reflexivity.
    + exact Hres.
    + apply lookup_delete_eq.
    + intros Hin. apply list_elem_of_filter in Hin as [Hne _]. contradiction.
    + now rewrite <- app_assoc.
  - intros Hnr Hslot Hrange. unfold anon_destroy.
    assert (E : frame_ptr pg = 0).
    { unfold resident in Hnr. destruct (Z.eq_dec (frame_ptr pg) 0); [assumption | contradiction]. }
    rewrite E. cbn [Z.eqb negb].
    destruct (Z.eqb_spec (swap_slot_idx pg) INVALID_SLOT_IDX) as [|_]; [contradiction|].
    unfold bitmap_set.
    destruct (Z.leb_spec 0 (swap_slot_idx pg)); [|lia].
    destruct (Z.ltb_spec (swap_slot_idx pg) (Z.of_nat (length (swap_table s)))); [|lia].
    cbn [andb]. eexists. split; [reflexivity|].
    cbn [swap_table set_swap_table swap_disk kmem frames frame_list trace].
    assert (Hlt : (Z.to_nat (swap_slot_idx pg) < length (swap_table s))%nat) by lia.
    repeat split; try reflexivity.
    + now apply list_lookup_insert_eq.
    + intros j Hj. apply list_lookup_insert_ne. congruence.
    + intros Hset.
      pose proof (bits_set_insert (swap_table s) _ true false Hset) as Hc.
      cbn iota in Hc. lia.
Qed.

End Properties.

(** ** Closed instances on the sample machine *)

Abbreviation sample_swap_out := (anon_swap_out sample_PGSIZE sample_DISK_SECTOR_SIZE).
Abbreviation sample_swap_in :=
  (anon_swap_in sample_PGSIZE sample_DISK_SECTOR_SIZE sample_INVALID_SLOT_IDX).
Abbreviation sample_destroy := (anon_destroy sample_INVALID_SLOT_IDX).

(** The example of the design document: a page of 4096 bytes on sectors of
    512 bytes takes 8 sectors, and slot [k] starts at sector [k * 8]. *)
Example eight_sectors_per_page :
  SECTORS_PER_PAGE sample_PGSIZE sample_DISK_SECTOR_SIZE = 8 /\
  sector_of sample_PGSIZE sample_DISK_SECTOR_SIZE 3 0 = 24.
Proof. split; reflexivity. Qed.

(** C3 on the sample machine: the page goes out to slot 0 and comes back
    into the buffer at 16384 of the frame at 128, where it starts with "hi"
    again. *)
Lemma swap_out_swap_in_round_trip_witness :
  exists pg1 s1 pg2 s2,
    sample_swap_out (Some sample_page) sample_vm = Done (true, Some pg1, s1) /\
    sample_swap_in (set_frame_ptr 128 pg1) 16384 s1 = Done (true, pg2, s2) /\
    byte_at (kmem s2) 16384 = "h"%byte /\
    byte_at (kmem s2) 16385 = "i"%byte /\
    swap_table s1 !! 0%nat = Some true /\
    swap_table s2 = swap_table sample_vm.
Proof.
  destruct (swap_out_swap_in_round_trip
              sample_PGSIZE sample_DISK_SECTOR_SIZE sample_INVALID_SLOT_IDX
              ltac:(reflexivity) ltac:(reflexivity)
              sample_page (mkFrame 8192) sample_vm 0 128 16384)
    as (pg1 & s1 & pg2 & s2 & Hout & Hin & Hbytes & _ & _ & _ & _ & Hset & Hclear & _).
  - vm_compute. intros [_ H]. discriminate H.
  - vm_compute. discriminate.
  - unfold resident. cbn. lia.
  - reflexivity.
  - cbn. lia.
  - reflexivity.
  - reflexivity.
  - lia.
  - exists pg1, s1, pg2, s2.
    split; [exact Hout|]. split; [exact Hin|].
    split; [apply (Hbytes 0); unfold sample_PGSIZE; lia|].
    split; [apply (Hbytes 1); unfold sample_PGSIZE; lia|].
    split; [exact Hset | exact Hclear].
Defined.

(** C4 fails as stated.  Destroying the resident sample page frees its frame
    and unlinks it from the frame list, but does not detach it from the page:
    [anon_destroy] stores nothing in the page, whose [frame] member still holds
    the address 64 of the frame that was freed. *)
Lemma destroy_leaves_frame_attached :
  exists s',
    sample_destroy sample_page sample_vm = Done s' /\
    frames sample_vm !! 64 = Some (mkFrame 8192) /\
    frames s' !! 64 = None /\ frame_list s' = [] /\
    frame_ptr sample_page = 64 /\ resident sample_page.
Proof.
  eexists. split; [vm_compute; reflexivity|].
  split; [reflexivity|]. split; [reflexivity|]. split; [reflexivity|].
  split; [reflexivity|]. unfold resident. cbn. lia.
Qed.

(** The amended C4 on the sample machine: destroying the resident sample
    page frees its frame, and destroying a page that holds slot 2 clears
    bit 2. *)
Lemma destroy_releases_frame_or_slot_witness :
  (exists s', sample_destroy sample_page sample_vm = Done s' /\
              frames s' !! 64 = None /\ swap_table s' = swap_table sample_vm) /\
  (exists s', sample_destroy (mkPage (Some anon_ops) 4096 0 1 2)
                (set_swap_table [true; false; true; false] sample_vm) = Done s' /\
              swap_table s' = [true; false; false; false] /\
              frames s' = frames sample_vm).
Proof.
  split.
  - destruct (destroy_releases_frame_or_slot sample_INVALID_SLOT_IDX
                sample_page sample_vm) as [Hframe _].
    destruct Hframe as (s' & Hrun & Ht & _ & _ & _ & [_ Hgone] & _).
    + unfold resident. cbn. lia.
    + vm_compute. eauto.
    + exists s'. auto.
  - destruct (destroy_releases_frame_or_slot sample_INVALID_SLOT_IDX
                (mkPage (Some anon_ops) 4096 0 1 2)
                (set_swap_table [true; false; true; false] sample_vm)) as [_ Hslot].
    destruct Hslot as (s' & Hrun & Ht & _ & _ & _ & Hf & _).
    + unfold resident. cbn. lia.
    + vm_compute. discriminate.
    + cbn. lia.
    + exists s'. auto.
Defined.

(** C10 on the sample machine: swapping out a page without a frame returns
    [false] and leaves bit 0 set. *)
Lemma swap_out_without_frame_leaks_slot_witness :
  sample_swap_out (Some (set_frame_ptr 0 sample_page)) sample_vm
    = Done (false, Some (set_frame_ptr 0 sample_page),
            set_swap_table [true; false; false; false] sample_vm) /\
  bits_set [true; false; false; false] = S (bits_set (swap_table sample_vm)).
Proof.
  destruct (swap_out_without_frame_leaks_slot sample_PGSIZE sample_DISK_SECTOR_SIZE
              (Some (set_frame_ptr 0 sample_page)) sample_vm 0)
    as (Hrun & _ & _ & _ & Hbits & _).
  - reflexivity.
  - vm_compute. discriminate.
  - right. eexists. split; [reflexivity|]. left. reflexivity.
  - split; [exact Hrun | exact Hbits].
Defined.

(** C9 on the sample machine: swapping in the resident sample page. *)
Lemma swap_in_resident_is_noop_witness :
  sample_swap_in sample_page 16384 sample_vm = Done (false, sample_page, sample_vm).
Proof.
  apply (swap_in_resident_is_noop sample_PGSIZE sample_DISK_SECTOR_SIZE
           sample_INVALID_SLOT_IDX sample_page 16384 sample_vm).
  reflexivity.
Defined.

End AnonSpec.

(** * Further system calls and their error behaviour *)

Module SyscallMore.
Import Syscall SyscallSpec.

(** ** [create], [remove] and [filesize] *)

Section MoreCalls.

Variable FDCOUNT_LIMIT : Z.
Variable is_user_vaddr : Z -> bool.
Variable pml4_get_page : Z -> Z.

(** [filesys_create] ([bool filesys_create (const char *, off_t)]),
    [filesys_remove] and [file_length] belong to the filesystem; they are
    given the state and return their result. *)
Variable filesys_create : Z -> Z -> state -> bool * state.
Variable filesys_remove : Z -> state -> bool * state.
Variable file_length : Z -> state -> Z.

(** [create (file, initial_size)] *)
Definition create (file initial_size : Z) (s : state) : outcome bool :=
  do _u, s <- check_address is_user_vaddr pml4_get_page file s;
  let '(ok, s) := filesys_create file (to_int initial_size) s in
  Done ok s.

(** [remove (file)] *)
Definition remove (file : Z) (s : state) : outcome bool :=
  do _u, s <- check_address is_user_vaddr pml4_get_page file s;
  let '(ok, s) := filesys_remove file s in
  Done ok s.

(** [filesize (fd)] *)
Definition filesize (fd : Z) (s : state) : outcome Z :=
  let file_obj := process_get_file FDCOUNT_LIMIT fd s in
  if file_obj =? 0 then Done (-1) s
  else Done (file_length file_obj s) s.

End MoreCalls.



Section Errors.

Variable FDCOUNT_LIMIT : Z.
Variable is_user_vaddr : Z -> bool.
Variable pml4_get_page : Z -> Z.
Variable input_getc : nat -> byte.
Variable file_read : Z -> Z -> Z -> state -> option (Z * state).
Variable file_write : Z -> Z -> Z -> state -> option (Z * state).
Variable filesys_create : Z -> Z -> state -> bool * state.
Variable filesys_remove : Z -> state -> bool * state.
Variable file_length : Z -> state -> Z.

Local Abbreviation get := (process_get_file FDCOUNT_LIMIT).
Local Abbreviation valid := (valid_uaddr is_user_vaddr pml4_get_page).
Local Abbreviation sys_open := (open FDCOUNT_LIMIT is_user_vaddr pml4_get_page).
Local Abbreviation sys_close := (close FDCOUNT_LIMIT).
Local Abbreviation sys_dup2 := (dup2 FDCOUNT_LIMIT).
Local Abbreviation sys_read :=
  (read FDCOUNT_LIMIT is_user_vaddr pml4_get_page input_getc file_read).
Local Abbreviation sys_write :=
  (write FDCOUNT_LIMIT is_user_vaddr pml4_get_page file_write).
Local Abbreviation sys_create := (create is_user_vaddr pml4_get_page filesys_create).
Local Abbreviation sys_remove := (remove is_user_vaddr pml4_get_page filesys_remove).
Local Abbreviation sys_filesize := (filesize FDCOUNT_LIMIT file_length).

Lemma check_address_invalid (a : Z) (s : state) :
  valid a = false ->
  check_address is_user_vaddr pml4_get_page a s = exit (-1) s.
Proof.
  unfold valid_uaddr, check_address. intros H. apply negb_false_iff in H.
  now rewrite H.
Qed.

Lemma get_unresolved (fd : Z) (s : state) :
  fd < 0 \/ FDCOUNT_LIMIT <= fd \/ cell (fdTable s) fd = 0 -> get fd s = 0.
Proof.
  intros H. unfold process_get_file.
  destruct (Z.ltb_spec fd 0), (Z.geb_spec fd FDCOUNT_LIMIT); cbn; try reflexivity.
  destruct H as [H|[H|H]]; [lia | lia | exact H].
Qed.

(** X1.  A pointer that [check_address] rejects ends the process in [open],
    [read], [write], [create] and [remove] alike, whatever the other
    arguments: the exit status is -1, the only event is the exit message (no
    lock, no [file_close], no filesystem call), and table, open files,
    counters and user memory are as they were. *)
Theorem rejected_pointer_exits (a : Z) (s : state) :
  valid a = false ->
  exists s',
    (forall h, sys_open a h s = Exit s') /\
    (forall fd size, sys_read fd a size s = Exit s') /\
    (forall fd size, sys_write fd a size s = Exit s') /\
    (forall size, sys_create a size s = Exit s') /\
    sys_remove a s = Exit s' /\
    exit_status s' = -1 /\
    events_since s s' = [EvExitMsg (-1)] /\
    fdTable s' = fdTable s /\ fdIdx s' = fdIdx s /\ files s' = files s /\
    stdin_count s' = stdin_count s /\ stdout_count s' = stdout_count s /\
    umem s' = umem s /\ input_pos s' = input_pos s.
Proof.
  intros Hbad. exists (emit (EvExitMsg (-1)) (set_exit_status (-1) s)).
  pose proof (check_address_invalid a s Hbad) as Hc. unfold exit in Hc.
  split; [intros h; unfold open; now rewrite Hc|].
  split; [intros fd size; unfold read; now rewrite Hc|].
  split; [intros fd size; unfold write; now rewrite Hc|].
  split; [intros size; unfold create; now rewrite Hc|].
  split; [unfold remove; now rewrite Hc|].
  split; [reflexivity|].
  split; [unfold events_since; cbn; apply drop_app_length|].
  repeat split; reflexivity.
Qed.

(** X2.  A descriptor that resolves to nothing (negative, not below
    [FDCOUNT_LIMIT], or an empty slot) is an error everywhere and changes
    nothing: [read] and [write] (with a buffer that passes), [filesize] and
    [dup2] from it return -1, also onto a descriptor that holds an open file,
    which stays as it is; [close] just returns. *)
Theorem unresolved_descriptor_fails (fd buffer : Z) (s : state) :
  fd < 0 \/ FDCOUNT_LIMIT <= fd \/ cell (fdTable s) fd = 0 ->
  valid buffer = true ->
  (forall size, sys_read fd buffer size s = Done (-1) s) /\
  (forall size, sys_write fd buffer size s = Done (-1) s) /\
  sys_filesize fd s = Done (-1) s /\
  sys_close fd s = Done tt s /\
  (forall newfd, sys_dup2 fd newfd s = Done (-1) s).
Proof.
  intros Hfd Hbuf. pose proof (get_unresolved fd s Hfd) as Hg.
  pose proof (check_address_valid is_user_vaddr pml4_get_page buffer s Hbuf) as Hc.
  split; [intros size; unfold read; rewrite Hc; cbn [bind]; now rewrite Hg|].
  split; [intros size; unfold write; rewrite Hc; cbn [bind]; now rewrite Hg|].
  split; [unfold filesize; now rewrite Hg|].
  split; [unfold close; now rewrite Hg|].
  intros newfd. unfold dup2. now rewrite Hg.
Qed.

(** ** The filesystem lock *)

Lemma events_since_app (s s' : state) (evs : list event) :
  trace s' = trace s ++ evs -> events_since s s' = evs.
Proof. intros H. unfold events_since. rewrite H. apply drop_app_length. Qed.






End Errors.

(** ** Closing stream descriptors *)

Section Streams.

Variable FDCOUNT_LIMIT : Z.
Variable is_user_vaddr : Z -> bool.
Variable pml4_get_page : Z -> Z.
Variable input_getc : nat -> byte.
Variable file_read : Z -> Z -> Z -> state -> option (Z * state).
Variable file_write : Z -> Z -> Z -> state -> option (Z * state).

Local Abbreviation get := (process_get_file FDCOUNT_LIMIT).
Local Abbreviation valid := (valid_uaddr is_user_vaddr pml4_get_page).
Local Abbreviation sys_close := (close FDCOUNT_LIMIT).
Local Abbreviation sys_read :=
  (read FDCOUNT_LIMIT is_user_vaddr pml4_get_page input_getc file_read).
Local Abbreviation sys_write :=
  (write FDCOUNT_LIMIT is_user_vaddr pml4_get_page file_write).

(** X4.  [close] on descriptor 0 or 1, or on a descriptor that holds a
    stream sentinel, never clears the slot and never releases anything: the
    descriptor resolves as before, open files and trace are as before (also
    when descriptor 0 or 1 holds an open file, whose alias count stays), and
    exactly one stream counter goes down by one.  It is [stdin_count] when the
    slot holds the input sentinel or the descriptor is 0, whatever it holds,
    and [stdout_count] otherwise.  (The cell is an address: not negative.) *)
Theorem close_of_stream_descriptor (fd : Z) (s : state) :
  0 <= get fd s -> get fd s <> 0 ->
  fd <= 1 \/ get fd s <= 2 ->
  exists s',
    sys_close fd s = Done tt s' /\
    fdTable s' = fdTable s /\ get fd s' = get fd s /\
    files s' = files s /\ trace s' = trace s /\ fdIdx s' = fdIdx s /\
    (get fd s = 1 \/ fd = 0 ->
       stdin_count s' = stdin_count s - 1 /\ stdout_count s' = stdout_count s) /\
    (get fd s <> 1 -> fd <> 0 ->
       stdout_count s' = stdout_count s - 1 /\ stdin_count s' = stdin_count s).
Proof.
  intros Hnn Hres Hlow.
  destruct (get_in_range FDCOUNT_LIMIT fd s Hres) as [Hr Hg].
  unfold close.
  destruct (Z.eqb_spec (get fd s) 0); [contradiction|].
  assert (Hb : (fd <=? 1) || (get fd s <=? 2) = true).
  { apply orb_true_iff. destruct Hlow; [left | right]; now apply Z.leb_le. }
  destruct (Z.eqb_spec (get fd s) 1) as [E1|E1]; cbn [orb].
  { rewrite Hb. eexists. split; [reflexivity|]. cbn.
    repeat split; try reflexivity; intros; try lia; contradiction. }
  destruct (Z.eqb_spec fd 0) as [F0|F0]; cbn [orb].
  { rewrite Hb. eexists. split; [reflexivity|]. cbn.
    repeat split; try reflexivity; intros; try lia; contradiction. }
  assert (Hout : (get fd s =? 2) || (fd =? 1) = true).
  { apply orb_true_iff.
    destruct (Z.eqb_spec (get fd s) 2); [now left|]. right. apply Z.eqb_eq.
    destruct Hlow as [H|H]; lia. }
  rewrite Hout, Hb. eexists. split; [reflexivity|]. cbn.
  repeat split; try reflexivity;
    match goal with H : _ \/ _ |- _ => destruct H; contradiction end.
Qed.

Lemma close_input_sentinel (fd : Z) (s : state) :
  get fd s = STDIN ->
  sys_close fd s = Done tt (set_stdin_count (stdin_count s - 1) s).
Proof. intros H. unfold close. rewrite H. cbn. now rewrite orb_true_r. Qed.

Lemma close_output_sentinel (fd : Z) (s : state) :
  get fd s = STDOUT -> fd <> 0 ->
  sys_close fd s = Done tt (set_stdout_count (stdout_count s - 1) s).
Proof.
  intros H Hfd. unfold close. rewrite H. cbn.
  destruct (Z.eqb_spec fd 0); [contradiction|]. cbn. now rewrite orb_true_r.
Qed.

(** X5.  A stream whose open count has come down to zero is not refused: it
    stops the kernel.  When [stdout_count] is 1, closing a descriptor that
    holds the output sentinel (other than descriptor 0) brings the count to 0
    and leaves the sentinel in its slot, and a [write] to any descriptor that
    resolves to the output stream then runs into [NOT_REACHED] instead of
    returning -1.  Likewise for [stdin_count], the input sentinel and
    [read]. *)
Theorem closed_stream_then_io_panics (fd fd' buffer size : Z) (s : state) :
  valid buffer = true ->
  (get fd s = STDOUT -> fd <> 0 -> stdout_count s = 1 -> get fd' s = STDOUT ->
   exists s',
     sys_close fd s = Done tt s' /\ get fd' s' = STDOUT /\ stdout_count s' = 0 /\
     sys_write fd' buffer size s' = Panic) /\
  (get fd s = STDIN -> stdin_count s = 1 -> get fd' s = STDIN ->
   exists s',
     sys_close fd s = Done tt s' /\ get fd' s' = STDIN /\ stdin_count s' = 0 /\
     sys_read fd' buffer size s' = Panic).
Proof.
  intros Hv. split.
  - intros Hfd Hne Hcnt Hfd'.
    exists (set_stdout_count (stdout_count s - 1) s).
    split; [now apply close_output_sentinel|].
    split; [exact Hfd'|]. split; [cbn; lia|].
    unfold write. rewrite (check_address_valid _ _ buffer _ Hv). cbn [bind].
    change (get fd' (set_stdout_count (stdout_count s - 1) s)) with (get fd' s).
    rewrite Hfd'. cbn. rewrite Hcnt. reflexivity.
  - intros Hfd Hcnt Hfd'.
    exists (set_stdin_count (stdin_count s - 1) s).
    split; [now apply close_input_sentinel|].
    split; [exact Hfd'|]. split; [cbn; lia|].
    unfold read. rewrite (check_address_valid _ _ buffer _ Hv). cbn [bind].
    change (get fd' (set_stdin_count (stdin_count s - 1) s)) with (get fd' s).
    rewrite Hfd'. cbn. rewrite Hcnt. reflexivity.
Qed.

End Streams.

(** ** Descriptors of open files *)

Section Table.

Variable FDCOUNT_LIMIT : Z.
Variable is_user_vaddr : Z -> bool.
Variable pml4_get_page : Z -> Z.

Local Abbreviation get := (process_get_file FDCOUNT_LIMIT).
Local Abbreviation valid := (valid_uaddr is_user_vaddr pml4_get_page).
Local Abbreviation sys_open := (open FDCOUNT_LIMIT is_user_vaddr pml4_get_page).
Local Abbreviation sys_close := (close FDCOUNT_LIMIT).
Local Abbreviation sys_dup2 := (dup2 FDCOUNT_LIMIT).
Local Abbreviation sys_run := (run FDCOUNT_LIMIT is_user_vaddr pml4_get_page).

(** [close] on a descriptor from 2 on that holds an open file. *)
Lemma close_open_file (fd : Z) (fo : file) (s : state) :
  2 <= fd -> 2 < get fd s -> files s !! get fd s = Some fo ->
  sys_close fd s
  = Done tt
      (let s1 := set_fdTable (<[fd := 0]> (fdTable s)) s in
       if dupCount fo =? 0 then file_close (get fd s) s1
       else set_files (<[get fd s := mkFile (dupCount fo - 1)]> (files s)) s1).
Proof.
  intros Hfd Hreal Hfo.
  destruct (get_in_range FDCOUNT_LIMIT fd s ltac:(lia)) as [Hr _].
  unfold close.
  destruct (Z.eqb_spec (get fd s) 0); [lia|].
  destruct (Z.eqb_spec (get fd s) 1); [lia|].
  destruct (Z.eqb_spec fd 0); [lia|].
  destruct (Z.eqb_spec (get fd s) 2); [lia|].
  destruct (Z.eqb_spec fd 1); [lia|]. cbn [orb].
  destruct (Z.leb_spec fd 1); [lia|].
  destruct (Z.leb_spec (get fd s) 2); [lia|]. cbn [orb].
  unfold process_close_file.
  destruct (Z.ltb_spec fd 0); [lia|].
  destruct (Z.geb_spec fd FDCOUNT_LIMIT); [lia|]. cbn [orb files set_fdTable].
  rewrite Hfo. destruct (dupCount fo =? 0); reflexivity.
Qed.

(** X6.  Closing a descriptor of an open file twice is closing it once:
    the first [close] empties the slot, calling [file_close] at most once,
    and the second finds the slot empty and changes nothing. *)
Theorem close_twice_is_close_once (fd : Z) (s : state) :
  2 <= fd -> 2 < get fd s -> is_Some (files s !! get fd s) ->
  exists s1,
    sys_close fd s = Done tt s1 /\
    get fd s1 = 0 /\
    sys_close fd s1 = Done tt s1 /\
    (events_since s s1 = [] \/ events_since s s1 = [EvFileClose (get fd s)]).
Proof.
  intros Hfd Hreal [fo Hfo].
  destruct (get_in_range FDCOUNT_LIMIT fd s ltac:(lia)) as [Hr _].
  rewrite (close_open_file fd fo s Hfd Hreal Hfo). cbn zeta.
  eexists. split; [reflexivity|].
  assert (Hg : get fd (if dupCount fo =? 0
                       then file_close (get fd s) (set_fdTable (<[fd:=0]> (fdTable s)) s)
                       else set_files (<[get fd s:=mkFile (dupCount fo - 1)]> (files s))
                              (set_fdTable (<[fd:=0]> (fdTable s)) s)) = 0).
  { rewrite get_cell by exact Hr.
    destruct (dupCount fo =? 0); cbn; rewrite cell_insert;
      destruct (decide (fd = fd)); congruence. }
  split; [exact Hg|]. split.
  - unfold close at 1. rewrite Hg. reflexivity.
  - destruct (dupCount fo =? 0).
    + right. unfold events_since. cbn. apply drop_app_length.
    + left. unfold events_since. cbn. apply drop_all.
Qed.

(** [close] and [dup2] store in the slot they are given only. *)
Lemma close_other_cells (fd i : Z) (s s' : state) :
  sys_close fd s = Done tt s' -> i <> fd -> fdTable s' !! i = fdTable s !! i.
Proof.
  unfold close, process_close_file.
  repeat match goal with
         | |- context [if ?b then _ else _] => destruct b
         | |- context [match ?o with Some _ => _ | None => _ end] => destruct o
         end; cbn; intros Hrun Hi; try discriminate Hrun; injection Hrun as <-; cbn;
    try reflexivity; apply lookup_insert_ne; congruence.
Qed.

Lemma dup2_other_cells (oldfd newfd i : Z) (v : Z) (s s' : state) :
  sys_dup2 oldfd newfd s = Done v s' -> i <> newfd -> fdTable s' !! i = fdTable s !! i.
Proof.
  unfold dup2. intros Hrun Hi.
  destruct (_ =? 0); [injection Hrun as _ <-; reflexivity|].
  destruct (oldfd =? newfd); [injection Hrun as _ <-; reflexivity|].
  match type of Hrun with bind ?m _ = _ => destruct m as [[] s1| | | |] eqn:E1 end;
    cbn [bind] in Hrun; try discriminate Hrun.
  assert (Ht1 : fdTable s1 = fdTable s).
  { revert E1. repeat match goal with
       | |- context [if ?b then _ else _] => destruct b
       | |- context [match ?o with Some _ => _ | None => _ end] => destruct o
       end; intros E; try discriminate E; injection E as <-; reflexivity. }
  destruct (sys_close newfd s1) as [[] s2| | | |] eqn:E2; cbn [bind] in Hrun;
    try discriminate Hrun.
  injection Hrun as _ <-. cbn. rewrite lookup_insert_ne by congruence.
  rewrite (close_other_cells newfd i s1 s2 E2 Hi). now rewrite Ht1.
Qed.

(** X7.  A descriptor that resolves keeps resolving to the same resource
    through every call that returns and is not a [close] of it or a [dup2]
    onto it: [open] never hands out an occupied slot, and [close] and [dup2]
    store in their own slot only. *)
Theorem other_calls_keep_descriptor (fd : Z) (c : call) (v : Z) (s s' : state) :
  get fd s <> 0 ->
  sys_run c s = Done v s' ->
  match c with
  | Open _ _ => True
  | Close fd' => fd' <> fd
  | Dup2 oldfd newfd => newfd <> fd
  end ->
  get fd s' = get fd s /\ (forall name h, c = Open name h -> v <> fd).
Proof.
  intros Hres Hrun Hc.
  destruct (get_in_range FDCOUNT_LIMIT fd s Hres) as [Hr Hg].
  assert (Hkeep : fdTable s' !! fd = fdTable s !! fd -> get fd s' = get fd s).
  { intros H. rewrite !get_cell by exact Hr. unfold cell. now rewrite H. }
  destruct c as [name h | fd' | oldfd newfd]; cbn [run] in Hrun.
  - unfold open in Hrun.
    destruct (check_address_cases is_user_vaddr pml4_get_page name s) as [Hok|Hbad];
      [rewrite Hok in Hrun | rewrite Hbad in Hrun; discriminate Hrun].
    cbn [bind] in Hrun.
    destruct (Z.eqb_spec h 0) as [E0|E0].
    { injection Hrun as <- <-. split; [reflexivity|]. intros _ _ _. lia. }
    set (s1 := set_files (<[h:=mkFile 0]> (files s)) s) in *.
    destruct (process_add_file_cases FDCOUNT_LIMIT h s1)
      as [(j & Hj & _ & Hfree & Hadd) | (_ & Hadd)]; rewrite Hadd in Hrun.
    + assert (Hjfd : j <> fd).
      { intros ->. rewrite Hg in Hres. apply Hres. exact Hfree. }
      destruct (j =? -1); injection Hrun as <- <-.
      * split; [|intros _ _ _; exact Hjfd]. apply Hkeep. cbn.
        apply lookup_insert_ne. exact Hjfd.
      * split; [|intros _ _ _; exact Hjfd]. apply Hkeep. cbn.
        apply lookup_insert_ne. exact Hjfd.
    + change (-1 =? -1) with true in Hrun. cbn iota in Hrun.
      injection Hrun as <- <-. split; [reflexivity|]. intros _ _ _. lia.
  - destruct (sys_close fd' s) as [[] s1| | | |] eqn:E; cbn [bind] in Hrun;
      try discriminate Hrun.
    injection Hrun as _ <-. split; [|discriminate].
    apply Hkeep. apply (close_other_cells fd' fd s s1 E). congruence.
  - split; [|discriminate].
    apply Hkeep. apply (dup2_other_cells oldfd newfd fd v s s' Hrun). congruence.
Qed.

(** The first half of [dup2], by what [oldfd] resolves to. *)
Lemma dup2_first_half (f : Z) (s : state) :
  f = 1 \/ f = 2 \/ (2 < f /\ is_Some (files s !! f)) ->
  exists s1,
    (if f =? 1
     then Done tt (set_stdin_count (stdin_count s + 1) s)
     else if f =? 2
     then Done tt (set_stdout_count (stdout_count s + 1) s)
     else match files s !! f with
          | None => Fault
          | Some fo => Done tt (set_files (<[f := mkFile (dupCount fo + 1)]> (files s)) s)
          end) = Done tt s1 /\
    fdTable s1 = fdTable s /\ trace s1 = trace s /\
    (forall g, g <> f -> files s1 !! g = files s !! g).
Proof.
  intros [->|[->|[Hf [fo Hfo]]]].
  - eexists. split; [reflexivity|]. auto.
  - eexists. split; [reflexivity|]. auto.
  - destruct (Z.eqb_spec f 1); [lia|]. destruct (Z.eqb_spec f 2); [lia|].
    rewrite Hfo. eexists. split; [reflexivity|]. cbn.
    repeat split. intros g Hg. apply lookup_insert_ne. congruence.
Qed.

Lemma resolved_cases (fd : Z) (s : state) :
  cells_ok FDCOUNT_LIMIT s -> get fd s <> 0 ->
  get fd s = 1 \/ get fd s = 2 \/ (2 < get fd s /\ is_Some (files s !! get fd s)).
Proof.
  intros Hc Hres. destruct (get_in_range FDCOUNT_LIMIT fd s Hres) as [Hr Hg].
  destruct (Hc fd Hr) as [Hnn Hlive]. rewrite <- Hg in Hnn, Hlive.
  destruct (Z.eq_dec (get fd s) 1); [auto|].
  destruct (Z.eq_dec (get fd s) 2); [auto|].
  right. right. split; [lia|]. apply Hlive. lia.
Qed.

(** X8.  [dup2] onto a descriptor (from 2 on) that holds another open file
    closes that file's slot by the normal rule: in a well-formed table with
    exact alias counts the file is released, by one call of [file_close],
    exactly when the target was the only slot pointing at it; otherwise its
    alias count goes down by one and nothing is released.  Either way both
    descriptors then resolve to what [oldfd] resolved to. *)
Theorem dup2_onto_open_file (a b : Z) (s : state) :
  well_formed FDCOUNT_LIMIT s -> alias_count_exact FDCOUNT_LIMIT s ->
  a <> b -> get a s <> 0 ->
  2 <= b -> 2 < get b s -> get b s <> get a s ->
  exists s',
    sys_dup2 a b s = Done b s' /\
    get a s' = get a s /\ get b s' = get a s /\
    ((aliases FDCOUNT_LIMIT s (get b s) = 1 /\
      events_since s s' = [EvFileClose (get b s)] /\
      files s' !! get b s = None)
     \/
     (1 < aliases FDCOUNT_LIMIT s (get b s) /\
      events_since s s' = [] /\
      exists go, files s !! get b s = Some go /\
                 files s' !! get b s = Some (mkFile (dupCount go - 1)))).
Proof.
  intros (_ & Hc & _) Hex Hne Ha Hb Hg Hdiff.
  destruct (get_in_range FDCOUNT_LIMIT a s Ha) as [Hra Hga].
  destruct (get_in_range FDCOUNT_LIMIT b s ltac:(lia)) as [Hrb Hgb].
  set (f := get a s) in *. set (g := get b s) in *.
  destruct (resolved_cases b s Hc ltac:(fold g; lia)) as [?|[?|[_ [go Hgo]]]];
    [fold g in H; lia | fold g in H; lia |]. fold g in Hgo.
  destruct (dup2_first_half f s (resolved_cases a s Hc Ha))
    as (s1 & Hinc & Ht1 & Htr1 & Hf1).
  assert (Hgb1 : get b s1 = g).
  { rewrite get_cell by exact Hrb. rewrite Ht1. symmetry. exact Hgb. }
  assert (Hgo1 : files s1 !! get b s1 = Some go).
  { rewrite Hgb1, Hf1 by exact Hdiff. exact Hgo. }
  pose proof (close_open_file b go s1 Hb ltac:(lia) Hgo1) as Hclose.
  cbn zeta in Hclose. rewrite Hgb1 in Hclose.
  pose proof (Hex g go Hgo) as Hcount.
  pose proof (aliases_pos FDCOUNT_LIMIT s g b Hrb (eq_sym Hgb)) as Hpos.
  unfold dup2. fold f.
  destruct (Z.eqb_spec f 0); [contradiction|].
  destruct (Z.eqb_spec a b); [contradiction|].
  rewrite Hinc. cbn [bind]. rewrite Hclose. cbn [bind].
  eexists. split; [reflexivity|].
  assert (Hcells : forall t0, cell (<[b:=f]> (<[b:=0]> t0)) b = f /\
                             (cell t0 a = f -> cell (<[b:=f]> (<[b:=0]> t0)) a = f)).
  { intros t0. rewrite !cell_insert.
    destruct (decide (b = b)), (decide (b = a)); try congruence. auto. }
  destruct (Z.eqb_spec (dupCount go) 0) as [Ez|Ez].
  - split; [|split].
    + rewrite get_cell by exact Hra. cbn. apply Hcells. rewrite Ht1. now symmetry.
    + rewrite get_cell by exact Hrb. cbn. apply Hcells.
    + left. split; [lia|]. split.
      * apply events_since_app. cbn. now rewrite Htr1.
      * cbn. apply lookup_delete_eq.
  - split; [|split].
    + rewrite get_cell by exact Hra. cbn. apply Hcells. rewrite Ht1. now symmetry.
    + rewrite get_cell by exact Hrb. cbn. apply Hcells.
    + right. split; [lia|]. split.
      * apply events_since_app. cbn. now rewrite Htr1, app_nil_r.
      * exists go. split; [exact Hgo|]. cbn. apply lookup_insert_eq.
Qed.

(** X9.  [dup2 (a, b)] changes nothing when [b] (from 2 on) already
    resolves to what [a] resolves to: in a well-formed table with the alias
    counts bounded it returns [b] in the very state it was called in, so that
    a [dup2] done twice is a [dup2] done once. *)
Theorem dup2_onto_alias_is_noop (a b : Z) (s : state) :
  well_formed FDCOUNT_LIMIT s -> alias_count_bound FDCOUNT_LIMIT s ->
  a <> b -> get a s <> 0 -> 2 <= b -> get b s = get a s ->
  sys_dup2 a b s = Done b s.
Proof.
  intros (_ & Hc & _) Hbd Hne Ha Hb Hsame.
  destruct (get_in_range FDCOUNT_LIMIT a s Ha) as [Hra Hga].
  destruct (get_in_range FDCOUNT_LIMIT b s ltac:(congruence)) as [Hrb Hgb].
  assert (Hlk : fdTable s !! b = Some (get a s)).
  { assert (Hcb : cell (fdTable s) b = get a s) by congruence.
    unfold cell in Hcb. destruct (fdTable s !! b) as [x|]; cbn in Hcb; congruence. }
  unfold dup2.
  destruct (Z.eqb_spec (get a s) 0); [contradiction|].
  destruct (Z.eqb_spec a b); [contradiction|].
  destruct (resolved_cases a s Hc Ha) as [E|[E|[Hreal [fo Hfo]]]].
  - destruct (Z.eqb_spec (get a s) 1); [|contradiction]. cbn [bind].
    rewrite (close_input_sentinel FDCOUNT_LIMIT b (set_stdin_count (stdin_count s + 1) s))
      by exact (eq_trans Hsame E).
    cbn [bind]. f_equal. destruct s.
    unfold set_fdTable, set_stdin_count, set_stdout_count in *. cbn in *.
    f_equal; first [lia | apply insert_id; exact Hlk].
  - destruct (Z.eqb_spec (get a s) 1); [lia|].
    destruct (Z.eqb_spec (get a s) 2); [|contradiction]. cbn [bind].
    rewrite (close_output_sentinel FDCOUNT_LIMIT b (set_stdout_count (stdout_count s + 1) s))
      by first [exact (eq_trans Hsame E) | lia].
    cbn [bind]. f_equal. destruct s.
    unfold set_fdTable, set_stdin_count, set_stdout_count in *. cbn in *.
    f_equal; first [lia | apply insert_id; exact Hlk].
  - destruct (Z.eqb_spec (get a s) 1); [lia|]. destruct (Z.eqb_spec (get a s) 2); [lia|].
    rewrite Hfo. cbn [bind].
    set (s1 := set_files (<[get a s:=mkFile (dupCount fo + 1)]> (files s)) s).
    assert (Hgb1 : get b s1 = get a s) by exact Hsame.
    rewrite (close_open_file b (mkFile (dupCount fo + 1)) s1 Hb);
      [| rewrite Hgb1; exact Hreal | rewrite Hgb1; cbn; apply lookup_insert_eq].
    cbn zeta. cbn [bind dupCount]. rewrite Hgb1.
    pose proof (Hbd _ _ Hfo) as Hle.
    pose proof (aliases_two FDCOUNT_LIMIT s (get a s) a b Hra Hrb Hne Ha
                  (eq_sym Hga) ltac:(congruence)) as H2.
    destruct (Z.eqb_spec (dupCount fo + 1) 0); [lia|].
    f_equal. destruct s as [t i ci co es fs um ip tr].
    unfold set_fdTable, set_files, s1 in *. cbn in *. f_equal.
    + rewrite insert_insert_eq. apply insert_id. exact Hlk.
    + rewrite insert_insert_eq. apply insert_id.
      rewrite Hfo. f_equal. destruct fo as [d]. cbn. f_equal. lia.
Qed.

(** X10.  [open] with a name that passes and a new object from the
    filesystem either returns a descriptor that was empty, and that now
    resolves to the object, open with alias count 0 and one slot pointing at
    it; or it returns -1 because no slot from the mark on is empty, and has
    then closed the object again with table and open files as before: a
    failed [open] leaves no file open. *)
Theorem open_installs_or_releases (name h : Z) (s : state) :
  well_formed FDCOUNT_LIMIT s -> alias_count_bound FDCOUNT_LIMIT s ->
  valid name = true -> 2 < h -> files s !! h = None ->
  exists fd s',
    sys_open name h s = Done fd s' /\
    ((0 <= fd < FDCOUNT_LIMIT /\ get fd s = 0 /\ get fd s' = h /\
      files s' !! h = Some (mkFile 0) /\ aliases FDCOUNT_LIMIT s' h = 1 /\
      events_since s s' = [])
     \/
     (fd = -1 /\
      (forall i, fdIdx s <= i < FDCOUNT_LIMIT -> get i s <> 0) /\
      fdTable s' = fdTable s /\ files s' = files s /\
      events_since s s' = [EvFileClose h])).
Proof.
  intros Hwf Hbd Hname Hh Hfresh.
  assert (Hinv : table_inv FDCOUNT_LIMIT false 0 s) by (apply table_inv_bound_iff; auto).
  destruct (open_effect FDCOUNT_LIMIT is_user_vaddr pml4_get_page false name h s Hinv
              ltac:(auto) Hname)
    as (fd & s' & Hrun & Hinv' & _ & Hcase).
  destruct Hwf as (Hidx & _).
  exists fd, s'. split; [exact Hrun|].
  destruct Hcase as [(Hfd & Ht & Hf & [(Hz & _) | (_ & Hfull & Htr)])
                    | (Hfd & _ & _ & Hfree & Ht & Hf & _ & Htr)].
  - lia.
  - right. split; [exact Hfd|]. split.
    { intros i Hi. rewrite get_cell by lia. now apply Hfull. }
    split; [exact Ht|]. split; [exact Hf|]. now apply events_since_app.
  - left. assert (Hr : 0 <= fd < FDCOUNT_LIMIT) by lia.
    split; [exact Hr|].
    split; [rewrite get_cell by exact Hr; exact Hfree|].
    assert (Hget : get fd s' = h).
    { rewrite get_cell by exact Hr. rewrite Ht, cell_insert.
      destruct (decide (fd = fd)); congruence. }
    split; [exact Hget|].
    assert (Hlive : files s' !! h = Some (mkFile 0)) by (rewrite Hf; apply lookup_insert_eq).
    split; [exact Hlive|]. split.
    + apply table_inv_bound_iff in Hinv' as [_ Hbd'].
      pose proof (Hbd' h _ Hlive) as Hle. cbn in Hle.
      pose proof (aliases_pos FDCOUNT_LIMIT s' h fd Hr) as Hpos.
      rewrite get_cell in Hget by exact Hr. specialize (Hpos Hget). lia.
    + apply events_since_app. now rewrite app_nil_r.
Qed.

End Table.

(** ** Closed instances on the sample machine *)

Definition sample_filesys_create (file size : Z) (s : state) : bool * state := (true, s).
Definition sample_filesys_remove (file : Z) (s : state) : bool * state := (true, s).
Definition sample_file_length (f : Z) (s : state) : Z := 0.

(** Descriptor 2 of [two_files] duplicated onto descriptor 5. *)
Definition aliased : state := after [Dup2 2 5] two_files.


Lemma after_call_inv (c : call) (s : state) :
  table_inv sample_limit true 0 s ->
  admissible sample_limit s c -> spares_low_files sample_limit s c ->
  (exists v s', sample_run c s = Done v s') ->
  table_inv sample_limit true 0 (after [c] s).
Proof.
  intros Hinv Ha Hk (v & s' & Hrun).
  destruct (run_effect sample_limit sample_is_user_vaddr sample_pml4_get_page
              true c s Hinv Ha (fun _ => Hk))
    as [(v' & s'' & Hrun' & Hinv' & _) | (s'' & Hrun' & _)]; [|congruence].
  cbn [after]. rewrite Hrun'. exact Hinv'.
Qed.

Lemma two_files_inv : table_inv sample_limit true 0 two_files.
Proof.
  change two_files with (after [Open 4096 200] (after [Open 4096 100] init_state)).
  apply after_call_inv.
  - apply after_call_inv.
    + apply init_state_inv.
    + right. split; [lia | reflexivity].
    + exact I.
    + eexists _, _. vm_compute. reflexivity.
  - right. split; [lia | vm_compute; reflexivity].
  - exact I.
  - eexists _, _. vm_compute. reflexivity.
Qed.

Lemma aliased_inv : table_inv sample_limit true 0 aliased.
Proof.
  apply after_call_inv.
  - apply two_files_inv.
  - right. unfold sample_limit. lia.
  - right. right. left. lia.
  - eexists _, _. vm_compute. reflexivity.
Qed.

Lemma rejected_pointer_exits_witness :
  exists s',
    sample_open 0 100 init_state = Exit s' /\
    sample_read 0 0 5 init_state = Exit s' /\
    exit_status s' = -1 /\ fdTable s' = fdTable init_state.
Proof.
  destruct (rejected_pointer_exits sample_limit sample_is_user_vaddr sample_pml4_get_page
              sample_input_getc sample_file_io sample_file_io
              sample_filesys_create sample_filesys_remove 0 init_state eq_refl)
    as (s' & Ho & Hr & _ & _ & _ & He & _ & Ht & _).
  exists s'. split; [apply Ho|]. split; [apply Hr|]. auto.
Defined.

Lemma unresolved_descriptor_fails_witness :
  sample_read 5 4096 3 init_state = Done (-1) init_state /\
  sample_dup2 5 0 init_state = Done (-1) init_state.
Proof.
  destruct (unresolved_descriptor_fails sample_limit sample_is_user_vaddr
              sample_pml4_get_page sample_input_getc sample_file_io sample_file_io
              sample_file_length 5 4096 init_state)
    as (Hr & _ & _ & _ & Hd).
  - right. right. reflexivity.
  - reflexivity.
  - split; [apply Hr | apply Hd].
Defined.


Lemma close_of_stream_descriptor_witness :
  exists s',
    sample_close 0 init_state = Done tt s' /\
    process_get_file sample_limit 0 s' = STDIN /\ stdin_count s' = 0.
Proof.
  destruct (close_of_stream_descriptor sample_limit 0 init_state)
    as (s' & Hrun & _ & Hg & _ & _ & _ & Hin & _).
  - vm_compute. discriminate.
  - vm_compute. discriminate.
  - left. lia.
  - exists s'. split; [exact Hrun|]. split; [exact Hg|].
    destruct Hin as [-> _]; [now left | reflexivity].
Defined.

Lemma closed_stream_then_io_panics_witness :
  exists s',
    sample_close 1 init_state = Done tt s' /\
    sample_write 1 4096 5 s' = Panic.
Proof.
  destruct (closed_stream_then_io_panics sample_limit sample_is_user_vaddr
              sample_pml4_get_page sample_input_getc sample_file_io sample_file_io
              1 1 4096 5 init_state eq_refl) as [Hout _].
  destruct Hout as (s' & Hc & _ & _ & Hw); try reflexivity; [lia|].
  exists s'. auto.
Defined.

Lemma close_twice_is_close_once_witness :
  exists s1,
    sample_close 2 two_files = Done tt s1 /\
    process_get_file sample_limit 2 s1 = 0 /\
    sample_close 2 s1 = Done tt s1.
Proof.
  destruct (close_twice_is_close_once sample_limit 2 two_files)
    as (s1 & H1 & H2 & H3 & _).
  - lia.
  - vm_compute. reflexivity.
  - vm_compute. eauto.
  - exists s1. auto.
Defined.

Lemma other_calls_keep_descriptor_witness :
  process_get_file sample_limit 2 (after [Close 3] two_files)
  = process_get_file sample_limit 2 two_files.
Proof.
  apply (other_calls_keep_descriptor sample_limit sample_is_user_vaddr
           sample_pml4_get_page 2 (Close 3) 0 two_files (after [Close 3] two_files)).
  - vm_compute. discriminate.
  - vm_compute. reflexivity.
  - cbn. lia.
Defined.

Lemma dup2_onto_open_file_witness :
  exists s',
    sample_dup2 2 3 two_files = Done 3 s' /\
    process_get_file sample_limit 3 s' = 100 /\
    events_since two_files s' = [EvFileClose 200].
Proof.
  pose proof two_files_inv as Hinv. apply table_inv_exact_iff in Hinv as (Hwf & Hex).
  destruct (dup2_onto_open_file sample_limit 2 3 two_files Hwf Hex)
    as (s' & Hrun & _ & Hg & [(_ & Hev & _) | (Hmany & _)]).
  - lia.
  - vm_compute. discriminate.
  - lia.
  - vm_compute. reflexivity.
  - vm_compute. discriminate.
  - exists s'. split; [exact Hrun|]. split; [exact Hg | exact Hev].
  - exfalso. vm_compute in Hmany. discriminate Hmany.
Defined.

Lemma dup2_onto_alias_is_noop_witness :
  sample_dup2 2 5 aliased = Done 5 aliased.
Proof.
  pose proof aliased_inv as Hinv.
  apply table_inv_weaken, table_inv_bound_iff in Hinv as (Hwf & Hbd).
  apply (dup2_onto_alias_is_noop sample_limit 2 5 aliased Hwf Hbd).
  - lia.
  - vm_compute. discriminate.
  - lia.
  - vm_compute. reflexivity.
Defined.

Lemma open_installs_or_releases_witness :
  exists fd s',
    sample_open 4096 100 init_state = Done fd s' /\
    (process_get_file sample_limit fd s' = 100 \/ fd = -1).
Proof.
  destruct (init_state_well_formed sample_limit) as [Hwf Hbd].
  destruct (open_installs_or_releases sample_limit sample_is_user_vaddr
              sample_pml4_get_page 4096 100 init_state Hwf Hbd)
    as (fd & s' & Hrun & [(_ & _ & Hg & _) | (Hm & _)]).
  - reflexivity.
  - lia.
  - reflexivity.
  - exists fd, s'. auto.
  - exists fd, s'. auto.
Defined.

End SyscallMore.

(** * Further properties of the swap slots *)

Module AnonMore.
Import Anon AnonSpec.

Section Slots.

Variable PGSIZE : Z.
Variable DISK_SECTOR_SIZE : Z.
Variable INVALID_SLOT_IDX : Z.

Hypothesis sector_size_pos : 0 < DISK_SECTOR_SIZE.
Hypothesis page_size_pos : 0 < PGSIZE.

Local Abbreviation SPP := (SECTORS_PER_PAGE PGSIZE DISK_SECTOR_SIZE).
Local Abbreviation swap_in := (anon_swap_in PGSIZE DISK_SECTOR_SIZE INVALID_SLOT_IDX).
Local Abbreviation swap_out := (anon_swap_out PGSIZE DISK_SECTOR_SIZE).
Local Abbreviation destroy := (anon_destroy INVALID_SLOT_IDX).

(** The number of bytes of a slot on the disk. *)
Definition slot_bytes : Z := SPP * DISK_SECTOR_SIZE.

Lemma slot_bytes_pos : 0 < slot_bytes.
Proof.
  pose proof (SPP_pos PGSIZE DISK_SECTOR_SIZE sector_size_pos page_size_pos).
  unfold slot_bytes. nia.
Qed.

Lemma page_in_slot : PGSIZE <= slot_bytes.
Proof. apply SPP_covers_page; assumption. Qed.

(** Different slots have no byte in common. *)
Lemma slots_disjoint (k k' o o' : Z) :
  k <> k' -> 0 <= o < slot_bytes -> 0 <= o' < slot_bytes ->
  k * slot_bytes + o <> k' * slot_bytes + o'.
Proof. intros Hk Ho Ho'. nia. Qed.

Lemma first_clear_all_set (b : list bool) (i : Z) :
  (forall j, (j < length b)%nat -> b !! j = Some true) -> first_clear b i = None.
Proof.
  revert i. induction b as [|x b IH]; intros i H; [reflexivity|].
  pose proof (H 0%nat ltac:(cbn; lia)) as H0. cbn in H0. injection H0 as ->.
  cbn. apply IH. intros j Hj. apply (H (S j)). cbn. lia.
Qed.

(** What a successful [anon_swap_out] does to the state. *)
Lemma swap_out_effect (p : page) (fr : frame) (s : vm) (k : Z) :
  Z.of_nat (length (swap_table s)) * SPP <= 2 ^ 32 ->
  frame_ptr p <> 0 -> frames s !! frame_ptr p = Some fr -> kva fr <> 0 ->
  first_clear (swap_table s) 0 = Some k ->
  exists s1,
    swap_out (Some p) s
      = Done (true, Some (set_frame_ptr 0 (set_swap_slot_idx k p)), s1) /\
    0 <= k < Z.of_nat (length (swap_table s)) /\
    swap_table s !! Z.to_nat k = Some false /\
    swap_table s1 = <[Z.to_nat k := true]> (swap_table s) /\
    kmem s1 = kmem s /\ frames s1 = frames s /\ frame_list s1 = frame_list s /\
    forall x,
      byte_at (swap_disk s1) x
      = if decide (k * slot_bytes <= x < k * slot_bytes + slot_bytes)
        then byte_at (kmem s) (kva fr + (x - k * slot_bytes))
        else byte_at (swap_disk s) x.
Proof.
  intros Hfit Hfp Hfr Hkva Hfc.
  pose proof (SPP_pos PGSIZE DISK_SECTOR_SIZE sector_size_pos page_size_pos) as Hspp.
  destruct (first_clear_spec _ _ _ Hfc) as (Hk & Hbit & _).
  rewrite Z.sub_0_r in Hbit.
  assert (Hkfit : (k + 1) * SPP <= 2 ^ 32) by nia.
  set (s0 := set_swap_table (<[Z.to_nat k := true]> (swap_table s)) s).
  destruct (write_sectors_spec PGSIZE DISK_SECTOR_SIZE sector_size_pos page_size_pos
              (Z.to_nat SPP) 0 k (kva fr) s0)
    as (Wt & Wm & Wf & Wl & _ & Wd); try lia.
  eexists. split.
  { unfold anon_swap_out, bitmap_scan_and_flip. rewrite Hfc.
    destruct (Z.eqb_spec k BITMAP_ERROR) as [E|_]; [unfold BITMAP_ERROR in E; nia|].
    destruct (Z.eqb_spec (frame_ptr p) 0) as [E|_]; [contradiction|].
    cbn [frames set_swap_table]. rewrite Hfr.
    destruct (Z.eqb_spec (kva fr) 0) as [E|_]; [contradiction|]. reflexivity. }
  split; [lia|]. split; [exact Hbit|].
  cbn [swap_table kmem frames frame_list swap_disk emit].
  split; [exact Wt|]. split; [exact Wm|]. split; [exact Wf|]. split; [exact Wl|].
  intros x. rewrite Wd. rewrite Z2Nat.id by lia. unfold slot_bytes.
  cbn [kmem swap_disk s0 set_swap_table].
  repeat case_decide; try lia; try reflexivity. f_equal. lia.
Qed.

(** What a successful [anon_swap_in] does to the state. *)
Lemma swap_in_effect (p : page) (target_kva : Z) (s : vm) :
  Z.of_nat (length (swap_table s)) * SPP <= 2 ^ 32 ->
  swap_slot_idx p <> INVALID_SLOT_IDX ->
  0 <= swap_slot_idx p < Z.of_nat (length (swap_table s)) ->
  exists s2,
    swap_in p target_kva s = Done (true, set_swap_slot_idx INVALID_SLOT_IDX p, s2) /\
    swap_table s2 = <[Z.to_nat (swap_slot_idx p) := false]> (swap_table s) /\
    swap_disk s2 = swap_disk s /\ frames s2 = frames s /\ frame_list s2 = frame_list s /\
    forall x,
      byte_at (kmem s2) x
      = if decide (target_kva <= x < target_kva + slot_bytes)
        then byte_at (swap_disk s) (swap_slot_idx p * slot_bytes + (x - target_kva))
        else byte_at (kmem s) x.
Proof.
  intros Hfit Hvalid Hrange.
  pose proof (SPP_pos PGSIZE DISK_SECTOR_SIZE sector_size_pos page_size_pos) as Hspp.
  set (k := swap_slot_idx p) in *.
  assert (Hkfit : (k + 1) * SPP <= 2 ^ 32) by nia.
  destruct (read_sectors_spec PGSIZE DISK_SECTOR_SIZE sector_size_pos page_size_pos
              (Z.to_nat SPP) 0 k target_kva s)
    as (Rt & Rd & Rf & Rl & _ & Rm); try lia.
  eexists. split.
  { unfold anon_swap_in. fold k.
    destruct (Z.eqb_spec k INVALID_SLOT_IDX) as [E|_]; [contradiction|].
    unfold bitmap_set. rewrite Rt.
    destruct (Z.leb_spec 0 k); [|lia].
    destruct (Z.ltb_spec k (Z.of_nat (length (swap_table s)))); [|lia].
    cbn [andb]. reflexivity. }
  cbn [swap_table kmem frames frame_list swap_disk set_swap_table].
  split; [reflexivity|]. split; [exact Rd|]. split; [exact Rf|]. split; [exact Rl|].
  intros x. rewrite Rm. rewrite Z2Nat.id by lia. unfold slot_bytes.
  repeat case_decide; try lia; try reflexivity. f_equal. lia.
Qed.

(** ** The bitmap and the disk *)

(** X11.  For a swap disk of [num_sector] sectors (a 32-bit count)
    [vm_anon_init] creates a bitmap of [num_sector / SECTORS_PER_PAGE] bits,
    all clear, and every sector of every slot of that bitmap is a sector of
    the disk: its number is [slot * SECTORS_PER_PAGE + i] without wrap-around
    and below [num_sector].  A disk smaller than a page gives an empty
    bitmap. *)
Theorem swap_slots_lie_on_the_disk (num_sector : Z) (s : vm) :
  0 <= num_sector < 2 ^ 32 ->
  let b := swap_table (vm_anon_init PGSIZE DISK_SECTOR_SIZE num_sector s) in
  Z.of_nat (length b) = num_sector / SPP /\
  (forall j, (j < length b)%nat -> b !! j = Some false) /\
  (forall slot i,
     0 <= slot < Z.of_nat (length b) -> 0 <= i < SPP ->
     sector_of PGSIZE DISK_SECTOR_SIZE slot i = slot * SPP + i /\
     0 <= sector_of PGSIZE DISK_SECTOR_SIZE slot i < num_sector) /\
  (num_sector < SPP -> b = []).
Proof.
  intros Hn. cbn zeta.
  pose proof (SPP_pos PGSIZE DISK_SECTOR_SIZE sector_size_pos page_size_pos) as Hspp.
  unfold vm_anon_init, bitmap_create. cbn [swap_table set_swap_table].
  rewrite length_replicate.
  assert (Hq : 0 <= num_sector / SPP) by (apply Z.div_pos; lia).
  pose proof (Z.mul_div_le num_sector SPP ltac:(lia)) as Hle.
  split; [lia|]. split; [intros j Hj; now apply lookup_replicate_2|]. split.
  - intros slot i Hslot Hi. rewrite Z2Nat.id in Hslot by lia.
    assert (Hfit : (slot + 1) * SPP <= num_sector) by nia.
    rewrite (sector_of_small PGSIZE DISK_SECTOR_SIZE sector_size_pos page_size_pos)
      by lia.
    split; [reflexivity | nia].
  - intros Hsmall. rewrite Z.div_small by lia. reflexivity.
Qed.

(** X12.  When every bit of the bitmap is set (also when the bitmap is
    empty), [anon_swap_out] stops the kernel whatever page it is given,
    before anything is written. *)
Theorem swap_out_exhausted_panics (pg : option page) (s : vm) :
  (forall j, (j < length (swap_table s))%nat -> swap_table s !! j = Some true) ->
  swap_out pg s = Panic.
Proof.
  intros Hfull. unfold anon_swap_out, bitmap_scan_and_flip.
  rewrite (first_clear_all_set _ 0 Hfull). reflexivity.
Qed.

(** X13.  A successful [anon_swap_out] takes the first clear bit [k] and
    writes to the bytes of slot [k] only: they now hold the frame, every
    byte of the disk outside slot [k], so every other slot, is as it was, as
    are kernel memory, the frames and every other bit of the bitmap. *)
Theorem swap_out_writes_its_slot_only (p : page) (fr : frame) (s : vm) (k : Z) :
  Z.of_nat (length (swap_table s)) * SPP <= 2 ^ 32 ->
  resident p -> frames s !! frame_ptr p = Some fr -> kva fr <> 0 ->
  first_clear (swap_table s) 0 = Some k ->
  exists p1 s1,
    swap_out (Some p) s = Done (true, Some p1, s1) /\
    swap_slot_idx p1 = k /\
    (forall j, (j < Z.to_nat k)%nat -> swap_table s !! j = Some true) /\
    (forall o, 0 <= o < slot_bytes ->
       byte_at (swap_disk s1) (k * slot_bytes + o) = byte_at (kmem s) (kva fr + o)) /\
    (forall x, ~ (k * slot_bytes <= x < k * slot_bytes + slot_bytes) ->
       byte_at (swap_disk s1) x = byte_at (swap_disk s) x) /\
    (forall k' o, k' <> k -> 0 <= o < slot_bytes ->
       byte_at (swap_disk s1) (k' * slot_bytes + o)
       = byte_at (swap_disk s) (k' * slot_bytes + o)) /\
    (forall j, j <> Z.to_nat k -> swap_table s1 !! j = swap_table s !! j) /\
    kmem s1 = kmem s /\ frames s1 = frames s /\ frame_list s1 = frame_list s.
Proof.
  intros Hfit Hres Hfr Hkva Hfc.
  destruct (swap_out_effect p fr s k Hfit Hres Hfr Hkva Hfc)
    as (s1 & Hrun & Hk & Hbit & Ht & Hm & Hf & Hl & Hd).
  destruct (first_clear_spec _ _ _ Hfc) as (_ & _ & Hbefore).
  rewrite Z.sub_0_r in Hbefore.
  exists (set_frame_ptr 0 (set_swap_slot_idx k p)), s1.
  split; [exact Hrun|]. split; [reflexivity|]. split; [exact Hbefore|].
  split; [|split; [|split; [|split]]].
  - intros o Ho. rewrite Hd. destruct (decide _); [f_equal; lia | lia].
  - intros x Hx. rewrite Hd. destruct (decide _); [contradiction | reflexivity].
  - intros k' o Hk' Ho. rewrite Hd. destruct (decide _) as [Hin|]; [|reflexivity].
    exfalso. apply (slots_disjoint k' k o (k' * slot_bytes + o - k * slot_bytes) Hk' Ho); lia.
  - intros j Hj. rewrite Ht. apply list_lookup_insert_ne. congruence.
  - auto.
Qed.

(** X14.  A successful [anon_swap_in] copies the bytes of the page's slot
    into the target buffer and writes nowhere else in memory; the disk is not
    written at all, the slot's bit is cleared and every other bit kept, and
    the page is handed back with the invalid slot id.  The buffer written is
    a whole number of sectors, [SECTORS_PER_PAGE * DISK_SECTOR_SIZE] bytes. *)
Theorem swap_in_writes_its_buffer_only (p : page) (target_kva : Z) (s : vm) :
  Z.of_nat (length (swap_table s)) * SPP <= 2 ^ 32 ->
  swap_slot_idx p <> INVALID_SLOT_IDX ->
  0 <= swap_slot_idx p < Z.of_nat (length (swap_table s)) ->
  exists p2 s2,
    swap_in p target_kva s = Done (true, p2, s2) /\
    swap_slot_idx p2 = INVALID_SLOT_IDX /\ frame_ptr p2 = frame_ptr p /\
    (forall o, 0 <= o < slot_bytes ->
       byte_at (kmem s2) (target_kva + o)
       = byte_at (swap_disk s) (swap_slot_idx p * slot_bytes + o)) /\
    (forall x, ~ (target_kva <= x < target_kva + slot_bytes) ->
       byte_at (kmem s2) x = byte_at (kmem s) x) /\
    swap_disk s2 = swap_disk s /\
    swap_table s2 !! Z.to_nat (swap_slot_idx p) = Some false /\
    (forall j, j <> Z.to_nat (swap_slot_idx p) -> swap_table s2 !! j = swap_table s !! j) /\
    frames s2 = frames s /\ frame_list s2 = frame_list s.
Proof.
  intros Hfit Hvalid Hrange.
  destruct (swap_in_effect p target_kva s Hfit Hvalid Hrange)
    as (s2 & Hrun & Ht & Hd & Hf & Hl & Hm).
  exists (set_swap_slot_idx INVALID_SLOT_IDX p), s2.
  split; [exact Hrun|]. split; [reflexivity|]. split; [reflexivity|].
  split; [|split; [|split; [exact Hd|split; [|split]]]].
  - intros o Ho. rewrite Hm. destruct (decide _); [f_equal; lia | lia].
  - intros x Hx. rewrite Hm. destruct (decide _); [contradiction | reflexivity].
  - rewrite Ht. apply list_lookup_insert_eq. lia.
  - intros j Hj. rewrite Ht. apply list_lookup_insert_ne. congruence.
  - auto.
Qed.

(** ** Several pages *)

(** X15.  Two resident pages swapped out one after the other get different
    slots, and when both are swapped in again (the second one first), into
    target buffers that do not overlap, each buffer holds the bytes its page
    had in its frame when the first was swapped out, and the bitmap is as it
    was: pages in the swap area do not disturb each other. *)
Theorem two_pages_swap_independently
    (pa pb : page) (fa fb : frame) (s : vm) (ka kb ta tb : Z) :
  ~ (0 <= INVALID_SLOT_IDX < Z.of_nat (length (swap_table s))) ->
  Z.of_nat (length (swap_table s)) * SPP <= 2 ^ 32 ->
  resident pa -> frames s !! frame_ptr pa = Some fa -> kva fa <> 0 ->
  resident pb -> frames s !! frame_ptr pb = Some fb -> kva fb <> 0 ->
  first_clear (swap_table s) 0 = Some ka ->
  first_clear (<[Z.to_nat ka := true]> (swap_table s)) 0 = Some kb ->
  ta + slot_bytes <= tb \/ tb + slot_bytes <= ta ->
  exists pa1 s1 pb1 s2 pb2 s3 pa2 s4,
    swap_out (Some pa) s = Done (true, Some pa1, s1) /\
    swap_out (Some pb) s1 = Done (true, Some pb1, s2) /\
    swap_in pb1 tb s2 = Done (true, pb2, s3) /\
    swap_in pa1 ta s3 = Done (true, pa2, s4) /\
    swap_slot_idx pa1 = ka /\ swap_slot_idx pb1 = kb /\ ka <> kb /\
    (forall o, 0 <= o < PGSIZE ->
       byte_at (kmem s4) (ta + o) = byte_at (kmem s) (kva fa + o) /\
       byte_at (kmem s4) (tb + o) = byte_at (kmem s) (kva fb + o)) /\
    swap_table s4 = swap_table s.
Proof.
  intros Hinvalid Hfit Hra Hfa Hka Hrb Hfb Hkb Hfca Hfcb Hsep.
  pose proof slot_bytes_pos as Hw. pose proof page_in_slot as Hpage.
  destruct (swap_out_effect pa fa s ka Hfit Hra Hfa Hka Hfca)
    as (s1 & Hout1 & Hkar & Hbita & Ht1 & Hm1 & Hf1 & Hl1 & Hd1).
  assert (Hlen1 : length (swap_table s1) = length (swap_table s))
    by (rewrite Ht1; apply length_insert).
  destruct (swap_out_effect pb fb s1 kb)
    as (s2 & Hout2 & Hkbr & Hbitb & Ht2 & Hm2 & Hf2 & Hl2 & Hd2);
    [now rewrite Hlen1 | exact Hrb | now rewrite Hf1 | exact Hkb | now rewrite Ht1 |].
  rewrite Hlen1 in Hkbr.
  assert (Hne : ka <> kb).
  { intros ->. rewrite Ht1 in Hbitb.
    rewrite list_lookup_insert_eq in Hbitb by lia. discriminate Hbitb. }
  assert (Hlen2 : length (swap_table s2) = length (swap_table s))
    by (rewrite Ht2, length_insert; exact Hlen1).
  set (pa1 := set_frame_ptr 0 (set_swap_slot_idx ka pa)) in *.
  set (pb1 := set_frame_ptr 0 (set_swap_slot_idx kb pb)) in *.
  destruct (swap_in_effect pb1 tb s2)
    as (s3 & Hin3 & Ht3 & Hd3 & Hf3 & Hl3 & Hm3);
    [now rewrite Hlen2 | cbn; intros E; lia | cbn; now rewrite Hlen2 |].
  cbn [swap_slot_idx pb1 set_frame_ptr set_swap_slot_idx] in Ht3, Hm3.
  assert (Hlen3 : length (swap_table s3) = length (swap_table s))
    by (rewrite Ht3, length_insert; exact Hlen2).
  destruct (swap_in_effect pa1 ta s3)
    as (s4 & Hin4 & Ht4 & Hd4 & Hf4 & Hl4 & Hm4);
    [now rewrite Hlen3 | cbn; intros E; lia | cbn; now rewrite Hlen3 |].
  cbn [swap_slot_idx pa1 set_frame_ptr set_swap_slot_idx] in Ht4, Hm4.
  exists pa1, s1, pb1, s2, (set_swap_slot_idx INVALID_SLOT_IDX pb1), s3,
         (set_swap_slot_idx INVALID_SLOT_IDX pa1), s4.
  split; [exact Hout1|]. split; [exact Hout2|]. split; [exact Hin3|].
  split; [exact Hin4|]. split; [reflexivity|]. split; [reflexivity|].
  split; [exact Hne|]. split.
  - intros o Ho. split.
    + rewrite Hm4. destruct (decide _) as [_|Hn]; [|lia].
      rewrite Hd3, Hd2. destruct (decide _) as [Hin|_].
      * exfalso. replace (ta + o - ta) with o in Hin by lia.
        apply (slots_disjoint ka kb o (ka * slot_bytes + o - kb * slot_bytes) Hne); lia.
      * rewrite Hd1. destruct (decide _) as [_|Hn]; [f_equal; lia | lia].
    + rewrite Hm4. destruct (decide _) as [Hin|_]; [lia|].
      rewrite Hm3. destruct (decide _) as [_|Hn]; [|lia].
      rewrite Hd2. destruct (decide _) as [_|Hn]; [|lia].
      rewrite Hm1. f_equal. lia.
  - rewrite Ht4, Ht3, Ht2, Ht1.
    rewrite Ht1, list_lookup_insert_ne in Hbitb by lia.
    rewrite list_insert_insert_eq.
    rewrite (list_insert_insert_ne _ (Z.to_nat kb) (Z.to_nat ka)) by lia.
    rewrite list_insert_insert_eq.
    rewrite (list_insert_id _ (Z.to_nat kb)) by exact Hbitb.
    now apply list_insert_id.
Qed.

(** X16.  A page that is swapped out and then destroyed gives its slot
    back: the bitmap after [anon_destroy] is the bitmap before
    [anon_swap_out], so that the next [anon_swap_out] takes the same slot, and
    [anon_destroy] touches neither the frames nor the disk. *)
Theorem swap_out_then_destroy_frees_slot (p : page) (fr : frame) (s : vm) (k : Z) :
  ~ (0 <= INVALID_SLOT_IDX < Z.of_nat (length (swap_table s))) ->
  Z.of_nat (length (swap_table s)) * SPP <= 2 ^ 32 ->
  resident p -> frames s !! frame_ptr p = Some fr -> kva fr <> 0 ->
  first_clear (swap_table s) 0 = Some k ->
  exists p1 s1 s2,
    swap_out (Some p) s = Done (true, Some p1, s1) /\
    destroy p1 s1 = Done s2 /\
    swap_table s2 = swap_table s /\
    first_clear (swap_table s2) 0 = Some k /\
    frames s2 = frames s /\ frame_list s2 = frame_list s /\
    swap_disk s2 = swap_disk s1 /\ kmem s2 = kmem s.
Proof.
  intros Hinvalid Hfit Hres Hfr Hkva Hfc.
  destruct (swap_out_effect p fr s k Hfit Hres Hfr Hkva Hfc)
    as (s1 & Hrun & Hk & Hbit & Ht & Hm & Hf & Hl & _).
  exists (set_frame_ptr 0 (set_swap_slot_idx k p)), s1.
  assert (Hback : <[Z.to_nat k := false]> (swap_table s1) = swap_table s).
  { rewrite Ht, list_insert_insert_eq. now apply list_insert_id. }
  eexists. split; [exact Hrun|]. split.
  { unfold anon_destroy. cbn [frame_ptr swap_slot_idx set_frame_ptr set_swap_slot_idx].
    cbn [Z.eqb negb].
    destruct (Z.eqb_spec k INVALID_SLOT_IDX) as [E|_]; [subst k; contradiction|].
    unfold bitmap_set. rewrite Ht, length_insert.
    destruct (Z.leb_spec 0 k); [|lia].
    destruct (Z.ltb_spec k (Z.of_nat (length (swap_table s)))); [|lia].
    cbn [andb]. rewrite <- Ht, Hback. reflexivity. }
  cbn. rewrite Hfc. auto 10.
Qed.

End Slots.

(** ** The life of a page *)

Section Lifecycle.

Variable PGSIZE : Z.
Variable DISK_SECTOR_SIZE : Z.
Variable INVALID_SLOT_IDX : Z.
Variable VM_MARKER_0 : Z.

(** X17.  A page fresh from [anon_initializer] is not in the swap area:
    whatever the page held before, and whatever type and thread are given,
    the call returns [true], keeps [va] and [frame], records the thread as
    owner, installs the stack operations exactly when the type has a
    [VM_MARKER_0] bit, and [anon_swap_in] on the result returns [false]
    leaving the page and the whole state as they were; with no frame
    attached, [anon_destroy] on the result fails its assertion. *)
Theorem fresh_page_is_not_in_swap (p : page) (type kva current target_kva : Z) (s : vm) :
  exists p',
    anon_initializer INVALID_SLOT_IDX VM_MARKER_0 p type kva current = (true, p') /\
    (operations p' = Some anon_stack_ops <-> Z.land type VM_MARKER_0 <> 0) /\
    (operations p' = Some anon_ops <-> Z.land type VM_MARKER_0 = 0) /\
    va p' = va p /\ frame_ptr p' = frame_ptr p /\ owner p' = current /\
    anon_swap_in PGSIZE DISK_SECTOR_SIZE INVALID_SLOT_IDX p' target_kva s
      = Done (false, p', s) /\
    (frame_ptr p = 0 -> anon_destroy INVALID_SLOT_IDX p' s = Panic).
Proof.
  eexists. split; [reflexivity|]. cbn [operations va frame_ptr owner].
  split; [|split].
  - destruct (Z.eqb_spec (Z.land type VM_MARKER_0) 0) as [E|E];
      split; intros H; congruence.
  - destruct (Z.eqb_spec (Z.land type VM_MARKER_0) 0) as [E|E];
      split; intros H; congruence.
  - split; [reflexivity|]. split; [reflexivity|]. split; [reflexivity|]. split.
    + unfold anon_swap_in. cbn [swap_slot_idx]. now rewrite Z.eqb_refl.
    + intros Hnull. unfold anon_destroy. cbn [frame_ptr swap_slot_idx].
      rewrite Hnull. cbn [Z.eqb negb]. now rewrite Z.eqb_refl.
Qed.

End Lifecycle.

(** ** Closed instances on the sample machine *)

Abbreviation sample_slot_bytes := (slot_bytes sample_PGSIZE sample_DISK_SECTOR_SIZE).

(** The sample machine with a second frame, at address 72, whose buffer at
    12288 starts with "yo", and the page it belongs to. *)
Definition sample_vm2 : vm :=
  mkVm (bitmap_create 4) ∅
       (<[12289 := "o"%byte]> (<[12288 := "y"%byte]>
          (<[8193 := "i"%byte]> (<[8192 := "h"%byte]> ∅))))
       (<[72 := mkFrame 12288]> (<[64 := mkFrame 8192]> ∅)) [64; 72] [].
Definition sample_page2 : page := mkPage (Some anon_ops) 8192 72 1 sample_INVALID_SLOT_IDX.

Lemma swap_slots_lie_on_the_disk_witness :
  swap_table (vm_anon_init sample_PGSIZE sample_DISK_SECTOR_SIZE 35 sample_vm)
    = [false; false; false; false] /\
  0 <= sector_of sample_PGSIZE sample_DISK_SECTOR_SIZE 3 7 < 35.
Proof.
  destruct (swap_slots_lie_on_the_disk sample_PGSIZE sample_DISK_SECTOR_SIZE
              ltac:(reflexivity) ltac:(reflexivity) 35 sample_vm
              ltac:(split; [lia | reflexivity]))
    as (_ & _ & Hsec & _).
  split; [reflexivity|]. apply (Hsec 3 7); vm_compute; (split; [discriminate | reflexivity]).
Defined.

Lemma swap_out_exhausted_panics_witness :
  sample_swap_out (Some sample_page)
    (set_swap_table [true; true; true; true] sample_vm) = Panic.
Proof.
  apply (swap_out_exhausted_panics sample_PGSIZE sample_DISK_SECTOR_SIZE).
  intros j Hj. cbn in Hj.
  destruct j as [|[|[|[|j]]]]; try reflexivity. lia.
Defined.

Lemma swap_out_writes_its_slot_only_witness :
  exists p1 s1,
    sample_swap_out (Some sample_page) sample_vm = Done (true, Some p1, s1) /\
    swap_slot_idx p1 = 0 /\
    byte_at (swap_disk s1) 1 = "i"%byte /\
    byte_at (swap_disk s1) 4096 = byte_at (swap_disk sample_vm) 4096.
Proof.
  destruct (swap_out_writes_its_slot_only sample_PGSIZE sample_DISK_SECTOR_SIZE
              ltac:(reflexivity) ltac:(reflexivity)
              sample_page (mkFrame 8192) sample_vm 0)
    as (p1 & s1 & Hrun & Hk & _ & Hin & Hout & _).
  - vm_compute. discriminate.
  - unfold resident. cbn. lia.
  - reflexivity.
  - cbn. lia.
  - reflexivity.
  - exists p1, s1. split; [exact Hrun|]. split; [exact Hk|]. split.
    + apply (Hin 1). vm_compute. intuition discriminate.
    + apply Hout. vm_compute. intros [_ H]. discriminate H.
Defined.

Lemma swap_in_writes_its_buffer_only_witness :
  exists p2 s2,
    sample_swap_in (set_swap_slot_idx 2 (set_frame_ptr 0 sample_page)) 16384
      (set_swap_table [true; false; true; false] sample_vm) = Done (true, p2, s2) /\
    swap_table s2 = [true; false; false; false] /\
    byte_at (kmem s2) 8192 = "h"%byte.
Proof.
  destruct (swap_in_writes_its_buffer_only sample_PGSIZE sample_DISK_SECTOR_SIZE
              sample_INVALID_SLOT_IDX ltac:(reflexivity) ltac:(reflexivity)
              (set_swap_slot_idx 2 (set_frame_ptr 0 sample_page)) 16384
              (set_swap_table [true; false; true; false] sample_vm))
    as (p2 & s2 & Hrun & _ & _ & _ & Hout & _).
  - vm_compute. discriminate.
  - vm_compute. discriminate.
  - cbn. lia.
  - exists p2, s2. split; [exact Hrun|].
    split; [|apply (Hout 8192); vm_compute; intros [H _]; apply H; reflexivity].
    vm_compute in Hrun. injection Hrun as _ <-. reflexivity.
Defined.

Lemma two_pages_swap_independently_witness :
  exists pa1 s1 pb1 s2 pb2 s3 pa2 s4,
    sample_swap_out (Some sample_page) sample_vm2 = Done (true, Some pa1, s1) /\
    sample_swap_out (Some sample_page2) s1 = Done (true, Some pb1, s2) /\
    sample_swap_in pb1 20480 s2 = Done (true, pb2, s3) /\
    sample_swap_in pa1 16384 s3 = Done (true, pa2, s4) /\
    byte_at (kmem s4) 16384 = "h"%byte /\ byte_at (kmem s4) 20480 = "y"%byte.
Proof.
  destruct (two_pages_swap_independently sample_PGSIZE sample_DISK_SECTOR_SIZE
              sample_INVALID_SLOT_IDX ltac:(reflexivity) ltac:(reflexivity)
              sample_page sample_page2 (mkFrame 8192) (mkFrame 12288)
              sample_vm2 0 1 16384 20480)
    as (pa1 & s1 & pb1 & s2 & pb2 & s3 & pa2 & s4 & H1 & H2 & H3 & H4 & _ & _ & _ & Hb & _).
  - vm_compute. intros [_ H]. discriminate H.
  - vm_compute. discriminate.
  - unfold resident. cbn. lia.
  - reflexivity.
  - cbn. lia.
  - unfold resident. cbn. lia.
  - reflexivity.
  - cbn. lia.
  - reflexivity.
  - reflexivity.
  - left. vm_compute. discriminate.
  - exists pa1, s1, pb1, s2, pb2, s3, pa2, s4.
    destruct (Hb 0 ltac:(unfold sample_PGSIZE; lia)) as [Ha Hbb].
    split; [exact H1|]. split; [exact H2|]. split; [exact H3|]. split; [exact H4|].
    split; [exact Ha | exact Hbb].
Defined.

Lemma swap_out_then_destroy_frees_slot_witness :
  exists p1 s1 s2,
    sample_swap_out (Some sample_page) sample_vm = Done (true, Some p1, s1) /\
    sample_destroy p1 s1 = Done s2 /\
    swap_table s2 = swap_table sample_vm.
Proof.
  destruct (swap_out_then_destroy_frees_slot sample_PGSIZE sample_DISK_SECTOR_SIZE
              sample_INVALID_SLOT_IDX ltac:(reflexivity) ltac:(reflexivity)
              sample_page (mkFrame 8192) sample_vm 0)
    as (p1 & s1 & s2 & H1 & H2 & H3 & _).
  - vm_compute. intros [_ H]. discriminate H.
  - vm_compute. discriminate.
  - unfold resident. cbn. lia.
  - reflexivity.
  - cbn. lia.
  - reflexivity.
  - exists p1, s1, s2. auto.
Defined.

Lemma fresh_page_is_not_in_swap_witness :
  exists p',
    anon_initializer sample_INVALID_SLOT_IDX 8 (set_swap_slot_idx 2 (set_frame_ptr 0 sample_page))
      9 8192 7 = (true, p') /\
    operations p' = Some anon_stack_ops /\ owner p' = 7 /\
    sample_swap_in p' 16384 sample_vm = Done (false, p', sample_vm) /\
    sample_destroy p' sample_vm = Panic.
Proof.
  destruct (fresh_page_is_not_in_swap sample_PGSIZE sample_DISK_SECTOR_SIZE
              sample_INVALID_SLOT_IDX 8 (set_swap_slot_idx 2 (set_frame_ptr 0 sample_page))
              9 8192 7 16384 sample_vm)
    as (p' & Hinit & Hstack & _ & _ & _ & Hown & Hin & Hdestroy).
  exists p'. split; [exact Hinit|].
  split; [apply Hstack; vm_compute; discriminate|].
  split; [exact Hown|]. split; [exact Hin|]. apply Hdestroy. reflexivity.
Defined.

End AnonMore.
